(** * Artifact resolver and validation orchestrator of the ArchitectAI frontend

    A shallow embedding of the client-side logic of
    [frontend/architect-ai/src/pages/DashboardPage.jsx] (diagram URL
    resolution and its image-error fallback), of
    [services/validationService.js] (component detection and the two
    validation calls) and of [components/ValidationPanel.jsx] (the debounced
    validation cycle), together with the properties the specification states
    about them.

    JavaScript strings are sequences of UTF-16 code units, so [jsstring] is
    [list N]; [length] is then the [.length] of the source. *)

From Stdlib Require Import String Ascii NArith ZArith List Bool Lia Decimal DecimalString.
From stdpp Require Import base option list gmap.

Local Open Scope N_scope.

Abbreviation jsstring := (list N).

(** ** The parts of the JavaScript runtime the code relies on *)

Module JS.

(** An ASCII literal of the source as a sequence of code units. *)
Definition lit (s : string) : jsstring :=
  List.map N_of_ascii (list_ascii_of_string s).

(** [String.prototype.startsWith] with the default position 0. *)
Fixpoint startsWith (s p : jsstring) {struct p} : bool :=
  match p, s with
  | [], _ => true
  | _ :: _, [] => false
  | c :: p', d :: s' => (c =? d) && startsWith s' p'
  end.

(** [String.prototype.includes]: the search string matches at some index. *)
Fixpoint includes (s p : jsstring) : bool :=
  startsWith s p ||
  match s with
  | [] => false
  | _ :: s' => includes s' p
  end.

(** [s.replace(/p$/, '')] for a pattern [p] made of literal characters: the
    matcher tries every index from the left, and the anchor [$] only lets the
    match succeed when what remains of the string is exactly [p]. *)
Fixpoint replaceAtEnd (p s : jsstring) : jsstring :=
  if bool_decide (s = p) then []
  else match s with
       | [] => []
       | c :: s' => c :: replaceAtEnd p s'
       end.

(** *** [encodeURIComponent] (ECMA-262, abstract operation Encode) *)

Definition inRange (lo hi c : N) : bool := (lo <=? c) && (c <=? hi).

(** uriUnescaped: letters, decimal digits and the marks [-_.!~*'()]. *)
Definition isUnescaped (c : N) : bool :=
  inRange 65 90 c || inRange 97 122 c || inRange 48 57 c ||
  existsb (N.eqb c) (lit "-_.!~*'()").

Definition isLeadingSurrogate (c : N) : bool := inRange 0xD800 0xDBFF c.
Definition isTrailingSurrogate (c : N) : bool := inRange 0xDC00 0xDFFF c.

(** UTF16SurrogatePairToCodePoint *)
Definition surrogatePairToCodePoint (lead trail : N) : N :=
  (lead - 0xD800) * 0x400 + (trail - 0xDC00) + 0x10000.

(** The UTF-8 octets of a code point. *)
Definition utf8 (cp : N) : list N :=
  if cp <? 0x80 then [cp]
  else if cp <? 0x800 then
    [N.lor 0xC0 (N.shiftr cp 6); N.lor 0x80 (N.land cp 0x3F)]
  else if cp <? 0x10000 then
    [N.lor 0xE0 (N.shiftr cp 12);
     N.lor 0x80 (N.land (N.shiftr cp 6) 0x3F);
     N.lor 0x80 (N.land cp 0x3F)]
  else
    [N.lor 0xF0 (N.shiftr cp 18);
     N.lor 0x80 (N.land (N.shiftr cp 12) 0x3F);
     N.lor 0x80 (N.land (N.shiftr cp 6) 0x3F);
     N.lor 0x80 (N.land cp 0x3F)].

Definition hexDigit (n : N) : N := if n <? 10 then 48 + n else 55 + n.

(** ["%XX"] with upper-case hexadecimal digits. *)
Definition percentOctet (b : N) : jsstring :=
  [37; hexDigit (N.shiftr b 4); hexDigit (N.land b 0xF)].

Definition percentEncode (cp : N) : jsstring :=
  concat (List.map percentOctet (utf8 cp)).

(** [None] stands for the [URIError] thrown on an unpaired surrogate. *)
Fixpoint encodeURIComponent (s : jsstring) : option jsstring :=
  match s with
  | [] => Some []
  | c :: rest =>
    if isUnescaped c then cons c <$> encodeURIComponent rest
    else if isLeadingSurrogate c then
      match rest with
      | d :: rest' =>
        if isTrailingSurrogate d
        then app (percentEncode (surrogatePairToCodePoint c d)) <$>
             encodeURIComponent rest'
        else None
      | [] => None
      end
    else if isTrailingSurrogate c then None
    else app (percentEncode c) <$> encodeURIComponent rest
  end.

(** [String.prototype.isWellFormed]: no unpaired surrogate. *)
Fixpoint isWellFormed (s : jsstring) : bool :=
  match s with
  | [] => true
  | c :: rest =>
    if isLeadingSurrogate c then
      match rest with
      | d :: rest' => isTrailingSurrogate d && isWellFormed rest'
      | [] => false
      end
    else negb (isTrailingSurrogate c) && isWellFormed rest
  end.

(** Number to string conversion of a non-negative integer (template
    literals such as [`${response.status}`]). *)
Definition numberToString (n : N) : jsstring :=
  lit (NilEmpty.string_of_uint (N.to_uint n)).

(** The lower-casing of the code units of an ASCII string. *)
Definition asciiLowerUnit (c : N) : N :=
  if inRange 65 90 c then c + 32 else c.

Definition isAscii (s : jsstring) : bool := forallb (fun c => c <? 128) s.

End JS.

Import JS.



(** ** Data model *)

(** Values that can be thrown; the code only ever reads [error.message]. *)
Inductive Exn : Type :=
  | Error (message : jsstring).

Definition message (e : Exn) : jsstring :=
  match e with Error m => m end.

Record ValidationResult : Type := mkValidationResult {
  valid : bool;
  canonical : jsstring;
  submodule : jsstring
}.

Record Suggestion : Type := mkSuggestion {
  sg_component : jsstring;
  sg_usage : jsstring;
  sg_submodule : jsstring
}.

(** The aggregate handed to [onValidationChange]. *)
Record ValidationState : Type := mkValidationState {
  vs_validationResults : gmap jsstring ValidationResult;
  vs_suggestions : list Suggestion;
  vs_hasErrors : bool
}.

(** The JSON object of a response: every field may be absent. *)
Record ResponseData : Type := mkResponseData {
  validation_results : option (gmap jsstring ValidationResult);
  suggestions : option (list Suggestion);
  imports_needed : option (list jsstring);
  error : option jsstring
}.

Inductive Body : Type :=
  | NotJson                         (* [response.json()] rejects *)
  | JsonNull                        (* parses, but reading a field throws *)
  | JsonObject (data : ResponseData).

Record Response : Type := mkResponse {
  status : N;
  body : Body
}.

(** [response.ok]: the status is in the range 200-299. *)
Definition ok (r : Response) : bool := inRange 200 299 (status r).

(** How the promise returned by [fetch] settles. *)
Inductive FetchOutcome : Type :=
  | Rejected (reason : Exn)
  | Fulfilled (response : Response).

Inductive RequestBody : Type :=
  | ComponentNames (component_names : list jsstring)
  | Description (description : jsstring) (architecture_types : list jsstring).

Record Request : Type := mkRequest {
  url : jsstring;
  payload : RequestBody
}.

(** What [validateAzureComponents] returns. *)
Record AzureValidation : Type := mkAzureValidation {
  av_success : bool;
  av_validationResults : gmap jsstring ValidationResult;
  av_error : option jsstring
}.

(** What [validateTextComponents] returns: the same, spread, plus
    [detectedComponents]. *)
Record TextValidation : Type := mkTextValidation {
  tv_success : bool;
  tv_validationResults : gmap jsstring ValidationResult;
  tv_error : option jsstring;
  tv_detectedComponents : list jsstring
}.

(** What [getArchitectureSuggestions] returns. *)
Record ArchSuggestions : Type := mkArchSuggestions {
  as_success : bool;
  as_suggestions : list Suggestion;
  as_importsNeeded : list jsstring;
  as_error : option jsstring
}.

(** ** Asynchronous programs

    An [async] function is a tree: it returns, throws, performs an observable
    effect (a console line, a React state setter, the parent callback) or
    suspends on a [fetch] until the outcome arrives. *)

Inductive Effect : Type :=
  | ConsoleError (label : jsstring) (e : Exn)
  | SetIsValidating (b : bool)
  | SetValidationResults (m : gmap jsstring ValidationResult)
  | SetDetectedComponents (l : list jsstring)
  | SetSuggestions (l : list Suggestion)
  | OnValidationChange (st : ValidationState).

Inductive Prog (A : Type) : Type :=
  | Ret (a : A)
  | Throw (e : Exn)
  | Perform (eff : Effect) (k : Prog A)
  | Await (req : Request) (k : FetchOutcome -> Prog A).

Arguments Ret {A} a.
Arguments Throw {A} e.
Arguments Perform {A} eff k.
Arguments Await {A} req k.

Fixpoint bind {A B : Type} (p : Prog A) (f : A -> Prog B) : Prog B :=
  match p with
  | Ret a => f a
  | Throw e => Throw e
  | Perform eff k => Perform eff (bind k f)
  | Await req k => Await req (fun o => bind (k o) f)
  end.

(** [try { p } catch (error) { handler error }] *)
Fixpoint tryCatch {A : Type} (p : Prog A) (handler : Exn -> Prog A) : Prog A :=
  match p with
  | Ret a => Ret a
  | Throw e => handler e
  | Perform eff k => Perform eff (tryCatch k handler)
  | Await req k => Await req (fun o => tryCatch (k o) handler)
  end.

(** [try { p } finally { fin }] *)
Fixpoint tryFinally {A : Type} (p : Prog A) (fin : Prog unit) : Prog A :=
  match p with
  | Ret a => bind fin (fun _ => Ret a)
  | Throw e => bind fin (fun _ => Throw e)
  | Perform eff k => Perform eff (tryFinally k fin)
  | Await req k => Await req (fun o => tryFinally (k o) fin)
  end.

Notation "'let*' x ':=' p 'in' k" := (bind p (fun x => k))
  (at level 10, x name, p at level 100, k at level 200, only parsing).

(** [await fetch(url, { method: 'POST', body: JSON.stringify(payload) })] *)
Definition fetch (url : jsstring) (payload : RequestBody) : Prog Response :=
  Await (mkRequest url payload)
        (fun o => match o with
                  | Rejected reason => Throw reason
                  | Fulfilled response => Ret response
                  end).

(** [const data = await response.json()] followed by the first field read of
    [data]: a body that is not JSON makes [json()] reject, the JSON value
    [null] makes the field read throw. The wording of the two messages is
    the engine's; the code only logs it. *)
Definition json (response : Response) : Prog ResponseData :=
  match body response with
  | NotJson => Throw (Error (lit "Unexpected token in JSON"))
  | JsonNull => Throw (Error (lit "Cannot read properties of null"))
  | JsonObject data => Ret data
  end.

(** [data.error || null]: the empty string is falsy. *)
Definition orNull (e : option jsstring) : option jsstring :=
  match e with
  | Some [] => None
  | other => other
  end.

(** The observable events of a run: requests sent and effects performed. *)
Inductive Event : Type :=
  | Fetched (req : Request)
  | Did (eff : Effect).

(** A run in which every request is answered at once by [net]. *)
Fixpoint run {A : Type} (net : Request -> FetchOutcome) (p : Prog A)
  : list Event * (A + Exn) :=
  match p with
  | Ret a => ([], inl a)
  | Throw e => ([], inr e)
  | Perform eff k => let r := run net k in (Did eff :: r.1, r.2)
  | Await req k => let r := run net (k (net req)) in (Fetched req :: r.1, r.2)
  end.

Definition requestsOf (tr : list Event) : list Request :=
  omap (fun ev => match ev with Fetched req => Some req | _ => None end) tr.

Definition publishedOf (tr : list Event) : list ValidationState :=
  omap (fun ev => match ev with
                  | Did (OnValidationChange st) => Some st
                  | _ => None
                  end) tr.

Definition displayedSuggestionsOf (tr : list Event) : list (list Suggestion) :=
  omap (fun ev => match ev with
                  | Did (SetSuggestions l) => Some l
                  | _ => None
                  end) tr.

Definition consoleOf (tr : list Event) : list jsstring :=
  omap (fun ev => match ev with
                  | Did (ConsoleError label _) => Some label
                  | _ => None
                  end) tr.

(** [Object.values(o)]; the order of the values plays no part in what the
    code computes from them. *)
Definition objectValues {V : Type} (o : gmap jsstring V) : list V :=
  (map_to_list o).*2.

(** ** The diagram area of [DashboardPage]: what the resolver reads and writes *)

Record DiagramView : Type := mkDiagramView {
  diagramUrl : jsstring;            (* useState('') *)
  resolvedDiagramUrl : jsstring;    (* useState(''), the [src] of the <img> *)
  diagramTriedProxy : bool;         (* useState(false) *)
  imgHidden : bool;                 (* the <img> carries style.display = 'none' *)
  placeholderShown : bool;          (* its next sibling <div> is displayed *)
  issued : list jsstring            (* ghost: the URLs given to the <img> for
                                       the current reference, oldest first *)
}.

(** The text of the <div> that follows the <img>. *)
Definition placeholderText (hasResults : bool) : jsstring :=
  if hasResults then lit "Diagram not available or failed to load"
  else lit "Diagram not generated yet".

(** The state of the page when it mounts. *)
Definition mountedView : DiagramView :=
  {| diagramUrl := []; resolvedDiagramUrl := []; diagramTriedProxy := false;
     imgHidden := false; placeholderShown := true; issued := [] |}.

(** ** The state of [ValidationPanel] and of its parent *)

Record PanelState : Type := mkPanelState {
  ps_validationResults : gmap jsstring ValidationResult;
  ps_suggestions : list Suggestion;
  ps_isValidating : bool;
  ps_detectedComponents : list jsstring
}.

(** A cycle that has started and is suspended on a [fetch]. *)
Record Pending : Type := mkPending {
  pd_request : Request;
  pd_resume : FetchOutcome -> Prog unit
}.

(** One line of the ghost log of publications: which cycle called
    [onValidationChange], which cycle was the most recently started one at
    that moment, and what was published. *)
Record Publication : Type := mkPublication {
  pb_cycle : nat;
  pb_newest : nat;
  pb_state : ValidationState
}.

Record Page : Type := mkPage {
  input : jsstring;                       (* the text, passed as [description] *)
  panel : PanelState;
  validationState : ValidationState;      (* written by [setValidationState] *)
  debounceTimer : option jsstring;        (* the pending [setTimeout] and the
                                             [description] its closure holds *)
  inflight : gmap nat Pending;            (* started cycles awaiting a response *)
  started : nat;                          (* ghost: number of timer firings *)
  sent : list (nat * Request);            (* ghost: requests sent, by cycle *)
  publications : list Publication         (* ghost, oldest first *)
}.

Inductive PageEvent : Type :=
  | Edit (text : jsstring)                    (* the text changes *)
  | TimerFires                                (* 1000 ms passed without a change *)
  | Settles (cycle : nat) (o : FetchOutcome). (* the pending [fetch] of a cycle settles *)

Section Frontend.

(** [import.meta.env.VITE_API_BASE_URL || ''] of [config/api.js]. *)
Variable API_BASE_URL : jsstring.

(** [String.prototype.toLowerCase], whose Unicode tables are the runtime's. *)
Variable toLowerCase : jsstring -> jsstring.

Definition GENERATE_ARCHITECTURE : jsstring :=
  API_BASE_URL ++ lit "/api/generate-architecture".
Definition VALIDATE_COMPONENTS : jsstring :=
  API_BASE_URL ++ lit "/api/validate-components".
Definition SUGGEST_ARCHITECTURE : jsstring :=
  API_BASE_URL ++ lit "/api/suggest-architecture".

(** *** Artifact resolver ([DashboardPage.jsx]) *)

(** [API_ENDPOINTS.GENERATE_ARCHITECTURE.replace(/\/api\/generate-architecture$/, '')] *)
Definition backendUrl : jsstring :=
  replaceAtEnd (lit "/api/generate-architecture") GENERATE_ARCHITECTURE.

(** The test of the effect and of [test-diagram-url.js]. *)
Definition isAzureStorageUrl (diagramUrl : jsstring) : bool :=
  startsWith diagramUrl (lit "https://") &&
  includes diagramUrl (lit ".blob.core.windows.net").

Definition buildProxyUrl (original : jsstring) : option jsstring :=
  encoded ← encodeURIComponent original;
  Some (backendUrl ++ lit "/api/proxy/diagram?url=" ++ encoded).

(** The body of [useEffect(..., [diagramUrl])]; [None] when it throws. *)
Definition resolveEffect (v : DiagramView) : option DiagramView :=
  if bool_decide (diagramUrl v = []) then
    Some {| diagramUrl := diagramUrl v; resolvedDiagramUrl := [];
            diagramTriedProxy := false; imgHidden := imgHidden v;
            placeholderShown := placeholderShown v; issued := [] |}
  else if startsWith (diagramUrl v) (lit "https://") &&
          includes (diagramUrl v) (lit ".blob.core.windows.net") then
    encoded ← encodeURIComponent (diagramUrl v);
    let proxyUrl := backendUrl ++ lit "/api/proxy/diagram?url=" ++ encoded in
    Some {| diagramUrl := diagramUrl v; resolvedDiagramUrl := proxyUrl;
            diagramTriedProxy := false; imgHidden := imgHidden v;
            placeholderShown := placeholderShown v; issued := [proxyUrl] |}
  else
    let fullDiagramUrl := backendUrl ++ diagramUrl v in
    Some {| diagramUrl := diagramUrl v; resolvedDiagramUrl := fullDiagramUrl;
            diagramTriedProxy := false; imgHidden := imgHidden v;
            placeholderShown := placeholderShown v;
            issued := [fullDiagramUrl] |}.

(** [setDiagramUrl(reference)]: the page renders again and the effect runs,
    both only when the value changes. The <img> exists only while the
    reference is non-empty, and React rewrites the [display] of the <div>
    only when [diagramUrl ? 'none' : 'block'] changes. *)
Definition setDiagramUrl (reference : jsstring) (v : DiagramView)
  : option DiagramView :=
  if bool_decide (reference = diagramUrl v) then Some v
  else
    let crossed :=
      xorb (bool_decide (reference = [])) (bool_decide (diagramUrl v = [])) in
    resolveEffect
      {| diagramUrl := reference; resolvedDiagramUrl := resolvedDiagramUrl v;
         diagramTriedProxy := diagramTriedProxy v;
         imgHidden := if crossed then false else imgHidden v;
         placeholderShown :=
           if crossed then bool_decide (reference = []) else placeholderShown v;
         issued := issued v |}.

(** The [onError] handler of the <img>; [None] when it throws. *)
Definition onError (v : DiagramView) : option DiagramView :=
  if negb (diagramTriedProxy v) then
    fallbackUrl ←
      (if startsWith (diagramUrl v) (lit "https://")
       then Some (diagramUrl v)
       else buildProxyUrl (diagramUrl v));
    Some {| diagramUrl := diagramUrl v; resolvedDiagramUrl := fallbackUrl;
            diagramTriedProxy := true; imgHidden := imgHidden v;
            placeholderShown := placeholderShown v;
            issued := issued v ++ [fallbackUrl] |}
  else
    Some {| diagramUrl := diagramUrl v;
            resolvedDiagramUrl := resolvedDiagramUrl v;
            diagramTriedProxy := diagramTriedProxy v; imgHidden := true;
            placeholderShown := true; issued := issued v |}.

(** An image-load failure: a handler that throws leaves the state as it is. *)
Definition loadFails (v : DiagramView) : DiagramView :=
  default v (onError v).

(** The first URL given to the <img> for a reference generated on a freshly
    mounted page. *)
Definition firstResolvedUrl (reference : jsstring) : option jsstring :=
  resolvedDiagramUrl <$> setDiagramUrl reference mountedView.

(** *** Validation service ([validationService.js]) *)

Definition validateAzureComponents (componentNames : list jsstring)
  : Prog AzureValidation :=
  tryCatch
    (let* response := fetch VALIDATE_COMPONENTS (ComponentNames componentNames) in
     if negb (ok response) then
       Throw (Error (lit "Validation failed: " ++ numberToString (status response)))
     else
       let* data := json response in
       Ret {| av_success := true;
              av_validationResults := default ∅ (validation_results data);
              av_error := orNull (error data) |})
    (fun error =>
       Perform (ConsoleError (lit "Component validation error:") error)
         (Ret {| av_success := false;
                 av_validationResults := ∅;
                 av_error := Some (message error) |})).

Definition defaultArchitectureTypes : list jsstring :=
  [lit "frontend"; lit "backend"; lit "database"; lit "cache"].

(** The second parameter is [None] when the caller leaves it out. *)
Definition getArchitectureSuggestions
  (description : jsstring) (architectureTypes : option (list jsstring))
  : Prog ArchSuggestions :=
  let architectureTypes := default defaultArchitectureTypes architectureTypes in
  tryCatch
    (let* response :=
       fetch SUGGEST_ARCHITECTURE (Description description architectureTypes) in
     if negb (ok response) then
       Throw (Error (lit "Architecture suggestion failed: " ++
                     numberToString (status response)))
     else
       let* data := json response in
       Ret {| as_success := true;
              as_suggestions := default [] (suggestions data);
              as_importsNeeded := default [] (imports_needed data);
              as_error := orNull (error data) |})
    (fun error =>
       Perform (ConsoleError (lit "Architecture suggestion error:") error)
         (Ret {| as_success := false;
                 as_suggestions := [];
                 as_importsNeeded := [];
                 as_error := Some (message error) |})).

Definition azureKeywords : list jsstring :=
  [lit "AppServices"; lit "ContainerApps"; lit "ACR"; lit "AKS";
   lit "FunctionApps"; lit "SQLDatabases"; lit "CosmosDb";
   lit "CacheForRedis"; lit "BlobStorage"; lit "KeyVaults";
   lit "StaticWebApps"; lit "ApplicationGateway"; lit "LoadBalancer"].

Definition detectComponents (text : jsstring) : list jsstring :=
  List.filter
    (fun keyword => includes (toLowerCase text) (toLowerCase keyword))
    azureKeywords.

Definition validateTextComponents (text : jsstring) : Prog TextValidation :=
  let detectedComponents := detectComponents text in
  if (length detectedComponents =? 0)%nat then
    Ret {| tv_success := true; tv_validationResults := ∅; tv_error := None;
           tv_detectedComponents := [] |}
  else
    let* validation := validateAzureComponents detectedComponents in
    Ret {| tv_success := av_success validation;
           tv_validationResults := av_validationResults validation;
           tv_error := av_error validation;
           tv_detectedComponents := detectedComponents |}.

(** *** Validation panel ([ValidationPanel.jsx]) *)

(** [Object.values(validationResults || {}).some(r => !r.valid)] *)
Definition hasErrorsOf (validationResults : gmap jsstring ValidationResult)
  : bool :=
  existsb (fun r => negb (valid r)) (objectValues validationResults).

(** The [async] closure the debounce timer calls; [onValidationChange] tells
    whether the parent passed the callback. *)
Definition validateDescription (description : jsstring)
  (onValidationChange : bool) : Prog unit :=
  if bool_decide (description = []) || (length description <? 10)%nat then
    Ret tt
  else
    Perform (SetIsValidating true)
    (tryFinally
      (tryCatch
        (let* componentValidation := validateTextComponents description in
         Perform (SetValidationResults (tv_validationResults componentValidation))
        (Perform (SetDetectedComponents (tv_detectedComponents componentValidation))
        (let* archSuggestions := getArchitectureSuggestions description None in
         Perform (SetSuggestions (take 5 (as_suggestions archSuggestions)))
        (if onValidationChange then
           Perform (OnValidationChange
             {| vs_validationResults := tv_validationResults componentValidation;
                vs_suggestions := as_suggestions archSuggestions;
                vs_hasErrors :=
                  hasErrorsOf (tv_validationResults componentValidation) |})
             (Ret tt)
         else Ret tt))))
        (fun error =>
           Perform (ConsoleError (lit "Validation error:") error) (Ret tt)))
      (Perform (SetIsValidating false) (Ret tt))).

(** *** The page as an event-driven system

    The browser runs one callback at a time: a text change, the firing of
    the debounce timer, or the arrival of a response that resumes the cycle
    which was waiting for it. *)

Definition applyEffect (cycle : nat) (eff : Effect) (pg : Page) : Page :=
  match eff with
  | ConsoleError _ _ => pg
  | SetIsValidating b =>
    {| input := input pg;
       panel := {| ps_validationResults := ps_validationResults (panel pg);
                   ps_suggestions := ps_suggestions (panel pg);
                   ps_isValidating := b;
                   ps_detectedComponents := ps_detectedComponents (panel pg) |};
       validationState := validationState pg;
       debounceTimer := debounceTimer pg; inflight := inflight pg;
       started := started pg; sent := sent pg;
       publications := publications pg |}
  | SetValidationResults m =>
    {| input := input pg;
       panel := {| ps_validationResults := m;
                   ps_suggestions := ps_suggestions (panel pg);
                   ps_isValidating := ps_isValidating (panel pg);
                   ps_detectedComponents := ps_detectedComponents (panel pg) |};
       validationState := validationState pg;
       debounceTimer := debounceTimer pg; inflight := inflight pg;
       started := started pg; sent := sent pg;
       publications := publications pg |}
  | SetDetectedComponents l =>
    {| input := input pg;
       panel := {| ps_validationResults := ps_validationResults (panel pg);
                   ps_suggestions := ps_suggestions (panel pg);
                   ps_isValidating := ps_isValidating (panel pg);
                   ps_detectedComponents := l |};
       validationState := validationState pg;
       debounceTimer := debounceTimer pg; inflight := inflight pg;
       started := started pg; sent := sent pg;
       publications := publications pg |}
  | SetSuggestions l =>
    {| input := input pg;
       panel := {| ps_validationResults := ps_validationResults (panel pg);
                   ps_suggestions := l;
                   ps_isValidating := ps_isValidating (panel pg);
                   ps_detectedComponents := ps_detectedComponents (panel pg) |};
       validationState := validationState pg;
       debounceTimer := debounceTimer pg; inflight := inflight pg;
       started := started pg; sent := sent pg;
       publications := publications pg |}
  | OnValidationChange st =>
    {| input := input pg; panel := panel pg;
       validationState := st;
       debounceTimer := debounceTimer pg; inflight := inflight pg;
       started := started pg; sent := sent pg;
       publications :=
         publications pg ++
         [{| pb_cycle := cycle; pb_newest := pred (started pg);
             pb_state := st |}] |}
  end.

(** Run a cycle until it ends or suspends on its next [fetch]. *)
Fixpoint advance (cycle : nat) (p : Prog unit) (pg : Page) : Page :=
  match p with
  | Ret _ => pg
  | Throw _ => pg
  | Perform eff k => advance cycle k (applyEffect cycle eff pg)
  | Await req k =>
    {| input := input pg; panel := panel pg;
       validationState := validationState pg;
       debounceTimer := debounceTimer pg;
       inflight := <[cycle := mkPending req k]> (inflight pg);
       started := started pg; sent := sent pg ++ [(cycle, req)];
       publications := publications pg |}
  end.

Definition step (pg : Page) (ev : PageEvent) : Page :=
  match ev with
  | Edit text =>
    (* the effect depends on [description]: its cleanup clears the pending
       timer and a new timer is set *)
    if bool_decide (text = input pg) then pg
    else {| input := text; panel := panel pg;
            validationState := validationState pg;
            debounceTimer := Some text; inflight := inflight pg;
            started := started pg; sent := sent pg;
            publications := publications pg |}
  | TimerFires =>
    match debounceTimer pg with
    | None => pg
    | Some description =>
      advance (started pg) (validateDescription description true)
        {| input := input pg; panel := panel pg;
           validationState := validationState pg;
           debounceTimer := None; inflight := inflight pg;
           started := S (started pg); sent := sent pg;
           publications := publications pg |}
    end
  | Settles cycle o =>
    match inflight pg !! cycle with
    | None => pg
    | Some pending =>
      advance cycle (pd_resume pending o)
        {| input := input pg; panel := panel pg;
           validationState := validationState pg;
           debounceTimer := debounceTimer pg;
           inflight := delete cycle (inflight pg);
           started := started pg; sent := sent pg;
           publications := publications pg |}
    end
  end.

(** The page when it mounts: empty text, and the effect has set a timer. *)
Definition mountedPage : Page :=
  {| input := [];
     panel := {| ps_validationResults := ∅; ps_suggestions := [];
                 ps_isValidating := false; ps_detectedComponents := [] |};
     validationState := {| vs_validationResults := ∅; vs_suggestions := [];
                           vs_hasErrors := false |};
     debounceTimer := Some []; inflight := ∅; started := 0%nat; sent := [];
     publications := [] |}.

Definition steps (evs : list PageEvent) (pg : Page) : Page :=
  foldl step pg evs.

(** The pending [fetch] of a cycle settles the way [net] answers it. *)
Definition settleWith (net : Request -> FetchOutcome) (cycle : nat) (pg : Page)
  : Page :=
  match inflight pg !! cycle with
  | None => pg
  | Some pending => step pg (Settles cycle (net (pd_request pending)))
  end.

End Frontend.

(** ** Notions the statements below use *)

(** The authority of an absolute URL, the part that holds its host: what
    stands between ["://"] and the next ["/"], ["?"] or ["#"]. *)
Fixpoint afterSchemeSeparator (s : jsstring) : option jsstring :=
  if startsWith s (lit "://") then Some (drop 3 s)
  else match s with
       | [] => None
       | _ :: s' => afterSchemeSeparator s'
       end.

Fixpoint upToDelimiter (s : jsstring) : jsstring :=
  match s with
  | [] => []
  | c :: s' => if existsb (N.eqb c) (lit "/?#") then [] else c :: upToDelimiter s'
  end.

Definition urlAuthority (s : jsstring) : option jsstring :=
  upToDelimiter <$> afterSchemeSeparator s.

(** The resolver has used its one retry and has hidden the image. *)
Definition exhausted (v : DiagramView) : bool :=
  diagramTriedProxy v && imgHidden v.


(** An external call failed: the network rejected the request, or the
    response carries a non-success status. *)
Definition callFailed (o : FetchOutcome) : bool :=
  match o with
  | Rejected _ => true
  | Fulfilled response => negb (ok response)
  end.

(** The JSON object of a response that arrived with a success status. *)
Definition dataOf (o : FetchOutcome) : option ResponseData :=
  match o with
  | Rejected _ => None
  | Fulfilled response =>
    if ok response then
      match body response with
      | JsonObject data => Some data
      | _ => None
      end
    else None
  end.

(** What each call contributes to the cycle. *)
Definition validationContribution (o : FetchOutcome)
  : gmap jsstring ValidationResult :=
  default ∅ (dataOf o ≫= validation_results).

Definition suggestionContribution (o : FetchOutcome) : list Suggestion :=
  default [] (dataOf o ≫= suggestions).

(** The console line of a [catch] block, when the block ran. *)
Definition consoleLine (label : jsstring) (caught : option Exn) : list Event :=
  match caught with
  | Some e => [Did (ConsoleError label e)]
  | None => []
  end.

Section Notions.

Variable API_BASE_URL : jsstring.
Variable toLowerCase : jsstring -> jsstring.

(** A keyword occurs in a text when case is ignored. *)
Definition occursIgnoringCase (keyword text : jsstring) : Prop :=
  ∃ before after,
    toLowerCase text = before ++ toLowerCase keyword ++ after.

Definition validationRequest (text : jsstring) : Request :=
  mkRequest (VALIDATE_COMPONENTS API_BASE_URL)
            (ComponentNames (detectComponents toLowerCase text)).

Definition suggestionRequest (text : jsstring) : Request :=
  mkRequest (SUGGEST_ARCHITECTURE API_BASE_URL)
            (Description text defaultArchitectureTypes).

(** The requests of a cycle: the validation call is left out when no
    component was detected. *)
Definition cycleRequests (text : jsstring) : list Request :=
  match detectComponents toLowerCase text with
  | [] => [suggestionRequest text]
  | _ :: _ => [validationRequest text; suggestionRequest text]
  end.

Definition cycleResults (net : Request -> FetchOutcome) (text : jsstring)
  : gmap jsstring ValidationResult :=
  match detectComponents toLowerCase text with
  | [] => ∅
  | _ :: _ => validationContribution (net (validationRequest text))
  end.

(** The aggregate of a cycle on [text] when the network answers as [net]. *)
Definition cycleState (net : Request -> FetchOutcome) (text : jsstring)
  : ValidationState :=
  {| vs_validationResults := cycleResults net text;
     vs_suggestions := suggestionContribution (net (suggestionRequest text));
     vs_hasErrors := hasErrorsOf (cycleResults net text) |}.

End Notions.

Section EventNotions.

Variable API_BASE_URL : jsstring.
Variable toLowerCase : jsstring -> jsstring.

(** Every pending [fetch] of a cycle settles the way [net] answers, at most
    [fuel] times in a row. *)
Fixpoint settleAll (net : Request -> FetchOutcome) (cycle fuel : nat)
  (pg : Page) : Page :=
  match fuel with
  | O => pg
  | S fuel' =>
    settleAll net cycle fuel' (settleWith API_BASE_URL toLowerCase net cycle pg)
  end.

(** The page once a cycle is no longer waiting. *)
Definition forget (cycle : nat) (pg : Page) : Page :=
  {| input := input pg; panel := panel pg;
     validationState := validationState pg;
     debounceTimer := debounceTimer pg;
     inflight := delete cycle (inflight pg);
     started := started pg; sent := sent pg;
     publications := publications pg |}.

(** The events of a run, replayed on the page on behalf of a cycle. *)
Definition applyEvent (cycle : nat) (pg : Page) (ev : Event) : Page :=
  match ev with
  | Did eff => applyEffect cycle eff pg
  | Fetched req =>
    {| input := input pg; panel := panel pg;
       validationState := validationState pg;
       debounceTimer := debounceTimer pg; inflight := inflight pg;
       started := started pg; sent := sent pg ++ [(cycle, req)];
       publications := publications pg |}
  end.

Definition applyEvents (cycle : nat) (tr : list Event) (pg : Page) : Page :=
  foldl (applyEvent cycle) pg tr.

(** Every publication on the page came from the most recently started
    cycle. *)
Definition onlyNewestPublished (pg : Page) : bool :=
  forallb (fun pb => Nat.eqb (pb_cycle pb) (pb_newest pb)) (publications pg).

End EventNotions.

(** The page with another pending debounce timer, or with none. *)
Definition withTimer (timer : option jsstring) (pg : Page) : Page :=
  {| input := input pg; panel := panel pg;
     validationState := validationState pg;
     debounceTimer := timer; inflight := inflight pg;
     started := started pg; sent := sent pg;
     publications := publications pg |}.

(** What one event of a run does to the state of the panel. *)
Definition showOnPanel (ps : PanelState) (ev : Event) : PanelState :=
  match ev with
  | Did (SetIsValidating b) =>
    mkPanelState (ps_validationResults ps) (ps_suggestions ps) b
                 (ps_detectedComponents ps)
  | Did (SetValidationResults m) =>
    mkPanelState m (ps_suggestions ps) (ps_isValidating ps)
                 (ps_detectedComponents ps)
  | Did (SetDetectedComponents l) =>
    mkPanelState (ps_validationResults ps) (ps_suggestions ps)
                 (ps_isValidating ps) l
  | Did (SetSuggestions l) =>
    mkPanelState (ps_validationResults ps) l (ps_isValidating ps)
                 (ps_detectedComponents ps)
  | _ => ps
  end.

(** ** Concrete configurations and inputs *)

Module Sample.

(** A deployment with a configured base URL, and the default one. *)
Definition configuredBase : jsstring := lit "https://backend.example".
Definition defaultBase : jsstring := [].

(** [toLowerCase] on strings made of ASCII characters. *)
Definition asciiToLowerCase (s : jsstring) : jsstring :=
  List.map asciiLowerUnit s.

Definition storageReference : jsstring :=
  lit "https://store.blob.core.windows.net/diagrams/x.png".
Definition relativeReference : jsstring := lit "/static/diagrams/x.png".

(** An absolute URL whose host is not a storage host but whose path holds
    the text that the test looks for. *)
Definition pathOnlyReference : jsstring :=
  lit "https://example.com/files/a.blob.core.windows.net.png".

(** An absolute URL that is not a storage URL at all. *)
Definition otherHostReference : jsstring :=
  lit "https://example.com/diagrams/x.png".

Definition scenarioText : jsstring :=
  lit "Use AppServices and CosmosDb with CacheForRedis".
Definition olderText : jsstring := lit "Use AppServices here".
Definition newerText : jsstring := lit "Use CosmosDb instead".

Definition suggest (name : string) : Suggestion :=
  {| sg_component := lit name; sg_usage := lit "usage";
     sg_submodule := lit "azure" |}.

Definition sixSuggestions : list Suggestion :=
  [suggest "AppServices"; suggest "SQLDatabases"; suggest "CacheForRedis";
   suggest "BlobStorage"; suggest "KeyVaults"; suggest "LoadBalancer"].

Definition success (data : ResponseData) : FetchOutcome :=
  Fulfilled {| status := 200; body := JsonObject data |}.

(** The validation endpoint finds every name valid except ["CosmosDb"]. *)
Definition validated (names : list jsstring)
  : gmap jsstring ValidationResult :=
  list_to_map
    (List.map
       (fun name =>
          (name, {| valid := negb (bool_decide (name = lit "CosmosDb"));
                    canonical := name; submodule := lit "azure" |}))
       names).

(** A network on which both endpoints answer. *)
Definition answering (suggested : list Suggestion) (req : Request)
  : FetchOutcome :=
  match payload req with
  | ComponentNames names =>
    success {| validation_results := Some (validated names);
               suggestions := None; imports_needed := None; error := None |}
  | Description _ _ =>
    success {| validation_results := None; suggestions := Some suggested;
               imports_needed := Some []; error := None |}
  end.

(** A network on which the validation endpoint cannot be reached. *)
Definition validationDown (suggested : list Suggestion) (req : Request)
  : FetchOutcome :=
  match payload req with
  | ComponentNames _ => Rejected (Error (lit "Failed to fetch"))
  | Description _ _ => answering suggested req
  end.

(** Two cycles in flight: the older text, then the newer one. *)
Definition twoCyclesStarted : Page :=
  steps configuredBase asciiToLowerCase
    [Edit olderText; TimerFires; Edit newerText; TimerFires] mountedPage.

(** What the older cycle is waiting for. *)
Definition olderPending : Pending :=
  match inflight twoCyclesStarted !! 0%nat with
  | Some pending => pending
  | None => {| pd_request := mkRequest [] (ComponentNames []);
               pd_resume := fun _ => Ret tt |}
  end.

(** The newer cycle settles first, the older one last. *)
Definition olderSettlesLast : Page :=
  settleAll configuredBase asciiToLowerCase
    (answering [suggest "AppServices"]) 0 2
    (settleAll configuredBase asciiToLowerCase
       (answering [suggest "CosmosDb"]) 1 2 twoCyclesStarted).

End Sample.

(** * The rest of the page: titles, export names, document rendering *)

Module Text.

(** WhiteSpace and LineTerminator code points, what [trim] strips and what
    [\s] matches. *)
Definition isWhiteSpace (c : N) : bool :=
  inRange 9 13 c || (c =? 32) || (c =? 0xA0) || (c =? 0x1680) ||
  inRange 0x2000 0x200A c || (c =? 0x2028) || (c =? 0x2029) ||
  (c =? 0x202F) || (c =? 0x205F) || (c =? 0x3000) || (c =? 0xFEFF).

Fixpoint trimStart (s : jsstring) : jsstring :=
  match s with
  | [] => []
  | c :: s' => if isWhiteSpace c then trimStart s' else s
  end.

Definition trimEnd (s : jsstring) : jsstring := rev (trimStart (rev s)).

(** [String.prototype.trim] *)
Definition trim (s : jsstring) : jsstring := trimEnd (trimStart s).

(** [s.split(sep)] for a separator of one code unit. *)
Fixpoint split (sep : N) (s : jsstring) : list jsstring :=
  match s with
  | [] => [[]]
  | c :: s' =>
    if c =? sep then [] :: split sep s'
    else match split sep s' with
         | piece :: pieces => (c :: piece) :: pieces
         | [] => [[c]]
         end
  end.

Definition lineFeed : N := 10.

(** The character class [[a-zA-Z0-9_-]]. *)
Definition isFileNameUnit (c : N) : bool :=
  inRange 97 122 c || inRange 65 90 c || inRange 48 57 c ||
  (c =? 95) || (c =? 45).

(** [title.replace(/[^a-zA-Z0-9_-]/g, '_')]: without the [u] flag the class
    is tested on every code unit. *)
Definition replaceUnsafe (title : jsstring) : jsstring :=
  List.map (fun c => if isFileNameUnit c then c else 95) title.

(** [a || b] on strings: the empty string is falsy. *)
Definition orElse (a b : jsstring) : jsstring :=
  match a with
  | [] => b
  | _ :: _ => a
  end.

End Text.

Import Text.

(** The loop of [generateTitle] over the non-blank lines. *)
Fixpoint firstHeading (lines : list jsstring) : option jsstring :=
  match lines with
  | [] => None
  | line :: rest =>
    if startsWith line (lit "# ") then Some (trim (drop 2 line))
    else if startsWith line (lit "## ") then Some (trim (drop 3 line))
    else firstHeading rest
  end.

Definition generateTitle (document : jsstring) : jsstring :=
  if bool_decide (document = []) then []
  else
    let lines :=
      List.filter (fun line => negb (bool_decide (trim line = [])))
                  (split lineFeed document) in
    match firstHeading lines with
    | Some title => title
    | None =>
      match trim <$> head lines with
      | Some firstLine =>
        if negb (bool_decide (firstLine = [])) && (10 <? length firstLine)%nat
        then if (50 <? length firstLine)%nat
             then take 47 firstLine ++ lit "..."
             else firstLine
        else lit "Generated Architecture"
      | None => lit "Generated Architecture"
      end
    end.

(** The file names of [exportDesignDocument] and [exportDiagramPNG]. *)
Definition documentFileName (designDocument : jsstring) : jsstring :=
  let title :=
    orElse (generateTitle designDocument) (lit "Architecture_Design_Document") in
  replaceUnsafe title ++ lit ".md".

Definition diagramFileName (designDocument : jsstring) : jsstring :=
  let title :=
    orElse (generateTitle designDocument) (lit "Architecture_Diagram") in
  replaceUnsafe title ++ lit ".png".

(** What [renderDocument] builds; each element carries its React key. *)
Inductive DocElement : Type :=
  | Heading1 (key : nat) (text : jsstring)
  | Heading2 (key : nat) (text : jsstring)
  | Heading3 (key : nat) (text : jsstring)
  | ListItem (key : nat) (text : jsstring)
  | LineBreak (key : nat)
  | Para (key : nat) (text : jsstring).

Definition keyOf (el : DocElement) : nat :=
  match el with
  | Heading1 k _ | Heading2 k _ | Heading3 k _ | ListItem k _ | LineBreak k | Para k _ => k
  end.

Inductive Rendered : Type :=
  | NoContent                              (* "No content available" *)
  | Prose (elements : list DocElement).

(** One turn of the loop of [renderDocument]: what is pushed for line [i]. *)
Definition renderLine (i : nat) (line : jsstring) : list DocElement :=
  if startsWith line (lit "# ") then [Heading1 i (drop 2 line)]
  else if startsWith line (lit "## ") then [Heading2 i (drop 3 line)]
  else if startsWith line (lit "### ") then [Heading3 i (drop 4 line)]
  else if startsWith line (lit "- ") then [ListItem i (drop 2 line)]
  else if startsWith line (lit "* ") then [ListItem i (drop 2 line)]
  else if bool_decide (trim line = []) then [LineBreak i]
  else if negb (bool_decide (trim line = [])) then [Para i line]
  else [].

Fixpoint renderLines (i : nat) (lines : list jsstring) : list DocElement :=
  match lines with
  | [] => []
  | line :: rest => renderLine i line ++ renderLines (S i) rest
  end.

Definition renderDocument (text : jsstring) : Rendered :=
  if bool_decide (text = []) then NoContent
  else Prose (renderLines 0 (split lineFeed text)).

(** [config/api.js]: the two endpoints that carry a diagram path. *)
Definition EXPORT_DIAGRAM (API_BASE_URL diagramUrl filename : jsstring)
  : option jsstring :=
  encoded ← encodeURIComponent filename;
  Some (API_BASE_URL ++ lit "/api/export/diagram" ++ diagramUrl ++
        lit "?filename=" ++ encoded).

Definition DIAGRAM_URL (API_BASE_URL diagramPath : jsstring) : jsstring :=
  API_BASE_URL ++ diagramPath.

(** [lines.join(sep)] for a separator of one code unit. *)
Fixpoint join (sep : N) (lines : list jsstring) : jsstring :=
  match lines with
  | [] => []
  | [line] => line
  | line :: rest => line ++ sep :: join sep rest
  end.

(** A string has no white space at its start, or at its end. *)
Definition startsClean (s : jsstring) : Prop :=
  match s with
  | [] => True
  | c :: _ => isWhiteSpace c = false
  end.

Definition endsClean (s : jsstring) : Prop := startsClean (rev s).

(** A line that [generateTitle] takes for a heading. *)
Definition isHeadingLine (line : jsstring) : bool :=
  startsWith line (lit "# ") || startsWith line (lit "## ").

(** * The handlers of [DashboardPage] *)

(** A saved architecture, as far as the handlers read it. *)
Record Architecture : Type := mkArchitecture {
  ar_id : option jsstring;
  ar_design_document : option jsstring;
  ar_diagram_url : option jsstring
}.

(** The JSON object of a response of the generation and persistence
    endpoints: every field may be absent. *)
Record PageJson : Type := mkPageJson {
  j_design_document : option jsstring;
  j_diagram_url : option jsstring;
  j_detail : option jsstring;
  j_exists : bool;
  j_architecture : option Architecture;
  j_id : option jsstring
}.

Definition emptyObject : PageJson :=
  {| j_design_document := None; j_diagram_url := None; j_detail := None;
     j_exists := false; j_architecture := None; j_id := None |}.

Inductive PageBody : Type :=
  | PageNotJson
  | PageJsonNull
  | PageObject (data : PageJson).

Record PageResponse : Type := mkPageResponse {
  pr_status : N;
  pr_statusText : jsstring;
  pr_body : PageBody;
  pr_blobReadable : bool          (* [response.blob()] fulfils *)
}.

Definition pr_ok (r : PageResponse) : bool := inRange 200 299 (pr_status r).

Inductive PageOutcome : Type :=
  | PageRejected (reason : Exn)
  | PageFulfilled (response : PageResponse).

Inductive Method : Type := GET | POST.

Record PageRequest : Type := mkPageRequest {
  rq_method : Method;
  rq_url : jsstring;
  rq_fields : list (jsstring * jsstring)   (* the fields of the JSON body *)
}.

(** [architectureExists]: [null], [false], [undefined] or an object. *)
Inductive ArchitectureExists : Type :=
  | AeNull
  | AeFalse
  | AeUndefined
  | AeObject (architecture : Architecture).

Inductive StatusType : Type := StatusSuccess | StatusError.

(** Where a download link points. *)
Inductive DownloadSource : Type :=
  | BlobOf (url : jsstring)          (* an object URL of the fetched blob *)
  | LinkTo (url : jsstring).

Inductive Action : Type :=
  | PreventDefault
  | SetIsProcessing (b : bool)
  | SetHasResults (b : bool)
  | SetDesignDocument (s : jsstring)
  | SetDiagramUrl (s : jsstring)
  | SetError (s : jsstring)
  | SetArchitectureExists (a : ArchitectureExists)
  | SetProcessingMessage (s : jsstring)
  | SetInput (s : jsstring)
  | SetShowSavedDropdown (b : bool)
  | SetExportStatus (type : StatusType) (message : jsstring)
  | SetIsExporting (b : bool)
  | Download (source : DownloadSource) (filename : jsstring)
  | LogError (label : jsstring) (e : Exn)
  | AwaitsBody.   (* suspended on [await response.json()] or [.blob()] *)

(** The handlers are trees as well, over the actions of the page. *)
Inductive Task (A : Type) : Type :=
  | Done (a : A)
  | Raise (e : Exn)
  | Act (a : Action) (k : Task A)
  | Fetch (req : PageRequest) (k : PageOutcome -> Task A)
  | OpenWindow (url : jsstring) (k : bool -> Task A).

Arguments Done {A} a.
Arguments Raise {A} e.
Arguments Act {A} a k.
Arguments Fetch {A} req k.
Arguments OpenWindow {A} url k.

Fixpoint andThen {A B : Type} (t : Task A) (f : A -> Task B) : Task B :=
  match t with
  | Done a => f a
  | Raise e => Raise e
  | Act a k => Act a (andThen k f)
  | Fetch req k => Fetch req (fun o => andThen (k o) f)
  | OpenWindow url k => OpenWindow url (fun w => andThen (k w) f)
  end.

Fixpoint catching {A : Type} (t : Task A) (handler : Exn -> Task A) : Task A :=
  match t with
  | Done a => Done a
  | Raise e => handler e
  | Act a k => Act a (catching k handler)
  | Fetch req k => Fetch req (fun o => catching (k o) handler)
  | OpenWindow url k => OpenWindow url (fun w => catching (k w) handler)
  end.

Fixpoint finally {A : Type} (t : Task A) (fin : Task unit) : Task A :=
  match t with
  | Done a => andThen fin (fun _ => Done a)
  | Raise e => andThen fin (fun _ => Raise e)
  | Act a k => Act a (finally k fin)
  | Fetch req k => Fetch req (fun o => finally (k o) fin)
  | OpenWindow url k => OpenWindow url (fun w => finally (k w) fin)
  end.

Notation "'do*' x ':=' t 'in' k" := (andThen t (fun x => k))
  (at level 10, x name, t at level 100, k at level 200, only parsing).

(** [await fetch(url, ...)] *)
Definition request (method : Method) (url : jsstring)
  (fields : list (jsstring * jsstring)) : Task PageResponse :=
  Fetch (mkPageRequest method url fields)
          (fun o => match o with
                    | PageRejected reason => Raise reason
                    | PageFulfilled response => Done response
                    end).

(** [await response.json()] followed by the first field read. *)
Definition pageJson (response : PageResponse) : Task PageJson :=
  Act AwaitsBody
    match pr_body response with
    | PageNotJson => Raise (Error (lit "Unexpected token in JSON"))
    | PageJsonNull => Raise (Error (lit "Cannot read properties of null"))
    | PageObject data => Done data
    end.

(** [await response.json().catch(() => ({}))] followed by a field read. *)
Definition pageJsonOrEmpty (response : PageResponse) : Task PageJson :=
  Act AwaitsBody
    match pr_body response with
    | PageNotJson => Done emptyObject
    | PageJsonNull => Raise (Error (lit "Cannot read properties of null"))
    | PageObject data => Done data
    end.

(** What the browser and the network answer. *)
Record World : Type := mkWorld {
  answers : PageRequest -> PageOutcome;
  opens : jsstring -> bool               (* [window.open] returns a window *)
}.

Inductive Step : Type :=
  | Asked (req : PageRequest)
  | Opened (url : jsstring)
  | Took (a : Action).

Fixpoint perform {A : Type} (w : World) (t : Task A) : list Step * (A + Exn) :=
  match t with
  | Done a => ([], inl a)
  | Raise e => ([], inr e)
  | Act a k => let r := perform w k in (Took a :: r.1, r.2)
  | Fetch req k =>
    let r := perform w (k (answers w req)) in (Asked req :: r.1, r.2)
  | OpenWindow url k =>
    let r := perform w (k (opens w url)) in (Opened url :: r.1, r.2)
  end.

(** The part of the state of the page that the handlers below write. *)
Record Dashboard : Type := mkDashboard {
  d_input : jsstring;
  d_isProcessing : bool;
  d_hasResults : bool;
  d_error : jsstring;
  d_architectureExists : ArchitectureExists;
  d_processingMessage : jsstring;
  d_designDocument : jsstring;
  d_diagramUrl : jsstring;
  d_showSavedDropdown : bool;
  d_exportStatus : option (StatusType * jsstring);
  d_isExporting : bool
}.

Definition act (d : Dashboard) (a : Action) : Dashboard :=
  match a with
  | PreventDefault | Download _ _ | LogError _ _ | AwaitsBody => d
  | SetIsProcessing b =>
    mkDashboard (d_input d) b (d_hasResults d) (d_error d)
      (d_architectureExists d) (d_processingMessage d) (d_designDocument d)
      (d_diagramUrl d) (d_showSavedDropdown d) (d_exportStatus d)
      (d_isExporting d)
  | SetHasResults b =>
    mkDashboard (d_input d) (d_isProcessing d) b (d_error d)
      (d_architectureExists d) (d_processingMessage d) (d_designDocument d)
      (d_diagramUrl d) (d_showSavedDropdown d) (d_exportStatus d)
      (d_isExporting d)
  | SetDesignDocument s =>
    mkDashboard (d_input d) (d_isProcessing d) (d_hasResults d) (d_error d)
      (d_architectureExists d) (d_processingMessage d) s
      (d_diagramUrl d) (d_showSavedDropdown d) (d_exportStatus d)
      (d_isExporting d)
  | SetDiagramUrl s =>
    mkDashboard (d_input d) (d_isProcessing d) (d_hasResults d) (d_error d)
      (d_architectureExists d) (d_processingMessage d) (d_designDocument d)
      s (d_showSavedDropdown d) (d_exportStatus d) (d_isExporting d)
  | SetError s =>
    mkDashboard (d_input d) (d_isProcessing d) (d_hasResults d) s
      (d_architectureExists d) (d_processingMessage d) (d_designDocument d)
      (d_diagramUrl d) (d_showSavedDropdown d) (d_exportStatus d)
      (d_isExporting d)
  | SetArchitectureExists a =>
    mkDashboard (d_input d) (d_isProcessing d) (d_hasResults d) (d_error d)
      a (d_processingMessage d) (d_designDocument d)
      (d_diagramUrl d) (d_showSavedDropdown d) (d_exportStatus d)
      (d_isExporting d)
  | SetProcessingMessage s =>
    mkDashboard (d_input d) (d_isProcessing d) (d_hasResults d) (d_error d)
      (d_architectureExists d) s (d_designDocument d)
      (d_diagramUrl d) (d_showSavedDropdown d) (d_exportStatus d)
      (d_isExporting d)
  | SetInput s =>
    mkDashboard s (d_isProcessing d) (d_hasResults d) (d_error d)
      (d_architectureExists d) (d_processingMessage d) (d_designDocument d)
      (d_diagramUrl d) (d_showSavedDropdown d) (d_exportStatus d)
      (d_isExporting d)
  | SetShowSavedDropdown b =>
    mkDashboard (d_input d) (d_isProcessing d) (d_hasResults d) (d_error d)
      (d_architectureExists d) (d_processingMessage d) (d_designDocument d)
      (d_diagramUrl d) b (d_exportStatus d) (d_isExporting d)
  | SetExportStatus type message =>
    mkDashboard (d_input d) (d_isProcessing d) (d_hasResults d) (d_error d)
      (d_architectureExists d) (d_processingMessage d) (d_designDocument d)
      (d_diagramUrl d) (d_showSavedDropdown d) (Some (type, message))
      (d_isExporting d)
  | SetIsExporting b =>
    mkDashboard (d_input d) (d_isProcessing d) (d_hasResults d) (d_error d)
      (d_architectureExists d) (d_processingMessage d) (d_designDocument d)
      (d_diagramUrl d) (d_showSavedDropdown d) (d_exportStatus d) b
  end.

Definition actionsOf (steps : list Step) : list Action :=
  omap (fun st => match st with Took a => Some a | _ => None end) steps.

Definition askedOf (steps : list Step) : list PageRequest :=
  omap (fun st => match st with Asked req => Some req | _ => None end) steps.

Definition openedOf (steps : list Step) : list jsstring :=
  omap (fun st => match st with Opened url => Some url | _ => None end) steps.

Definition downloadsOf (steps : list Step)
  : list (DownloadSource * jsstring) :=
  omap (fun st => match st with
                  | Took (Download source filename) => Some (source, filename)
                  | _ => None
                  end) steps.

(** The values given to [setDiagramUrl], in order. *)
Definition diagramUpdatesOf (steps : list Step) : list jsstring :=
  omap (fun st => match st with
                  | Took (SetDiagramUrl s) => Some s
                  | _ => None
                  end) steps.

(** The page after a handler has run in a world. *)
Definition after {A : Type} (w : World) (t : Task A) (d : Dashboard)
  : Dashboard :=
  foldl act d (actionsOf (perform w t).1).

(** The diagram area after the values given to [setDiagramUrl] one after
    the other; each is followed by a render and the resolution effect. *)
Definition resolveAll (API_BASE_URL : jsstring) (updates : list jsstring)
  (v : DiagramView) : option DiagramView :=
  foldl (fun ov reference => ov ≫= setDiagramUrl API_BASE_URL reference)
        (Some v) updates.

(** ** Other callbacks while a handler waits

    A handler is suspended at every [await]: while a [fetch] is pending and
    while the body of its response is read. The browser runs other callbacks
    in the meantime, and what they write reaches the page before the handler
    resumes. *)
(** The page after the steps of a handler, when [others] lists, for the
    suspensions of the handler in order, what other callbacks write while it
    waits; suspensions beyond the end of the list are quiet. *)
Fixpoint interleave (steps : list Step) (others : list (list Action))
  (d : Dashboard) : Dashboard :=
  match steps with
  | [] => d
  | Asked _ :: rest =>
    interleave rest (tail others) (foldl act d (hd [] others))
  | Took AwaitsBody :: rest =>
    interleave rest (tail others) (foldl act d (hd [] others))
  | Took a :: rest => interleave rest others (act d a)
  | Opened _ :: rest => interleave rest others d
  end.

Definition amid {A : Type} (w : World) (t : Task A)
  (others : list (list Action)) (d : Dashboard) : Dashboard :=
  interleave (perform w t).1 others d.

(** What can happen to the diagram area while a handler waits: another
    callback sets the reference, or the image that is shown fails to load
    (there is no image while the reference is empty). *)
Inductive ViewEvent : Type :=
  | SetsDiagramUrl (reference : jsstring)
  | ImageFails.

Definition viewStep (API_BASE_URL : jsstring) (ov : option DiagramView)
  (ev : ViewEvent) : option DiagramView :=
  v ← ov;
  match ev with
  | SetsDiagramUrl reference => setDiagramUrl API_BASE_URL reference v
  | ImageFails =>
    if bool_decide (diagramUrl v = []) then Some v
    else Some (loadFails API_BASE_URL v)
  end.

(** The diagram area after the steps of a handler, when [meanwhile] lists
    what happens to it at each suspension of the handler. No handler sets
    the reference twice without a suspension in between. *)
Fixpoint resolveAmid (API_BASE_URL : jsstring) (steps : list Step)
  (meanwhile : list (list ViewEvent)) (ov : option DiagramView)
  : option DiagramView :=
  match steps with
  | [] => ov
  | Asked _ :: rest =>
    resolveAmid API_BASE_URL rest (tail meanwhile)
      (foldl (viewStep API_BASE_URL) ov (hd [] meanwhile))
  | Took AwaitsBody :: rest =>
    resolveAmid API_BASE_URL rest (tail meanwhile)
      (foldl (viewStep API_BASE_URL) ov (hd [] meanwhile))
  | Took (SetDiagramUrl reference) :: rest =>
    resolveAmid API_BASE_URL rest meanwhile
      (ov ≫= setDiagramUrl API_BASE_URL reference)
  | _ :: rest => resolveAmid API_BASE_URL rest meanwhile ov
  end.

Section Handlers.

Variable API_BASE_URL : jsstring.

Definition CHECK_ARCHITECTURE_EXISTS : jsstring :=
  API_BASE_URL ++ lit "/api/check-architecture-exists".

Definition LOAD_ARCHITECTURE (id : jsstring) : jsstring :=
  API_BASE_URL ++ lit "/api/saved-architectures/" ++ id.

Definition checkArchitectureExists (designDoc : jsstring) : Task unit :=
  if bool_decide (designDoc = []) || bool_decide (trim designDoc = []) then
    Act (SetArchitectureExists AeNull) (Done tt)
  else
    catching
      (do* response :=
         request POST CHECK_ARCHITECTURE_EXISTS
                 [(lit "design_document", designDoc)] in
       if pr_ok response then
         do* result := pageJson response in
         Act (SetArchitectureExists
                (if j_exists result
                 then match j_architecture result with
                      | Some architecture => AeObject architecture
                      | None => AeUndefined
                      end
                 else AeFalse))
             (Done tt)
       else Act (SetArchitectureExists AeNull) (Done tt))
      (fun error =>
         Act (LogError (lit "Error checking architecture exists:") error)
        (Act (SetArchitectureExists AeNull) (Done tt))).

(** The three progress messages; each starts with an emoji. *)
Definition analyzingMessage : jsstring :=
  [0xD83D; 0xDD04] ++ lit " Analyzing your requirements...".
Definition generatingMessage : jsstring :=
  [0xD83E; 0xDDE0] ++ lit " Generating architecture design...".
Definition creatingMessage : jsstring :=
  [0xD83C; 0xDFA8] ++ lit " Creating visual diagram...".

Definition handleSubmit (input : jsstring) : Task unit :=
  Act PreventDefault
  (if bool_decide (trim input = []) then Done tt
   else
     Act (SetIsProcessing true)
    (Act (SetHasResults false)
    (Act (SetDesignDocument [])
    (Act (SetDiagramUrl [])
    (Act (SetError [])
    (Act (SetArchitectureExists AeNull)
    (Act (SetProcessingMessage analyzingMessage)
    (finally
      (catching
        (Act (SetProcessingMessage generatingMessage)
        (do* response :=
           request POST (GENERATE_ARCHITECTURE API_BASE_URL)
                   [(lit "input", input)] in
         if negb (pr_ok response) then
           do* errorData := pageJsonOrEmpty response in
           Raise (Error
             (orElse (default [] (j_detail errorData))
                     (lit "HTTP " ++ numberToString (pr_status response) ++
                      lit ": " ++ pr_statusText response)))
         else
           Act (SetProcessingMessage creatingMessage)
          (do* data := pageJson response in
           Act (SetDesignDocument
                  (orElse (default [] (j_design_document data))
                          (lit "No design document generated")))
          (Act (SetDiagramUrl (default [] (j_diagram_url data)))
          (Act (SetHasResults true)
          (Act (SetProcessingMessage [])
          (match j_design_document data with
           | Some (c :: designDoc) => checkArchitectureExists (c :: designDoc)
           | _ => Done tt
           end)))))))
        (fun error =>
           Act (LogError (lit "Error generating architecture:") error)
          (Act (SetError
                  (orElse (message error)
                          (lit "Something went wrong. Please try again.")))
          (Act (SetProcessingMessage []) (Done tt)))))
      (Act (SetIsProcessing false) (Done tt)))))))))).

(** The argument of [handleLoadArchitecture]: an id or an item of the
    list. *)
Inductive LoadArgument : Type :=
  | ById (id : jsstring)
  | Item (architecture : Architecture).

Definition truthy (field : option jsstring) : bool :=
  match field with
  | Some (_ :: _) => true
  | _ => false
  end.

Definition handleLoadArchitecture (argument : LoadArgument) : Task unit :=
  catching
    (do* architecture :=
       (match argument with
        | ById archId =>
          do* response := request GET (LOAD_ARCHITECTURE archId) [] in
          if negb (pr_ok response) then
            Raise (Error (lit "Failed to load architecture"))
          else
            do* data := pageJson response in
            Done (mkArchitecture (j_id data) (j_design_document data)
                                 (j_diagram_url data))
        | Item architecture =>
          if truthy (ar_id architecture) &&
             negb (truthy (ar_design_document architecture)) then
            do* response :=
              request GET (LOAD_ARCHITECTURE (default [] (ar_id architecture)))
                      [] in
            if negb (pr_ok response) then
              Raise (Error (lit "Failed to load architecture"))
            else
              do* data := pageJson response in
              Done (mkArchitecture (j_id data) (j_design_document data)
                                   (j_diagram_url data))
          else Done architecture
        end) in
     Act (SetDesignDocument (default [] (ar_design_document architecture)))
    (Act (SetDiagramUrl (default [] (ar_diagram_url architecture)))
    (Act (SetInput [])
    (Act (SetHasResults true)
    (Act (SetError [])
    (Act (SetShowSavedDropdown false)
    (Act (SetArchitectureExists (AeObject architecture)) (Done tt))))))))
    (fun error =>
       Act (LogError (lit "Error loading architecture:") error)
      (Act (SetError (lit "Failed to load architecture: " ++ message error))
           (Done tt))).

(** [encodeURIComponent] inside a handler: a [URIError] is thrown. *)
Definition orThrow (o : option jsstring) : Task jsstring :=
  match o with
  | Some s => Done s
  | None => Raise (Error (lit "URI malformed"))
  end.

Definition exportDiagramPNG (diagramUrl designDocument : jsstring)
  : Task unit :=
  if bool_decide (diagramUrl = []) then
    Act (SetExportStatus StatusError (lit "No diagram to export")) (Done tt)
  else
    Act (SetIsExporting true)
    (finally
      (catching
        (let filename := diagramFileName designDocument in
         do* _ :=
           (if startsWith diagramUrl (lit "https://") then
              do* response := request GET diagramUrl [] in
              if negb (pr_ok response) then
                Raise (Error (lit "Failed to fetch diagram from Azure Storage"))
              else
                Act AwaitsBody
                  (if negb (pr_blobReadable response) then
                     (* [await response.blob()] rejects; the message is the
                        engine's *)
                     Raise (Error (lit "Failed to fetch"))
                   else Act (Download (BlobOf diagramUrl) filename) (Done tt))
            else
              do* exportUrl :=
                orThrow (EXPORT_DIAGRAM API_BASE_URL diagramUrl filename) in
              Act (Download (LinkTo exportUrl) filename) (Done tt)) in
         Act (SetExportStatus StatusSuccess
                (lit "Diagram exported as " ++ filename))
             (Done tt))
        (fun error =>
           Act (LogError (lit "Error exporting diagram:") error)
          (Act (SetExportStatus StatusError (lit "Failed to export diagram"))
          (catching
            (let fullImageUrl := DIAGRAM_URL API_BASE_URL diagramUrl in
             OpenWindow fullImageUrl
               (fun newWindow =>
                  if newWindow then
                    Act (SetExportStatus StatusError
                           (lit "Image opened in new tab. Right-click to save manually."))
                        (Done tt)
                  else Raise (Error (lit "Popup blocked"))))
            (fun fallbackError =>
               Act (LogError (lit "Fallback method also failed:") fallbackError)
              (Act (SetExportStatus StatusError
                      (lit "Export failed. Right-click on the diagram and select " ++
                       [34] ++ lit "Save image as..." ++ [34]))
                   (Done tt)))))))
      (Act (SetIsExporting false) (Done tt))).

End Handlers.

(** The JSON object of a generation response that arrived with a success
    status. *)
Definition generated (w : World) (req : PageRequest) : option PageJson :=
  match answers w req with
  | PageRejected _ => None
  | PageFulfilled response =>
    if pr_ok response then
      match pr_body response with
      | PageObject data => Some data
      | _ => None
      end
    else None
  end.

(** The diagram could be fetched and read. *)
Definition fetched (w : World) (req : PageRequest) : bool :=
  match answers w req with
  | PageRejected _ => false
  | PageFulfilled response => pr_ok response && pr_blobReadable response
  end.

(** The id that [handleLoadArchitecture] fetches, if it fetches at all. *)
Definition needsFetch (argument : LoadArgument) : option jsstring :=
  match argument with
  | ById id => Some id
  | Item architecture =>
    if truthy (ar_id architecture) &&
       negb (truthy (ar_design_document architecture))
    then Some (default [] (ar_id architecture))
    else None
  end.

(** The page once an architecture has been loaded into it. *)
Definition loadedInto (d : Dashboard) (architecture : Architecture)
  : Dashboard :=
  {| d_input := []; d_isProcessing := d_isProcessing d;
     d_hasResults := true; d_error := [];
     d_architectureExists := AeObject architecture;
     d_processingMessage := d_processingMessage d;
     d_designDocument := default [] (ar_design_document architecture);
     d_diagramUrl := default [] (ar_diagram_url architecture);
     d_showSavedDropdown := false;
     d_exportStatus := d_exportStatus d;
     d_isExporting := d_isExporting d |}.

(** * What [ValidationPanel] renders *)

(** One detected component as the panel shows it. *)
Record ComponentRow : Type := mkComponentRow {
  row_component : jsstring;
  row_isValid : bool;
  row_canonical : jsstring;
  row_submodule : jsstring
}.

(** The body of [detectedComponents.map(...)]. *)
Definition componentRow (validationResults : gmap jsstring ValidationResult)
  (component : jsstring) : ComponentRow :=
  let validation := validationResults !! component in
  {| row_component := component;
     row_isValid := default false (valid <$> validation);
     row_canonical :=
       orElse (default [] (canonical <$> validation)) component;
     row_submodule :=
       orElse (default [] (submodule <$> validation)) (lit "unknown") |}.

Inductive PanelView : Type :=
  | StartTyping                        (* the hint shown for a short text *)
  | Validation
      (validating : bool)              (* "Validating..." *)
      (rows : list ComponentRow)       (* "Detected Azure Components" *)
      (shown : list Suggestion)        (* "Smart Suggestions" *)
      (summary : option (nat * nat)).  (* "n valid, m invalid" *)

Definition renderPanel (description : jsstring) (ps : PanelState)
  : PanelView :=
  if bool_decide (description = []) || (length description <? 10)%nat then
    StartTyping
  else
    Validation
      (ps_isValidating ps)
      (if (0 <? length (ps_detectedComponents ps))%nat
       then componentRow (ps_validationResults ps) <$> ps_detectedComponents ps
       else [])
      (if (0 <? length (ps_suggestions ps))%nat then ps_suggestions ps else [])
      (if (0 <? size (ps_validationResults ps))%nat
       then Some
              (length (List.filter valid (objectValues (ps_validationResults ps))),
               length (List.filter (fun r => negb (valid r))
                                   (objectValues (ps_validationResults ps))))
       else None).

(** A program that neither waits for the network nor calls the parent. *)
Inductive Silent : Prog unit -> Prop :=
  | silent_ret a : Silent (Ret a)
  | silent_throw e : Silent (Throw e)
  | silent_perform eff k :
    (∀ st, eff ≠ OnValidationChange st) → Silent k → Silent (Perform eff k).

(** A program that calls the parent at most once, as its last word. *)
Inductive PublishesOnce : Prog unit -> Prop :=
  | once_silent p : Silent p → PublishesOnce p
  | once_publish st k :
    Silent k → PublishesOnce (Perform (OnValidationChange st) k)
  | once_perform eff k :
    (∀ st, eff ≠ OnValidationChange st) → PublishesOnce k →
    PublishesOnce (Perform eff k)
  | once_await req k :
    (∀ o, PublishesOnce (k o)) → PublishesOnce (Await req k).

Definition isTimerFires (ev : PageEvent) : bool :=
  match ev with
  | TimerFires => true
  | _ => false
  end.

Definition isEdit (ev : PageEvent) : bool :=
  match ev with
  | Edit _ => true
  | _ => false
  end.


(** The invariant of the page: every waiting cycle has started and will
    publish at most once more, and a cycle is either waiting or accounted
    for. *)
Definition pageInvariant (pg : Page) : Prop :=
  (∀ c pending, inflight pg !! c = Some pending →
     (c < started pg)%nat ∧ ∀ o, PublishesOnce (pd_resume pending o)) ∧
  (length (publications pg) + size (inflight pg) ≤ started pg)%nat.

(** 1 while a debounce timer is set, 0 otherwise. *)
Definition pendingTimer (pg : Page) : nat :=
  match debounceTimer pg with
  | Some _ => 1
  | None => 0
  end.

(** ** Sample documents, worlds and pages *)

Module SamplePage.

Import Sample.


(** A document whose first heading is its third line. *)
Definition linesBefore : list jsstring := [lit "Overview of the system"; []].
Definition headingText : jsstring := lit " Payment platform  ".
Definition linesAfter : list jsstring := [lit "# Later heading"; lit "- AKS"].

Definition shopDocument : jsstring :=
  lit "# Shop" ++ [lineFeed] ++ [lineFeed] ++ lit "- AKS".

Definition generatedData : PageJson :=
  {| j_design_document := Some shopDocument;
     j_diagram_url := Some storageReference; j_detail := None;
     j_exists := false; j_architecture := None; j_id := None |}.

(** A backend that answers every request with the generated architecture,
    in a browser that opens windows. *)
Definition backend : World :=
  {| answers := fun _ =>
       PageFulfilled {| pr_status := 200; pr_statusText := lit "OK";
                        pr_body := PageObject generatedData;
                        pr_blobReadable := true |};
     opens := fun _ => true |}.

(** No network, and a browser that blocks popups. *)
Definition offline : World :=
  {| answers := fun _ => PageRejected (Error (lit "Failed to fetch"));
     opens := fun _ => false |}.

Definition submittedInput : jsstring := lit "A web shop on AKS".

(** Two cycles in flight and a debounce timer pending for a third text. *)
Definition thirdText : jsstring := lit "Use BlobStorage too".
Definition fourthText : jsstring := lit "Use KeyVaults as well".
Definition timerPending : Page :=
  step configuredBase asciiToLowerCase twoCyclesStarted (Edit thirdText).

(** References that hold an unpaired leading surrogate. *)
Definition illFormedRelative : jsstring :=
  lit "/d/" ++ [0xD800] ++ lit ".png".
Definition illFormedStorage : jsstring :=
  lit "https://store.blob.core.windows.net/d/" ++ [0xD800] ++ lit ".png".
Definition illFormedOtherHost : jsstring :=
  lit "https://example.com/d/" ++ [0xD800] ++ lit ".png".

(** The diagram area after both URLs of a relative reference failed. *)
Definition exhaustedView : DiagramView :=
  Nat.iter 2 (loadFails configuredBase)
    (default mountedView
       (setDiagramUrl configuredBase relativeReference mountedView)).

Definition savedItem : Architecture :=
  {| ar_id := Some (lit "42"); ar_design_document := Some shopDocument;
     ar_diagram_url := Some storageReference |}.

(** What loading the saved item writes, and what happens to the diagram
    area when a relative reference is set and its image fails twice. *)
Definition loadingWrites : list Action :=
  actionsOf
    (perform offline (handleLoadArchitecture configuredBase (Item savedItem))).1.
Definition failingTwice : list ViewEvent :=
  [SetsDiagramUrl relativeReference; ImageFails; ImageFails].


(** The page as [useState] initialises it. *)
Definition freshDashboard : Dashboard :=
  {| d_input := []; d_isProcessing := false; d_hasResults := false;
     d_error := []; d_architectureExists := AeNull;
     d_processingMessage := []; d_designDocument := []; d_diagramUrl := [];
     d_showSavedDropdown := false; d_exportStatus := None;
     d_isExporting := false |}.

(** A panel that has validated two components, one of them invalid. *)
Definition validatedPanel : PanelState :=
  {| ps_validationResults := validated [lit "AKS"; lit "CosmosDb"];
     ps_suggestions := [suggest "KeyVaults"]; ps_isValidating := false;
     ps_detectedComponents := [lit "AKS"; lit "CosmosDb"] |}.

End SamplePage.

(** * Properties *)

(** ** The runtime functions *)

Section Runtime.

Lemma startsWith_spec (s p : jsstring) :
  startsWith s p = true ↔ ∃ r, s = p ++ r.
Proof.
  revert s. induction p as [|c p IH]; intros s; simpl.
  - split; [intros _; by exists s | done].
  - destruct s as [|d s].
    + split; [done | intros [r Hr]; discriminate Hr].
    + rewrite andb_true_iff, N.eqb_eq, IH. split.
      * intros [-> [r ->]]. by exists r.
      * intros [r Hr]. injection Hr as -> ->. eauto.
Qed.

Lemma includes_spec (s p : jsstring) :
  includes s p = true ↔ ∃ a b, s = a ++ p ++ b.
Proof.
  induction s as [|d s IH].
  - simpl. rewrite orb_false_r, startsWith_spec. split.
    + intros [r Hr]. by exists [], r.
    + intros [a [b Hab]]. symmetry in Hab.
      apply app_eq_nil in Hab as [-> Hpb].
      apply app_eq_nil in Hpb as [-> ->]. by exists [].
  - change (includes (d :: s) p)
      with (startsWith (d :: s) p || includes s p).
    rewrite orb_true_iff, startsWith_spec, IH. split.
    + intros [[r Hr] | [a [b Hab]]].
      * by exists [], r.
      * exists (d :: a), b. by rewrite Hab.
    + intros [[|d' a] [b Hab]].
      * left. by exists b.
      * right. injection Hab as -> ->. by exists a, b.
Qed.

Lemma replaceAtEnd_app (p b : jsstring) : replaceAtEnd p (b ++ p) = b.
Proof.
  induction b as [|c b IH].
  - destruct p; simpl; try case_bool_decide; done.
  - simpl. rewrite bool_decide_eq_false_2.
    + by rewrite IH.
    + intros H. apply (f_equal length) in H. simpl in H.
      rewrite length_app in H. lia.
Qed.

Lemma percentEncode_length (cp : N) : (3 ≤ length (percentEncode cp))%nat.
Proof.
  unfold percentEncode, utf8.
  repeat case_match; simpl; lia.
Qed.

Lemma encodeURIComponent_length_aux (n : nat) :
  ∀ s e, (length s ≤ n)%nat → encodeURIComponent s = Some e →
         (length s ≤ length e)%nat.
Proof.
  induction n as [|n IH]; intros [|c rest] e Hn He; simpl in *; try lia.
  destruct (isUnescaped c).
  { destruct (encodeURIComponent rest) as [e'|] eqn:Hrest; simplify_eq/=.
    specialize (IH rest e' ltac:(lia) Hrest). lia. }
  destruct (isLeadingSurrogate c).
  { destruct rest as [|d rest']; [done|].
    destruct (isTrailingSurrogate d); [|done].
    destruct (encodeURIComponent rest') as [e'|] eqn:Hrest; simplify_eq/=.
    specialize (IH rest' e' ltac:(simpl in Hn; lia) Hrest).
    rewrite length_app.
    pose proof (percentEncode_length (surrogatePairToCodePoint c d)). lia. }
  destruct (isTrailingSurrogate c); [done|].
  destruct (encodeURIComponent rest) as [e'|] eqn:Hrest; simplify_eq/=.
  specialize (IH rest e' ltac:(lia) Hrest).
  rewrite length_app. pose proof (percentEncode_length c). lia.
Qed.

(** The encoded text is never shorter than the text. *)
Lemma encodeURIComponent_length (s e : jsstring) :
  encodeURIComponent s = Some e → (length s ≤ length e)%nat.
Proof. by apply (encodeURIComponent_length_aux (length s)). Qed.

Lemma encodeURIComponent_wellFormed_aux (n : nat) :
  ∀ s, (length s ≤ n)%nat →
       isWellFormed s = true ↔ is_Some (encodeURIComponent s).
Proof.
  induction n as [|n IH]; intros [|c rest] Hn; simpl in *; try lia;
    try (split; [eauto | done]).
  destruct (isUnescaped c) eqn:Hu.
  { assert (isLeadingSurrogate c = false ∧ isTrailingSurrogate c = false)
      as [-> ->].
    { unfold isUnescaped, isLeadingSurrogate, isTrailingSurrogate, inRange in *.
      simpl in Hu. split; apply andb_false_iff;
        rewrite !orb_true_iff, ?andb_true_iff, ?N.leb_le, ?N.eqb_eq in Hu;
        rewrite !N.leb_gt; lia. }
    simpl. rewrite fmap_is_Some. apply IH. lia. }
  destruct (isLeadingSurrogate c).
  { destruct rest as [|d rest']; [split; [done | by intros [? ?]]|].
    destruct (isTrailingSurrogate d); simpl.
    - rewrite fmap_is_Some. apply IH. simpl in Hn. lia.
    - split; [done | by intros [? ?]]. }
  destruct (isTrailingSurrogate c); simpl.
  - split; [done | by intros [? ?]].
  - rewrite fmap_is_Some. apply IH. lia.
Qed.

(** [encodeURIComponent] throws exactly on the strings that are not
    well-formed UTF-16. *)
Lemma encodeURIComponent_wellFormed (s : jsstring) :
  isWellFormed s = true ↔ is_Some (encodeURIComponent s).
Proof. by apply (encodeURIComponent_wellFormed_aux (length s)). Qed.

End Runtime.

(* From here on literals stay folded while the proofs simplify. *)
Opaque lit numberToString.

(** ** Artifact resolver *)

Section ResolverProperties.

Variable API_BASE_URL : jsstring.

Local Abbreviation backend := (backendUrl API_BASE_URL).
Local Abbreviation proxyPrefix := (lit "/api/proxy/diagram?url=").

(** Stripping the suffix gives back the configured base URL. *)
Lemma backendUrl_eq : backend = API_BASE_URL.
Proof. apply replaceAtEnd_app. Qed.

Lemma firstResolvedUrl_relative (reference : jsstring) :
  reference ≠ [] → isAzureStorageUrl reference = false →
  firstResolvedUrl API_BASE_URL reference = Some (backend ++ reference).
Proof.
  intros Hne Hcls. unfold firstResolvedUrl, setDiagramUrl, resolveEffect.
  simpl. rewrite !(bool_decide_eq_false_2 (reference = [])) by done.
  unfold isAzureStorageUrl in Hcls. by rewrite Hcls.
Qed.

Lemma firstResolvedUrl_storage (reference encoded : jsstring) :
  isAzureStorageUrl reference = true →
  encodeURIComponent reference = Some encoded →
  firstResolvedUrl API_BASE_URL reference
  = Some (backend ++ proxyPrefix ++ encoded).
Proof.
  intros Hcls Henc. unfold firstResolvedUrl, setDiagramUrl, resolveEffect.
  assert (reference ≠ []) as Hne by (intros ->; discriminate Hcls).
  simpl. rewrite !(bool_decide_eq_false_2 (reference = [])) by done.
  unfold isAzureStorageUrl in Hcls. by rewrite Hcls, Henc.
Qed.

(** A reference never equals the proxy query built from it. *)
Lemma reference_not_proxy_query (reference encoded : jsstring) :
  encodeURIComponent reference = Some encoded →
  reference ≠ proxyPrefix ++ encoded.
Proof.
  intros Henc Heq. apply encodeURIComponent_length in Henc.
  apply (f_equal length) in Heq. rewrite length_app in Heq.
  assert (length proxyPrefix = 23%nat) as Hlen by (by vm_compute). lia.
Qed.

(** The first URL depends on the reference alone, not on what the page showed
    before. *)
Lemma setDiagramUrl_resolved (reference : jsstring) (v : DiagramView) :
  diagramUrl v ≠ reference →
  resolvedDiagramUrl <$> setDiagramUrl API_BASE_URL reference v
  = firstResolvedUrl API_BASE_URL reference.
Proof.
  intros Hnew. unfold firstResolvedUrl, setDiagramUrl, resolveEffect. simpl.
  rewrite (bool_decide_eq_false_2 (reference = diagramUrl v)) by done.
  destruct (decide (reference = [])) as [->|Hne].
  - by rewrite ?bool_decide_eq_true_2 by done.
  - rewrite !(bool_decide_eq_false_2 (reference = [])) by done.
    destruct (_ && _); simpl; [|done].
    by destruct (encodeURIComponent reference).
Qed.

(** C1: the first URL is the proxy URL of the percent-encoded reference when
    the reference is classified as an absolute storage URL, and the base URL
    followed by the reference when it is classified as a relative path; the
    base URL is the generation endpoint without its fixed suffix. *)
Theorem first_resolved_url_by_classification (reference : jsstring) :
  reference ≠ [] →
  GENERATE_ARCHITECTURE API_BASE_URL
  = backend ++ lit "/api/generate-architecture" ∧
  (isAzureStorageUrl reference = true →
   ∀ encoded, encodeURIComponent reference = Some encoded →
     firstResolvedUrl API_BASE_URL reference
     = Some (backend ++ proxyPrefix ++ encoded)) ∧
  (isAzureStorageUrl reference = false →
   firstResolvedUrl API_BASE_URL reference = Some (backend ++ reference)) ∧
  (∀ v, diagramUrl v ≠ reference →
     resolvedDiagramUrl <$> setDiagramUrl API_BASE_URL reference v
     = firstResolvedUrl API_BASE_URL reference).
Proof.
  intros Hne. split; [by rewrite backendUrl_eq|]. split; [|split].
  - intros Hcls encoded Henc. by apply firstResolvedUrl_storage.
  - intros Hcls. by apply firstResolvedUrl_relative.
  - intros v. apply setDiagramUrl_resolved.
Qed.

(** C10, as amended: the test looks for ['.blob.core.windows.net'] anywhere
    in the reference, not in its host. Every non-empty reference that fails
    the test, well-formed or not, takes the relative-path branch. A reference
    that starts with ['https://'] and contains that text somewhere takes the
    proxy branch, and is proxied exactly when [encodeURIComponent] accepts
    it, that is when it has no unpaired surrogate; otherwise the effect
    throws and no URL is resolved. *)
Theorem proxied_iff_https_and_blob_anywhere (reference : jsstring) :
  reference ≠ [] →
  (isAzureStorageUrl reference = true ↔
   (∃ r, reference = lit "https://" ++ r) ∧
   (∃ a b, reference = a ++ lit ".blob.core.windows.net" ++ b)) ∧
  (isAzureStorageUrl reference = false →
   firstResolvedUrl API_BASE_URL reference = Some (backend ++ reference)) ∧
  (isAzureStorageUrl reference = true →
   firstResolvedUrl API_BASE_URL reference
   = (fun encoded => backend ++ proxyPrefix ++ encoded) <$>
     encodeURIComponent reference) ∧
  (isWellFormed reference = true ↔ is_Some (encodeURIComponent reference)) ∧
  ((∃ encoded, encodeURIComponent reference = Some encoded ∧
      firstResolvedUrl API_BASE_URL reference
      = Some (backend ++ proxyPrefix ++ encoded)) ↔
   isAzureStorageUrl reference = true ∧ isWellFormed reference = true) ∧
  (isAzureStorageUrl reference = true → isWellFormed reference = false →
   firstResolvedUrl API_BASE_URL reference = None).
Proof.
  intros Hne.
  assert (isAzureStorageUrl reference = true →
          firstResolvedUrl API_BASE_URL reference
          = (fun encoded => backend ++ proxyPrefix ++ encoded) <$>
            encodeURIComponent reference) as Hstorage.
  { intros Hcls. destruct (encodeURIComponent reference) as [encoded|] eqn:Henc.
    - by apply firstResolvedUrl_storage.
    - unfold firstResolvedUrl, setDiagramUrl, resolveEffect. simpl.
      rewrite !(bool_decide_eq_false_2 (reference = [])) by done.
      unfold isAzureStorageUrl in Hcls. by rewrite Hcls, Henc. }
  split; [|split; [|split; [|split; [|split]]]].
  - unfold isAzureStorageUrl.
    by rewrite andb_true_iff, startsWith_spec, includes_spec.
  - by apply firstResolvedUrl_relative.
  - exact Hstorage.
  - apply encodeURIComponent_wellFormed.
  - split.
    + intros (encoded & Henc & Hfirst). split.
      * destruct (isAzureStorageUrl reference) eqn:Hcls; [done|].
        rewrite firstResolvedUrl_relative in Hfirst by done.
        injection Hfirst as Hfirst. apply app_inv_head in Hfirst.
        by apply reference_not_proxy_query in Henc.
      * apply encodeURIComponent_wellFormed. by exists encoded.
    + intros [Hcls [encoded Henc]%encodeURIComponent_wellFormed].
      exists encoded. split; [done|]. by rewrite (Hstorage Hcls), Henc.
  - intros Hcls Hill. rewrite (Hstorage Hcls).
    destruct (encodeURIComponent reference) as [encoded|] eqn:Henc; [|done].
    assert (isWellFormed reference = true) as Hwf
      by (apply encodeURIComponent_wellFormed; by exists encoded).
    by rewrite Hwf in Hill.
Qed.

Lemma setDiagramUrl_fresh (reference : jsstring) (v v0 : DiagramView) :
  reference ≠ [] → diagramUrl v ≠ reference →
  setDiagramUrl API_BASE_URL reference v = Some v0 →
  diagramUrl v0 = reference ∧ diagramTriedProxy v0 = false ∧
  issued v0 = [resolvedDiagramUrl v0].
Proof.
  intros Hne Hnew. unfold setDiagramUrl, resolveEffect. simpl.
  rewrite (bool_decide_eq_false_2 (reference = diagramUrl v)) by done.
  rewrite !(bool_decide_eq_false_2 (reference = [])) by done.
  destruct (_ && _).
  - destruct (encodeURIComponent reference); intros; by simplify_eq/=.
  - intros; by simplify_eq/=.
Qed.

Lemma setDiagramUrl_succeeds (reference : jsstring) (v : DiagramView) :
  isWellFormed reference = true →
  is_Some (setDiagramUrl API_BASE_URL reference v).
Proof.
  intros [encoded Henc]%encodeURIComponent_wellFormed.
  unfold setDiagramUrl, resolveEffect. simpl. rewrite Henc.
  repeat case_match; simpl; eauto.
Qed.

Lemma onError_first (v : DiagramView) :
  diagramTriedProxy v = false → isWellFormed (diagramUrl v) = true →
  ∃ fallbackUrl,
    onError API_BASE_URL v
    = Some {| diagramUrl := diagramUrl v; resolvedDiagramUrl := fallbackUrl;
              diagramTriedProxy := true; imgHidden := imgHidden v;
              placeholderShown := placeholderShown v;
              issued := issued v ++ [fallbackUrl] |} ∧
    fallbackUrl =
      (if startsWith (diagramUrl v) (lit "https://") then diagramUrl v
       else backend ++ proxyPrefix ++
            default [] (encodeURIComponent (diagramUrl v))).
Proof.
  intros Htried [encoded Henc]%encodeURIComponent_wellFormed.
  unfold onError, buildProxyUrl. rewrite Htried, Henc. simpl.
  destruct (startsWith _ _); simpl; eauto.
Qed.

Lemma loadFails_tried (v : DiagramView) :
  diagramTriedProxy v = true →
  loadFails API_BASE_URL v
  = {| diagramUrl := diagramUrl v; resolvedDiagramUrl := resolvedDiagramUrl v;
       diagramTriedProxy := true; imgHidden := true; placeholderShown := true;
       issued := issued v |}.
Proof. intros Htried. unfold loadFails, onError. by rewrite !Htried. Qed.

Lemma loadFails_exhausted (v : DiagramView) (n : nat) :
  diagramTriedProxy v = true →
  let v' := Nat.iter (S n) (loadFails API_BASE_URL) v in
  issued v' = issued v ∧ resolvedDiagramUrl v' = resolvedDiagramUrl v ∧
  diagramUrl v' = diagramUrl v ∧ diagramTriedProxy v' = true ∧
  imgHidden v' = true ∧ placeholderShown v' = true.
Proof.
  intros Htried. induction n as [|n IH]; simpl in *.
  - rewrite (loadFails_tried v Htried). simpl. auto 10.
  - destruct IH as (Hi & Hr & Hd & Ht & Hh & Hp).
    rewrite (loadFails_tried _ Ht). simpl. auto 10.
Qed.

(** Where the fallback does change the URL: for storage URLs, for
    references that do not start with ['https://'], and whenever the base
    URL is not empty. *)
Lemma fallback_differs_from_failed_url (reference : jsstring)
  (v v0 : DiagramView) :
  reference ≠ [] → isWellFormed reference = true →
  diagramUrl v ≠ reference →
  setDiagramUrl API_BASE_URL reference v = Some v0 →
  isAzureStorageUrl reference = true ∨
  startsWith reference (lit "https://") = false ∨ API_BASE_URL ≠ [] →
  resolvedDiagramUrl (loadFails API_BASE_URL v0) ≠ resolvedDiagramUrl v0.
Proof.
  intros Hne Hwf Hnew Hv0 Hcase.
  destruct (setDiagramUrl_fresh reference v v0 Hne Hnew Hv0) as (Hd & Ht & _).
  destruct (onError_first v0 Ht) as (fallbackUrl & Herr & Hfb);
    [by rewrite Hd|].
  unfold loadFails. rewrite Herr. simpl. rewrite Hd in Hfb.
  pose proof Hwf as [encoded Henc]%encodeURIComponent_wellFormed.
  pose proof (encodeURIComponent_length _ _ Henc) as Hlen.
  assert (length proxyPrefix = 23%nat) as Hprefix by (by vm_compute).
  assert (resolvedDiagramUrl v0 =
          if isAzureStorageUrl reference
          then backend ++ proxyPrefix ++ encoded else backend ++ reference)
    as Hfirst.
  { revert Hv0. unfold setDiagramUrl, resolveEffect. simpl.
    rewrite (bool_decide_eq_false_2 (reference = diagramUrl v)) by done.
    rewrite !(bool_decide_eq_false_2 (reference = [])) by done.
    unfold isAzureStorageUrl. rewrite Henc.
    destruct (_ && _); by intros [= <-]. }
  rewrite Hfirst, Hfb, Henc. simpl. clear Hfirst Hfb Herr.
  destruct (isAzureStorageUrl reference) eqn:Hcls.
  - assert (startsWith reference (lit "https://") = true) as ->.
    { unfold isAzureStorageUrl in Hcls. by apply andb_true_iff in Hcls as [? _]. }
    intros Heq. apply (f_equal length) in Heq.
    rewrite !length_app in Heq. lia.
  - destruct (startsWith reference (lit "https://")) eqn:Hhttps.
    + destruct Hcase as [?|[?|Hbase]]; [done..|].
      rewrite backendUrl_eq. intros Heq. apply (f_equal length) in Heq.
      rewrite length_app in Heq. destruct API_BASE_URL; [done|simpl in Heq; lia].
    + intros Heq. apply app_inv_head in Heq.
      by apply reference_not_proxy_query in Henc.
Qed.

Lemma setDiagramUrl_unencoded (reference : jsstring) (v : DiagramView) :
  isAzureStorageUrl reference = false →
  is_Some (setDiagramUrl API_BASE_URL reference v).
Proof.
  unfold setDiagramUrl, resolveEffect, isAzureStorageUrl. simpl. intros ->.
  repeat case_match; simpl; eauto.
Qed.

Lemma onError_direct (v : DiagramView) :
  diagramTriedProxy v = false →
  startsWith (diagramUrl v) (lit "https://") = true →
  onError API_BASE_URL v
  = Some {| diagramUrl := diagramUrl v; resolvedDiagramUrl := diagramUrl v;
            diagramTriedProxy := true; imgHidden := imgHidden v;
            placeholderShown := placeholderShown v;
            issued := issued v ++ [diagramUrl v] |}.
Proof. intros Htried Hhttps. unfold onError. by rewrite Htried, Hhttps. Qed.

(** The handler throws when it has to encode a reference that holds an
    unpaired surrogate. *)
Lemma onError_throws (v : DiagramView) :
  diagramTriedProxy v = false →
  startsWith (diagramUrl v) (lit "https://") = false →
  isWellFormed (diagramUrl v) = false →
  onError API_BASE_URL v = None.
Proof.
  intros Htried Hhttps Hill. unfold onError, buildProxyUrl.
  rewrite Htried, Hhttps. simpl.
  destruct (encodeURIComponent (diagramUrl v)) as [encoded|] eqn:Henc; [|done].
  assert (isWellFormed (diagramUrl v) = true) as Hwf
    by (apply encodeURIComponent_wellFormed; by exists encoded).
  by rewrite Hwf in Hill.
Qed.

Lemma loadFails_throwing (v : DiagramView) (n : nat) :
  onError API_BASE_URL v = None → Nat.iter n (loadFails API_BASE_URL) v = v.
Proof.
  intros Hthrows. induction n as [|n IH]; [done|]. simpl. rewrite IH.
  unfold loadFails. by rewrite Hthrows.
Qed.

Lemma second_failure (v0 : DiagramView) (fallbackUrl : jsstring) (n : nat) :
  issued v0 = [resolvedDiagramUrl v0] →
  onError API_BASE_URL v0
  = Some {| diagramUrl := diagramUrl v0; resolvedDiagramUrl := fallbackUrl;
            diagramTriedProxy := true; imgHidden := imgHidden v0;
            placeholderShown := placeholderShown v0;
            issued := issued v0 ++ [fallbackUrl] |} →
  issued (loadFails API_BASE_URL v0) = [resolvedDiagramUrl v0; fallbackUrl] ∧
  let v2 := Nat.iter (2 + n) (loadFails API_BASE_URL) v0 in
  issued v2 = [resolvedDiagramUrl v0; fallbackUrl] ∧
  resolvedDiagramUrl v2 = fallbackUrl ∧
  exhausted v2 = true ∧ imgHidden v2 = true ∧ placeholderShown v2 = true.
Proof.
  intros Hi Herr.
  assert (loadFails API_BASE_URL v0
          = {| diagramUrl := diagramUrl v0; resolvedDiagramUrl := fallbackUrl;
               diagramTriedProxy := true; imgHidden := imgHidden v0;
               placeholderShown := placeholderShown v0;
               issued := issued v0 ++ [fallbackUrl] |}) as Hv1.
  { unfold loadFails. by rewrite Herr. }
  split; [by rewrite Hv1, Hi|].
  intros v2. subst v2.
  replace (2 + n)%nat with (S n + 1)%nat by lia.
  rewrite Nat.iter_add.
  change (Nat.iter 1 (loadFails API_BASE_URL) v0)
    with (loadFails API_BASE_URL v0).
  rewrite Hv1.
  match goal with |- context [Nat.iter (S n) _ ?w] =>
    pose proof (loadFails_exhausted w n eq_refl) as Hex
  end.
  cbv zeta in Hex. destruct Hex as (Hi2 & Hr2 & _ & Ht2 & Hh2 & Hp2).
  unfold exhausted. rewrite Hi2, Hr2, Ht2, Hh2, Hp2. simpl. by rewrite Hi.
Qed.

(** C6, as amended: when the fallback URL can be built, because the
    reference starts with ['https://'] or holds no unpaired surrogate, no
    third URL is issued after the second failure, whatever the number of
    further failures: the reference is exhausted, the image is hidden and
    the placeholder next to it is shown. For a reference that does not start
    with ['https://'] and holds an unpaired surrogate the handler throws at
    every failure: no fallback is issued and the reference is never
    exhausted. For a storage URL with an unpaired surrogate the effect
    itself throws and no URL is issued at all. *)
Theorem second_failure_exhausts (reference : jsstring) (v : DiagramView) :
  reference ≠ [] → diagramUrl v ≠ reference →
  (isWellFormed reference = true ∨
   (startsWith reference (lit "https://") = true ∧
    isAzureStorageUrl reference = false) →
   ∃ v0 fallbackUrl,
     setDiagramUrl API_BASE_URL reference v = Some v0 ∧
     issued (loadFails API_BASE_URL v0) = [resolvedDiagramUrl v0; fallbackUrl] ∧
     ∀ n, let v2 := Nat.iter (2 + n) (loadFails API_BASE_URL) v0 in
       issued v2 = [resolvedDiagramUrl v0; fallbackUrl] ∧
       resolvedDiagramUrl v2 = fallbackUrl ∧
       exhausted v2 = true ∧ imgHidden v2 = true ∧ placeholderShown v2 = true ∧
       placeholderText true = lit "Diagram not available or failed to load") ∧
  (isWellFormed reference = false →
   startsWith reference (lit "https://") = false →
   ∃ v0,
     setDiagramUrl API_BASE_URL reference v = Some v0 ∧
     onError API_BASE_URL v0 = None ∧
     ∀ n, let vn := Nat.iter n (loadFails API_BASE_URL) v0 in
       vn = v0 ∧ issued vn = [resolvedDiagramUrl v0] ∧
       diagramTriedProxy vn = false ∧ exhausted vn = false ∧
       (diagramUrl v = [] →
        imgHidden vn = false ∧ placeholderShown vn = false)) ∧
  (isWellFormed reference = false → isAzureStorageUrl reference = true →
   setDiagramUrl API_BASE_URL reference v = None).
Proof.
  intros Hne Hnew. split; [|split].
  - intros Hcase.
    assert (is_Some (setDiagramUrl API_BASE_URL reference v)) as [v0 Hv0].
    { destruct Hcase as [Hwf|[_ Hcls]];
        [by apply setDiagramUrl_succeeds | by apply setDiagramUrl_unencoded]. }
    destruct (setDiagramUrl_fresh reference v v0 Hne Hnew Hv0) as (Hd & Ht & Hi).
    assert (∃ fallbackUrl,
              onError API_BASE_URL v0
              = Some {| diagramUrl := diagramUrl v0;
                        resolvedDiagramUrl := fallbackUrl;
                        diagramTriedProxy := true; imgHidden := imgHidden v0;
                        placeholderShown := placeholderShown v0;
                        issued := issued v0 ++ [fallbackUrl] |})
      as [fallbackUrl Herr].
    { destruct Hcase as [Hwf|[Hhttps _]].
      - destruct (onError_first v0 Ht) as (fallbackUrl & Herr & _);
          [by rewrite Hd | by exists fallbackUrl].
      - exists (diagramUrl v0). apply onError_direct; [done | by rewrite Hd]. }
    exists v0, fallbackUrl. split; [done|].
    split; [by destruct (second_failure v0 fallbackUrl 0 Hi Herr)|].
    intros n. destruct (second_failure v0 fallbackUrl n Hi Herr) as [_ Hlater].
    cbv zeta in *. destruct Hlater as (? & ? & ? & ? & ?). auto 10.
  - intros Hill Hhttps.
    assert (isAzureStorageUrl reference = false) as Hcls
      by (unfold isAzureStorageUrl; by rewrite Hhttps).
    destruct (setDiagramUrl_unencoded reference v Hcls) as [v0 Hv0].
    destruct (setDiagramUrl_fresh reference v v0 Hne Hnew Hv0) as (Hd & Ht & Hi).
    assert (onError API_BASE_URL v0 = None) as Hthrows
      by (apply onError_throws; by rewrite ?Hd).
    exists v0. split; [done|]. split; [done|].
    intros n vn. subst vn. rewrite (loadFails_throwing v0 n Hthrows).
    split; [done|]. split; [done|]. split; [done|].
    split; [unfold exhausted; by rewrite Ht|].
    intros Hempty. revert Hv0. unfold setDiagramUrl, resolveEffect. simpl.
    rewrite (bool_decide_eq_false_2 (reference = diagramUrl v)) by done.
    rewrite !(bool_decide_eq_false_2 (reference = [])) by done.
    rewrite (bool_decide_eq_true_2 (diagramUrl v = [])) by done.
    unfold isAzureStorageUrl in Hcls. rewrite Hcls. simpl.
    by intros [= <-].
  - intros Hill Hcls. unfold setDiagramUrl, resolveEffect. simpl.
    rewrite (bool_decide_eq_false_2 (reference = diagramUrl v)) by done.
    rewrite !(bool_decide_eq_false_2 (reference = [])) by done.
    unfold isAzureStorageUrl in Hcls. rewrite Hcls.
    destruct (encodeURIComponent reference) as [encoded|] eqn:Henc; [|done].
    assert (isWellFormed reference = true) as Hwf
      by (apply encodeURIComponent_wellFormed; by exists encoded).
    by rewrite Hwf in Hill.
Qed.

End ResolverProperties.

(** ** Asynchronous programs *)

Section RunLemmas.

Context {A B : Type} (net : Request -> FetchOutcome).

Lemma run_bind (p : Prog A) (f : A -> Prog B) :
  run net (bind p f)
  = match (run net p).2 with
    | inl a => ((run net p).1 ++ (run net (f a)).1, (run net (f a)).2)
    | inr e => ((run net p).1, inr e)
    end.
Proof.
  induction p as [a|e|eff k IH|req k IH]; simpl.
  - by destruct (run net (f a)).
  - done.
  - rewrite IH. by destruct (run net k).2.
  - rewrite IH. by destruct (run net (k (net req))).2.
Qed.

Lemma run_tryCatch (p : Prog A) (handler : Exn -> Prog A) :
  run net (tryCatch p handler)
  = match (run net p).2 with
    | inl a => ((run net p).1, inl a)
    | inr e => ((run net p).1 ++ (run net (handler e)).1,
                (run net (handler e)).2)
    end.
Proof.
  induction p as [a|e|eff k IH|req k IH]; simpl.
  - done.
  - by destruct (run net (handler e)).
  - rewrite IH. by destruct (run net k).2.
  - rewrite IH. by destruct (run net (k (net req))).2.
Qed.

End RunLemmas.

Lemma run_tryFinally {A : Type} (net : Request -> FetchOutcome)
  (p : Prog A) (fin : Prog unit) :
  run net (tryFinally p fin)
  = match (run net fin).2 with
    | inl _ => ((run net p).1 ++ (run net fin).1, (run net p).2)
    | inr e => ((run net p).1 ++ (run net fin).1, inr e)
    end.
Proof.
  induction p as [a|e|eff k IH|req k IH]; simpl.
  - rewrite run_bind. destruct (run net fin).2; simpl; by rewrite ?app_nil_r.
  - rewrite run_bind. destruct (run net fin).2; simpl; by rewrite ?app_nil_r.
  - rewrite IH. by destruct (run net fin).2.
  - rewrite IH. by destruct (run net fin).2.
Qed.

(** ** Validation service and validation panel *)

Section ValidationProperties.

Variable API_BASE_URL : jsstring.
Variable toLowerCase : jsstring -> jsstring.
Variable net : Request -> FetchOutcome.

Local Abbreviation detect := (detectComponents toLowerCase).
Local Abbreviation vreq := (validationRequest API_BASE_URL toLowerCase).
Local Abbreviation sreq := (suggestionRequest API_BASE_URL).
Local Abbreviation cycle := (validateDescription API_BASE_URL toLowerCase).

Lemma callFailed_no_data (o : FetchOutcome) :
  callFailed o = true → dataOf o = None.
Proof.
  destruct o as [reason|response]; [done|]. simpl.
  by intros ->%negb_true_iff.
Qed.

(** [validateAzureComponents] sends one request, never throws, and returns
    what the response contributes; a failure is logged. *)
Lemma validateAzureComponents_run (componentNames : list jsstring) :
  let req := mkRequest (VALIDATE_COMPONENTS API_BASE_URL)
                       (ComponentNames componentNames) in
  ∃ caught validation,
    run net (validateAzureComponents API_BASE_URL componentNames)
    = (Fetched req :: consoleLine (lit "Component validation error:") caught,
       inl validation) ∧
    av_validationResults validation = validationContribution (net req) ∧
    (callFailed (net req) = true → is_Some caught).
Proof.
  unfold validateAzureComponents, fetch, validationContribution. simpl.
  destruct (net _) as [reason|[st bd]]; simpl.
  { exists (Some reason). eauto. }
  unfold ok, json. simpl. destruct (inRange 200 299 st); simpl.
  - destruct bd; simpl.
    + eexists (Some _), _. eauto.
    + eexists (Some _), _. eauto.
    + exists None. eexists. split; [done|]. by split.
  - eexists (Some _), _. eauto.
Qed.

Lemma getArchitectureSuggestions_run (description : jsstring) :
  let req := mkRequest (SUGGEST_ARCHITECTURE API_BASE_URL)
                       (Description description defaultArchitectureTypes) in
  ∃ caught archSuggestions,
    run net (getArchitectureSuggestions API_BASE_URL description None)
    = (Fetched req :: consoleLine (lit "Architecture suggestion error:") caught,
       inl archSuggestions) ∧
    as_suggestions archSuggestions = suggestionContribution (net req) ∧
    (callFailed (net req) = true → is_Some caught).
Proof.
  unfold getArchitectureSuggestions, fetch, suggestionContribution. simpl.
  destruct (net _) as [reason|[st bd]]; simpl.
  { exists (Some reason). eauto. }
  unfold ok, json. simpl. destruct (inRange 200 299 st); simpl.
  - destruct bd; simpl.
    + eexists (Some _), _. eauto.
    + eexists (Some _), _. eauto.
    + exists None. eexists. split; [done|]. by split.
  - eexists (Some _), _. eauto.
Qed.

(** With no detected component [validateTextComponents] returns an empty
    result and sends nothing; otherwise it sends the whole list once. *)
Lemma validateTextComponents_run (text : jsstring) :
  ∃ caught componentValidation,
    run net (validateTextComponents API_BASE_URL toLowerCase text)
    = (match detect text with
       | [] => []
       | _ :: _ =>
         Fetched (vreq text) ::
         consoleLine (lit "Component validation error:") caught
       end, inl componentValidation) ∧
    tv_validationResults componentValidation
    = cycleResults API_BASE_URL toLowerCase net text ∧
    tv_detectedComponents componentValidation = detect text ∧
    (callFailed (net (vreq text)) = true → is_Some caught).
Proof.
  unfold validateTextComponents, cycleResults.
  destruct (detect text) as [|keyword detected] eqn:Hdetect.
  - simpl. exists (Some (Error [])). eexists. split; [done|]. eauto.
  - cbn [length Nat.eqb]. rewrite run_bind.
    destruct (validateAzureComponents_run (keyword :: detected))
      as (caught & validation & Hrun & Hres & Hfail).
    cbv zeta in Hrun, Hres, Hfail.
    rewrite Hrun. cbn [run fst snd]. exists caught. eexists.
    unfold validationRequest. rewrite Hdetect, app_nil_r.
    split; [done|]. cbn [tv_validationResults tv_detectedComponents]. eauto.
Qed.

(** A cycle on a text of at least 10 characters, event by event. *)
Lemma validateDescription_run (text : jsstring) (onValidationChange : bool) :
  (10 ≤ length text)%nat →
  ∃ caughtV caughtS,
    run net (cycle text onValidationChange)
    = (Did (SetIsValidating true) ::
       match detect text with
       | [] => []
       | _ :: _ =>
         Fetched (vreq text) ::
         consoleLine (lit "Component validation error:") caughtV
       end ++
       Did (SetValidationResults
              (cycleResults API_BASE_URL toLowerCase net text)) ::
       Did (SetDetectedComponents (detect text)) ::
       Fetched (sreq text) ::
       consoleLine (lit "Architecture suggestion error:") caughtS ++
       Did (SetSuggestions
              (take 5 (suggestionContribution (net (sreq text))))) ::
       (if onValidationChange
        then [Did (OnValidationChange
                     (cycleState API_BASE_URL toLowerCase net text))]
        else []) ++
       [Did (SetIsValidating false)],
       inl tt) ∧
    (callFailed (net (vreq text)) = true → is_Some caughtV) ∧
    (callFailed (net (sreq text)) = true → is_Some caughtS).
Proof.
  intros Hlen. unfold validateDescription.
  assert (text ≠ []) as Hne by (intros ->; simpl in Hlen; lia).
  rewrite bool_decide_eq_false_2 by done.
  replace (length text <? 10)%nat with false
    by (symmetry; apply Nat.ltb_ge; lia).
  destruct (validateTextComponents_run text)
    as (caughtV & componentValidation & HrunV & Hres & Hdet & HfailV).
  destruct (getArchitectureSuggestions_run text)
    as (caughtS & archSuggestions & HrunS & Hsug & HfailS).
  exists caughtV, caughtS. split; [|done].
  cbn [orb run fst snd].
  rewrite run_tryFinally, run_tryCatch, run_bind, HrunV.
  cbn [run fst snd].
  rewrite run_bind, HrunS. cbn [run fst snd].
  rewrite Hres, Hdet, Hsug. unfold cycleState, suggestionRequest.
  destruct onValidationChange; cbn [run fst snd];
    repeat first [rewrite <- app_assoc | rewrite <- app_comm_cons];
    by rewrite ?app_nil_r.
Qed.

(** What can be observed of a cycle on a text of at least 10 characters. *)
Lemma validateDescription_observed (text : jsstring) (onValidationChange : bool) :
  (10 ≤ length text)%nat →
  ∃ tr,
    run net (cycle text onValidationChange) = (tr, inl tt) ∧
    requestsOf tr = cycleRequests API_BASE_URL toLowerCase text ∧
    publishedOf tr
    = (if onValidationChange
       then [cycleState API_BASE_URL toLowerCase net text] else []) ∧
    displayedSuggestionsOf tr
    = [take 5 (suggestionContribution (net (sreq text)))] ∧
    (detect text ≠ [] → callFailed (net (vreq text)) = true →
     In (lit "Component validation error:") (consoleOf tr)) ∧
    (callFailed (net (sreq text)) = true →
     In (lit "Architecture suggestion error:") (consoleOf tr)).
Proof.
  intros Hlen.
  destruct (validateDescription_run text onValidationChange Hlen)
    as (caughtV & caughtS & Hrun & HfailV & HfailS).
  eexists. split; [exact Hrun|]. unfold cycleRequests.
  split; [|split; [|split; [|split]]].
  - by destruct (detect text), caughtV, caughtS, onValidationChange.
  - by destruct (detect text), caughtV, caughtS, onValidationChange.
  - by destruct (detect text), caughtV, caughtS, onValidationChange.
  - intros Hdetected [e ->]%HfailV.
    destruct (detect text); [done|]. simpl. by left.
  - intros [e ->]%HfailS.
    destruct (detect text), caughtV; simpl; auto.
Qed.

Lemma validateDescription_short (text : jsstring) (onValidationChange : bool) :
  (length text < 10)%nat → cycle text onValidationChange = Ret tt.
Proof.
  intros Hlen. unfold validateDescription.
  replace (length text <? 10)%nat with true
    by (symmetry; by apply Nat.ltb_lt).
  by rewrite orb_true_r.
Qed.

Lemma hasErrorsOf_spec (validationResults : gmap jsstring ValidationResult) :
  hasErrorsOf validationResults = true ↔
  ∃ name r, validationResults !! name = Some r ∧ valid r = false.
Proof.
  unfold hasErrorsOf, objectValues. rewrite existsb_exists. split.
  - intros (r & Hin & Hvalid).
    apply list_elem_of_In, list_elem_of_fmap in Hin as ([name r'] & -> & Hin).
    apply elem_of_map_to_list in Hin. exists name, r'.
    split; [done | by apply negb_true_iff].
  - intros (name & r & Hlookup & Hvalid). exists r.
    split; [|by rewrite Hvalid].
    apply list_elem_of_In, list_elem_of_fmap. exists (name, r).
    split; [done | by apply elem_of_map_to_list].
Qed.

(** A cycle returns normally whatever the text and the network do. *)
Lemma validateDescription_never_throws (text : jsstring)
  (onValidationChange : bool) :
  (run net (cycle text onValidationChange)).2 = inl tt.
Proof.
  destruct (Nat.lt_ge_cases (length text) 10) as [Hshort|Hlong].
  - by rewrite validateDescription_short.
  - destruct (validateDescription_run text onValidationChange Hlong)
      as (caughtV & caughtS & Hrun & _).
    by rewrite Hrun.
Qed.

(** C9: a text shorter than 10 characters sends neither request; when the
    debounce timer fires for it the page stays as it is. *)
Theorem short_text_stays_idle (text : jsstring) (onValidationChange : bool)
  (pg : Page) :
  (length text < 10)%nat →
  run net (cycle text onValidationChange) = ([], inl tt) ∧
  (debounceTimer pg = Some text →
   let pg' := step API_BASE_URL toLowerCase pg TimerFires in
   sent pg' = sent pg ∧ inflight pg' = inflight pg ∧
   publications pg' = publications pg ∧
   validationState pg' = validationState pg ∧ panel pg' = panel pg ∧
   debounceTimer pg' = None).
Proof.
  intros Hlen. split.
  - by rewrite validateDescription_short.
  - intros Htimer. simpl. rewrite Htimer.
    by rewrite validateDescription_short.
Qed.

(** C5: in every published state [hasErrors] is the disjunction of [!valid]
    over the entries of the [validationResults] published with it. *)
Theorem hasErrors_is_some_invalid (text : jsstring) (onValidationChange : bool)
  (st : ValidationState) :
  In st (publishedOf (run net (cycle text onValidationChange)).1) →
  vs_hasErrors st
  = existsb (fun r => negb (valid r)) (objectValues (vs_validationResults st)) ∧
  (vs_hasErrors st = true ↔
   ∃ name r, vs_validationResults st !! name = Some r ∧ valid r = false) ∧
  (vs_validationResults st = ∅ → vs_hasErrors st = false).
Proof.
  intros Hin.
  assert (vs_hasErrors st = hasErrorsOf (vs_validationResults st)) as Hst.
  { destruct (Nat.lt_ge_cases (length text) 10) as [Hshort|Hlong].
    - by rewrite validateDescription_short in Hin.
    - destruct (validateDescription_observed text onValidationChange Hlong)
        as (tr & Hrun & _ & Hpub & _).
      rewrite Hrun in Hin. simpl in Hin. rewrite Hpub in Hin.
      destruct onValidationChange; [|done].
      by destruct Hin as [<-|[]]. }
  split; [done|]. split.
  - rewrite Hst. apply hasErrorsOf_spec.
  - intros Hempty. rewrite Hst, Hempty. done.
Qed.

(** C4, as amended: the list is truncated to 5 entries only for the panel's
    own display; the published state carries the whole list the suggestion
    call returned. *)
Theorem published_suggestions_are_whole_list (text : jsstring) :
  (10 ≤ length text)%nat →
  let returned := suggestionContribution (net (sreq text)) in
  ∃ tr,
    run net (cycle text true) = (tr, inl tt) ∧
    vs_suggestions <$> publishedOf tr = [returned] ∧
    displayedSuggestionsOf tr = [take 5 returned] ∧
    (length (take 5 returned) ≤ 5)%nat.
Proof.
  intros Hlen returned.
  destruct (validateDescription_observed text true Hlen)
    as (tr & Hrun & _ & Hpub & Hshown & _).
  exists tr. rewrite Hpub, Hshown. repeat split; [done|].
  rewrite length_take. lia.
Qed.

(** C8: a cycle never throws; each call contributes on its own account, a
    failed call contributes the empty value and leaves a console line, and
    the other call's contribution is published all the same. *)
Theorem call_failures_degrade_independently (text : jsstring) :
  (10 ≤ length text)%nat →
  ∃ tr st,
    run net (cycle text true) = (tr, inl tt) ∧
    publishedOf tr = [st] ∧
    vs_validationResults st
    = (match detect text with
       | [] => ∅
       | _ :: _ => validationContribution (net (vreq text))
       end) ∧
    vs_suggestions st = suggestionContribution (net (sreq text)) ∧
    (detect text ≠ [] → callFailed (net (vreq text)) = true →
     vs_validationResults st = ∅ ∧
     In (lit "Component validation error:") (consoleOf tr)) ∧
    (callFailed (net (sreq text)) = true →
     vs_suggestions st = [] ∧
     In (lit "Architecture suggestion error:") (consoleOf tr)).
Proof.
  intros Hlen.
  destruct (validateDescription_observed text true Hlen)
    as (tr & Hrun & _ & Hpub & _ & HlogV & HlogS).
  exists tr, (cycleState API_BASE_URL toLowerCase net text).
  split; [done|]. split; [done|]. split; [done|]. split; [done|]. split.
  - intros Hdetected Hfail. split; [|by apply HlogV].
    simpl. unfold cycleResults, validationContribution.
    rewrite (callFailed_no_data _ Hfail). by destruct (detect text).
  - intros Hfail. split; [|by apply HlogS].
    simpl. unfold suggestionContribution.
    by rewrite (callFailed_no_data _ Hfail).
Qed.

Lemma azureKeywords_NoDup : NoDup azureKeywords.
Proof. apply (bool_decide_unpack _). by vm_compute. Qed.

Lemma azureKeywords_ascii (keyword : jsstring) :
  In keyword azureKeywords → isAscii keyword = true.
Proof.
  unfold azureKeywords. simpl.
  intros H. repeat (destruct H as [<-|H]; [by vm_compute|]). done.
Qed.

(** C7: detection keeps exactly the dictionary tokens that occur in the text
    when case is ignored; a non-empty detection is sent once as one batch, an
    empty one returns the empty result without a request; and the scenario
    of the specification. *)
Theorem detection_is_dictionary_filter_and_one_batch (text : jsstring) :
  (∀ s, isAscii s = true → toLowerCase s = List.map asciiLowerUnit s) →
  (∀ keyword,
     In keyword (detect text) ↔
     In keyword azureKeywords ∧ occursIgnoringCase toLowerCase keyword text) ∧
  NoDup (detect text) ∧
  (detect text ≠ [] →
   requestsOf (run net (validateTextComponents API_BASE_URL toLowerCase text)).1
   = [mkRequest (VALIDATE_COMPONENTS API_BASE_URL)
                (ComponentNames (detect text))]) ∧
  (detect text = [] →
   run net (validateTextComponents API_BASE_URL toLowerCase text)
   = ([], inl {| tv_success := true; tv_validationResults := ∅;
                 tv_error := None; tv_detectedComponents := [] |})) ∧
  (let scenario := lit "Use AppServices and CosmosDb with CacheForRedis" in
   detect scenario = [lit "AppServices"; lit "CosmosDb"; lit "CacheForRedis"] ∧
   requestsOf (run net (cycle scenario true)).1
   = [mkRequest (VALIDATE_COMPONENTS API_BASE_URL)
        (ComponentNames
           [lit "AppServices"; lit "CosmosDb"; lit "CacheForRedis"]);
      mkRequest (SUGGEST_ARCHITECTURE API_BASE_URL)
        (Description scenario
           [lit "frontend"; lit "backend"; lit "database"; lit "cache"])]).
Proof.
  intros Hascii. split; [|split; [|split; [|split]]].
  - intros keyword. unfold detectComponents, occursIgnoringCase.
    rewrite filter_In, includes_spec. tauto.
  - unfold detectComponents.
    apply NoDup_ListNoDup, List.NoDup_filter, NoDup_ListNoDup, azureKeywords_NoDup.
  - intros Hdetected.
    destruct (validateTextComponents_run text)
      as (caught & componentValidation & Hrun & _).
    rewrite Hrun. simpl. unfold validationRequest.
    destruct (detect text); [done|]. by destruct caught.
  - intros Hdetected. unfold validateTextComponents. by rewrite Hdetected.
  - intros scenario.
    assert (detect scenario
            = [lit "AppServices"; lit "CosmosDb"; lit "CacheForRedis"])
      as Hscenario.
    { unfold detectComponents.
      rewrite (Hascii scenario) by (by vm_compute).
      rewrite (filter_ext_in _
        (fun keyword => includes (List.map asciiLowerUnit scenario)
                                 (List.map asciiLowerUnit keyword))).
      - by vm_compute.
      - intros keyword Hin. by rewrite (Hascii keyword (azureKeywords_ascii _ Hin)). }
    split; [done|].
    destruct (validateDescription_observed scenario true) as (tr & Hrun & Hreq & _).
    { vm_compute. lia. }
    rewrite Hrun. simpl. rewrite Hreq.
    unfold cycleRequests, validationRequest, suggestionRequest.
    by rewrite Hscenario.
Qed.

End ValidationProperties.

(** ** The debounced cycle on the page *)

Section DebounceProperties.

Variable API_BASE_URL : jsstring.
Variable toLowerCase : jsstring -> jsstring.
Variable net : Request -> FetchOutcome.

Local Abbreviation settle := (settleAll API_BASE_URL toLowerCase net).
Local Abbreviation stepPage := (step API_BASE_URL toLowerCase).

Lemma applyEffect_fixed (cycle : nat) (eff : Effect) (pg : Page) :
  inflight (applyEffect cycle eff pg) = inflight pg ∧
  started (applyEffect cycle eff pg) = started pg ∧
  sent (applyEffect cycle eff pg) = sent pg ∧
  debounceTimer (applyEffect cycle eff pg) = debounceTimer pg ∧
  input (applyEffect cycle eff pg) = input pg.
Proof. by destruct eff. Qed.

Lemma settle_idle (cycle fuel : nat) (pg : Page) :
  inflight pg !! cycle = None → settle cycle fuel pg = pg.
Proof.
  intros Hidle. induction fuel as [|fuel IH]; [done|].
  simpl. unfold settleWith. by rewrite Hidle.
Qed.

(** Settling a cycle again and again plays the rest of its run. *)
Lemma settle_advance (cycle : nat) (p : Prog unit) :
  ∀ (pg : Page) (fuel : nat),
    inflight pg !! cycle = None →
    (length (requestsOf (run net p).1) ≤ fuel)%nat →
    settle cycle fuel (advance cycle p pg)
    = applyEvents cycle (run net p).1 pg.
Proof.
  induction p as [a|e|eff k IH|req k IH]; intros pg fuel Hidle Hfuel.
  - by apply settle_idle.
  - by apply settle_idle.
  - simpl. apply IH; [|done].
    by destruct (applyEffect_fixed cycle eff pg) as [-> _].
  - simpl in Hfuel. destruct fuel as [|fuel]; [lia|].
    simpl. unfold settleWith. simpl. rewrite lookup_insert_eq. simpl.
    rewrite delete_insert_id by done.
    apply (IH (net req)); [done | lia].
Qed.

Lemma settle_pending (cycle : nat) (pending : Pending) (pg : Page)
  (fuel : nat) :
  inflight pg !! cycle = Some pending →
  let tr := (run net (pd_resume pending (net (pd_request pending)))).1 in
  (S (length (requestsOf tr)) ≤ fuel)%nat →
  settle cycle fuel pg = applyEvents cycle tr (forget cycle pg).
Proof.
  intros Hpending tr Hfuel. destruct fuel as [|fuel]; [lia|].
  simpl. unfold settleWith. rewrite Hpending. simpl. rewrite Hpending.
  apply (settle_advance cycle _ (forget cycle pg));
    [apply lookup_delete_eq | subst tr; lia].
Qed.

Lemma applyEvents_publications (cycle : nat) (tr : list Event) :
  ∀ pg,
    publications (applyEvents cycle tr pg)
    = publications pg ++
      (mkPublication cycle (pred (started pg)) <$> publishedOf tr).
Proof.
  induction tr as [|ev tr IH]; intros pg.
  - simpl. by rewrite app_nil_r.
  - change (applyEvents cycle (ev :: tr) pg)
      with (applyEvents cycle tr (applyEvent cycle pg ev)).
    rewrite IH. destruct ev as [req|[]]; simpl; try done.
    by rewrite <- app_assoc.
Qed.

Lemma applyEvents_validationState (cycle : nat) (tr : list Event) :
  ∀ pg,
    validationState (applyEvents cycle tr pg)
    = default (validationState pg) (last (publishedOf tr)).
Proof.
  induction tr as [|ev tr IH]; intros pg; [done|].
  change (applyEvents cycle (ev :: tr) pg)
    with (applyEvents cycle tr (applyEvent cycle pg ev)).
  rewrite IH. destruct ev as [req|[]]; simpl; try done.
  rewrite last_cons. by destruct (last (publishedOf tr)).
Qed.

Lemma applyEvents_panel (cycle : nat) (tr : list Event) :
  ∀ pg, panel (applyEvents cycle tr pg) = foldl showOnPanel (panel pg) tr.
Proof.
  induction tr as [|ev tr IH]; intros pg; [done|].
  change (applyEvents cycle (ev :: tr) pg)
    with (applyEvents cycle tr (applyEvent cycle pg ev)).
  rewrite IH. by destruct ev as [req|[]].
Qed.

Lemma showOnPanel_suggestions (tr : list Event) :
  ∀ ps, ps_suggestions (foldl showOnPanel ps tr)
        = default (ps_suggestions ps) (last (displayedSuggestionsOf tr)).
Proof.
  induction tr as [|ev tr IH]; intros ps; [done|]. simpl. rewrite IH.
  destruct ev as [req|[]]; simpl; try done.
  rewrite last_cons. by destruct (last (displayedSuggestionsOf tr)).
Qed.

(** A cycle that runs touches no other cycle that waits, and starts
    none. *)
Lemma advance_others (cycle other : nat) (p : Prog unit) :
  other ≠ cycle →
  ∀ pg, inflight (advance cycle p pg) !! other = inflight pg !! other ∧
        started (advance cycle p pg) = started pg.
Proof.
  intros Hother. induction p as [a|e|eff k IH|req k IH]; intros pg;
    [done..| |].
  - change (advance cycle (Perform eff k) pg)
      with (advance cycle k (applyEffect cycle eff pg)).
    destruct (IH (applyEffect cycle eff pg)) as [-> ->].
    by destruct (applyEffect_fixed cycle eff pg) as (-> & -> & _).
  - simpl. by rewrite lookup_insert_ne.
Qed.

(** C2, as amended: a newer edit cancels the previous cycle only while its
    debounce timer is still pending; the superseded text then starts no
    cycle, sends no request and updates no state: the page after the edit
    is the same whatever timer was pending. A cycle whose timer has fired
    is not discarded: it still waits after a newer edit and after the newer
    cycle has started, and once its pending request settles, whatever the
    rest of the cycle shows and publishes is applied to the state of the
    panel and of its parent. *)
Theorem debounce_cancels_only_pending_timers (pg : Page) :
  (∀ text, text ≠ input pg →
     let pg' := stepPage pg (Edit text) in
     debounceTimer pg' = Some text ∧ started pg' = started pg ∧
     sent pg' = sent pg ∧ inflight pg' = inflight pg ∧
     publications pg' = publications pg ∧
     validationState pg' = validationState pg ∧ panel pg' = panel pg ∧
     ∀ superseded, stepPage (withTimer superseded pg) (Edit text) = pg') ∧
  (∀ text cycle pending,
     text ≠ input pg → inflight pg !! cycle = Some pending →
     (cycle < started pg)%nat →
     let pg' := stepPage (stepPage pg (Edit text)) TimerFires in
     started pg' = S (started pg) ∧ inflight pg' !! cycle = Some pending) ∧
  (∀ cycle pending fuel,
     inflight pg !! cycle = Some pending →
     let rest := (run net (pd_resume pending (net (pd_request pending)))).1 in
     (S (length (requestsOf rest)) ≤ fuel)%nat →
     let pg' := settle cycle fuel pg in
     publications pg'
     = publications pg ++
       (mkPublication cycle (pred (started pg)) <$> publishedOf rest) ∧
     validationState pg'
     = default (validationState pg) (last (publishedOf rest)) ∧
     panel pg' = foldl showOnPanel (panel pg) rest ∧
     ps_suggestions (panel pg')
     = default (ps_suggestions (panel pg))
               (last (displayedSuggestionsOf rest))).
Proof.
  split; [|split].
  - intros text Hedit. simpl. rewrite !bool_decide_eq_false_2 by done.
    by simpl.
  - intros text cycle pending Hedit Hpending Hlt. simpl.
    rewrite bool_decide_eq_false_2 by done. simpl.
    match goal with |- context [advance ?c ?p ?pg0] =>
      destruct (advance_others c cycle p ltac:(lia) pg0) as [-> ->]
    end.
    by simpl.
  - intros cycle pending fuel Hpending rest Hfuel. cbv zeta.
    rewrite (settle_pending cycle pending pg fuel Hpending Hfuel).
    fold rest.
    rewrite applyEvents_publications, applyEvents_validationState,
      applyEvents_panel.
    simpl. by rewrite showOnPanel_suggestions.
Qed.

End DebounceProperties.

(** ** Titles, file names and document rendering *)

Section TextProperties.

Lemma trimStart_clean (s : jsstring) : startsClean (trimStart s).
Proof.
  induction s as [|c s IH]; simpl; [done|].
  destruct (isWhiteSpace c) eqn:Hc; [done | by simpl].
Qed.

Lemma trimStart_id (s : jsstring) : startsClean s → trimStart s = s.
Proof. destruct s as [|c s]; simpl; [done | by intros ->]. Qed.

Lemma trimStart_suffix (s : jsstring) : ∃ w, s = w ++ trimStart s.
Proof.
  induction s as [|c s [w IH]]; simpl; [by exists []|].
  destruct (isWhiteSpace c).
  - exists (c :: w). simpl. by rewrite <- IH.
  - by exists [].
Qed.

Lemma trimEnd_clean (s : jsstring) : endsClean (trimEnd s).
Proof. unfold endsClean, trimEnd. rewrite rev_involutive. apply trimStart_clean. Qed.

Lemma trimEnd_id (s : jsstring) : endsClean s → trimEnd s = s.
Proof.
  unfold endsClean, trimEnd. intros H. rewrite trimStart_id by done.
  apply rev_involutive.
Qed.

Lemma trimEnd_prefix (s : jsstring) : ∃ w, s = trimEnd s ++ w.
Proof.
  unfold trimEnd. destruct (trimStart_suffix (rev s)) as [w Hw].
  exists (rev w). rewrite <- rev_app_distr, <- Hw. by rewrite rev_involutive.
Qed.

Lemma trimEnd_startsClean (s : jsstring) :
  startsClean s → startsClean (trimEnd s).
Proof.
  destruct (trimEnd_prefix s) as [w Hw]. intros Hs.
  destruct (trimEnd s) as [|c t]; [done|]. rewrite Hw in Hs. done.
Qed.

Lemma trim_clean (s : jsstring) : startsClean (trim s) ∧ endsClean (trim s).
Proof.
  split; [|apply trimEnd_clean].
  apply trimEnd_startsClean, trimStart_clean.
Qed.

Lemma trim_id (s : jsstring) : startsClean s → endsClean s → trim s = s.
Proof. intros Hs He. unfold trim. by rewrite trimStart_id, trimEnd_id. Qed.

(** [trim] is idempotent. *)
Lemma trim_trim (s : jsstring) : trim (trim s) = trim s.
Proof. destruct (trim_clean s). by apply trim_id. Qed.

Lemma firstHeading_trimmed (lines : list jsstring) (title : jsstring) :
  firstHeading lines = Some title → trim title = title.
Proof.
  induction lines as [|line rest IH]; simpl; [done|].
  repeat case_match; try done; intros [= <-]; apply trim_trim.
Qed.

Lemma ellipsis_trimmed (firstLine : jsstring) :
  firstLine ≠ [] → startsClean firstLine →
  trim (take 47 firstLine ++ lit "...") = take 47 firstLine ++ lit "...".
Proof.
  intros Hne Hs. apply trim_id.
  - destruct firstLine as [|c t]; [done|]. done.
  - unfold endsClean. rewrite rev_app_distr.
    by vm_compute.
Qed.

(** X1: whatever the document, the title that [generateTitle] returns has no
    white space at either end: trimming it changes nothing. *)
Theorem generateTitle_is_trimmed (document : jsstring) :
  trim (generateTitle document) = generateTitle document.
Proof.
  unfold generateTitle. case_bool_decide; [done|].
  destruct (firstHeading _) as [title|] eqn:Hheading.
  { by apply firstHeading_trimmed in Hheading. }
  destruct (head _) as [first|]; simpl; [|by vm_compute].
  case_bool_decide as Hempty; simpl; [by vm_compute|].
  destruct (10 <? _)%nat; [|by vm_compute].
  destruct (50 <? _)%nat.
  - apply ellipsis_trimmed; [done | apply trim_clean].
  - apply trim_trim.
Qed.

Lemma trimStart_nil (s : jsstring) :
  trimStart s = [] → Forall (fun c => isWhiteSpace c = true) s.
Proof.
  induction s as [|c s IH]; simpl; [done|].
  destruct (isWhiteSpace c) eqn:Hc; [|done].
  intros H. constructor; [done | by apply IH].
Qed.

(** Only white space trims to the empty string. *)
Lemma trim_nil (s : jsstring) :
  trim s = [] → Forall (fun c => isWhiteSpace c = true) s.
Proof.
  unfold trim, trimEnd. intros H.
  apply (f_equal (@rev N)) in H. rewrite rev_involutive in H. simpl in H.
  apply trimStart_nil, Forall_rev in H. rewrite rev_involutive in H.
  apply trimStart_nil. pose proof (trimStart_clean s) as Hclean.
  destruct (trimStart s) as [|c t]; [done|].
  simpl in Hclean. inversion H; congruence.
Qed.

Lemma heading_line_not_blank (line : jsstring) :
  isHeadingLine line = true → trim line ≠ [].
Proof.
  unfold isHeadingLine. intros H Htrim.
  assert (∃ rest, line = 35 :: rest) as [rest ->].
  { apply orb_true_iff in H as [H|H]; apply startsWith_spec in H as [r ->].
    - exists (32 :: r). by vm_compute.
    - exists (35 :: 32 :: r). by vm_compute. }
  apply trim_nil in Htrim. by inversion Htrim.
Qed.

Lemma firstHeading_filter (lines : list jsstring) :
  firstHeading
    (List.filter (fun line => negb (bool_decide (trim line = []))) lines)
  = firstHeading lines.
Proof.
  induction lines as [|line rest IH]; [done|]. simpl.
  destruct (isHeadingLine line) eqn:Hh.
  - rewrite bool_decide_eq_false_2 by (by apply heading_line_not_blank).
    simpl. unfold isHeadingLine in Hh.
    by destruct (startsWith line (lit "# ")), (startsWith line (lit "## ")).
  - unfold isHeadingLine in Hh. apply orb_false_iff in Hh as [H1 H2].
    rewrite H1, H2. case_bool_decide; simpl; [done|]. by rewrite H1, H2.
Qed.


Lemma split_cons_inv (sep : N) (s : jsstring) : split sep s ≠ [].
Proof. destruct s as [|c s]; simpl; [done|]. by repeat case_match. Qed.

Lemma split_app (sep : N) (line rest : jsstring) :
  Forall (fun c => c ≠ sep) line →
  split sep (line ++ sep :: rest) = line :: split sep rest.
Proof.
  induction 1 as [|c line Hc _ IH]; simpl.
  - by rewrite N.eqb_refl.
  - rewrite IH. by apply N.eqb_neq in Hc as ->.
Qed.

Lemma split_line (sep : N) (line : jsstring) :
  Forall (fun c => c ≠ sep) line → split sep line = [line].
Proof.
  induction 1 as [|c line Hc _ IH]; simpl; [done|].
  rewrite IH. by apply N.eqb_neq in Hc as ->.
Qed.

(** Splitting undoes joining: lines without a separator in them, joined by
    the separator, split back into the same lines. *)
Lemma split_join (sep : N) (lines : list jsstring) :
  lines ≠ [] →
  Forall (Forall (fun c => c ≠ sep)) lines →
  split sep (join sep lines) = lines.
Proof.
  intros Hne Hlines. induction Hlines as [|line rest Hline Hrest IH]; [done|].
  destruct rest as [|next rest].
  - by apply split_line.
  - change (join sep (line :: next :: rest))
      with (line ++ sep :: join sep (next :: rest)).
    rewrite split_app by done. by rewrite IH.
Qed.




(** X3: the title is the text of the first heading line, trimmed, wherever
    that line stands: lines before it that are not headings, blank or not,
    are passed over. *)
Theorem generateTitle_first_heading
  (before after : list jsstring) (marker text : jsstring) :
  marker = lit "# " ∨ marker = lit "## " →
  Forall (Forall (fun c => c ≠ lineFeed)) (before ++ (marker ++ text) :: after) →
  Forall (fun line => isHeadingLine line = false) before →
  generateTitle (join lineFeed (before ++ (marker ++ text) :: after))
  = trim text.
Proof.
  intros Hmarker Hlines Hbefore. unfold generateTitle.
  assert (before ++ (marker ++ text) :: after ≠ []) as Hne
    by (by destruct before).
  assert (marker ++ text ≠ []) as Hline
    by (destruct Hmarker as [-> | ->]; by vm_compute).
  rewrite bool_decide_eq_false_2.
  2:{ intros Hnil. apply (f_equal (split lineFeed)) in Hnil.
      rewrite split_join in Hnil by done. simpl in Hnil.
      destruct before as [|line [|? ?]]; simplify_eq/=. }
  rewrite firstHeading_filter, split_join by done.
  assert (firstHeading (before ++ (marker ++ text) :: after)
          = Some (trim text)) as ->; [|done].
  clear Hlines Hne. induction Hbefore as [|line rest Hline' _ IH].
  - destruct Hmarker as [-> | ->]; by vm_compute.
  - simpl. unfold isHeadingLine in Hline'.
    apply orb_false_iff in Hline' as [-> ->]. exact IH.
Qed.

Lemma replaceUnsafe_safe (title : jsstring) :
  Forall (fun c => isFileNameUnit c = true) (replaceUnsafe title).
Proof.
  unfold replaceUnsafe. induction title as [|c title IH]; simpl; [done|].
  constructor; [|done]. by destruct (isFileNameUnit c) eqn:Hc.
Qed.

Lemma isFileNameUnit_unescaped (c : N) :
  isFileNameUnit c = true ∨ c = 46 → isUnescaped c = true.
Proof.
  unfold isFileNameUnit, isUnescaped. with_strategy transparent [lit] simpl.
  rewrite !orb_true_iff, !N.eqb_eq. intros H. repeat destruct H as [H|H]; auto 10;
    subst; by vm_compute.
Qed.

Lemma encodeURIComponent_unescaped (s : jsstring) :
  Forall (fun c => isUnescaped c = true) s → encodeURIComponent s = Some s.
Proof.
  induction 1 as [|c s Hc _ IH]; simpl; [done|]. by rewrite Hc, IH.
Qed.

Lemma diagramFileName_units (designDocument : jsstring) :
  Forall (fun c => isFileNameUnit c = true ∨ c = 46)
         (diagramFileName designDocument).
Proof.
  unfold diagramFileName. apply Forall_app. split.
  - eapply Forall_impl; [apply replaceUnsafe_safe|]. by left.
  - with_strategy transparent [lit] (repeat constructor); by vm_compute.
Qed.

Lemma diagramFileName_length (designDocument : jsstring) :
  (5 ≤ length (diagramFileName designDocument))%nat.
Proof.
  unfold diagramFileName, replaceUnsafe.
  rewrite length_app, length_map.
  assert (length (lit ".png") = 4%nat) as -> by (by vm_compute).
  destruct (generateTitle designDocument) as [|c t]; simpl; [|lia].
  assert (length (lit "Architecture_Diagram") = 20%nat) as -> by (by vm_compute).
  lia.
Qed.

Lemma EXPORT_DIAGRAM_diagramFileName
  (API_BASE_URL designDocument diagramUrl : jsstring) :
  EXPORT_DIAGRAM API_BASE_URL diagramUrl (diagramFileName designDocument)
  = Some (API_BASE_URL ++ lit "/api/export/diagram" ++ diagramUrl ++
          lit "?filename=" ++ diagramFileName designDocument).
Proof.
  unfold EXPORT_DIAGRAM. rewrite encodeURIComponent_unescaped; [done|].
  eapply Forall_impl; [apply diagramFileName_units|].
  apply isFileNameUnit_unescaped.
Qed.

(** X4: the name under which a diagram is exported holds only ASCII
    letters, digits, [_], [-] and the dot of [.png], whatever the document;
    its stem is never empty; [encodeURIComponent] leaves it as it is, so
    building the export URL cannot throw and the name appears in it
    unescaped. *)
Theorem diagram_export_name_is_safe (API_BASE_URL designDocument diagramUrl
  : jsstring) :
  let filename := diagramFileName designDocument in
  Forall (fun c => isFileNameUnit c = true ∨ c = 46) filename ∧
  (5 ≤ length filename)%nat ∧
  EXPORT_DIAGRAM API_BASE_URL diagramUrl filename
  = Some (API_BASE_URL ++ lit "/api/export/diagram" ++ diagramUrl ++
          lit "?filename=" ++ filename).
Proof.
  intros filename. split; [apply diagramFileName_units|]. split.
  - apply diagramFileName_length.
  - apply EXPORT_DIAGRAM_diagramFileName.
Qed.

Lemma renderLine_one (i : nat) (line : jsstring) :
  ∃ el, renderLine i line = [el] ∧ keyOf el = i.
Proof.
  unfold renderLine.
  repeat case_match; try (eexists; split; reflexivity). discriminate.
Qed.

Lemma renderLines_keys (lines : list jsstring) :
  ∀ i, keyOf <$> renderLines i lines = seq i (length lines).
Proof.
  induction lines as [|line rest IH]; intros i; [done|]. simpl.
  destruct (renderLine_one i line) as (el & -> & Hkey). simpl.
  by rewrite Hkey, IH.
Qed.

Lemma split_length (sep : N) (s : jsstring) :
  length (split sep s) = S (length (List.filter (N.eqb sep) s)).
Proof.
  induction s as [|c s IH]; [done|]. simpl.
  rewrite (N.eqb_sym sep c). destruct (c =? sep); simpl; [by rewrite IH|].
  destruct (split sep s) as [|piece pieces] eqn:Hs; [by destruct (split_cons_inv sep s)|].
  simpl in *. done.
Qed.

(** X5: [renderDocument] never drops a line: a non-empty text gives one
    element per line, in the order of the lines and keyed by the line
    numbers from 0, so one more element than the text has line feeds. *)
Theorem renderDocument_one_element_per_line (text : jsstring) :
  text ≠ [] →
  ∃ elements,
    renderDocument text = Prose elements ∧
    keyOf <$> elements = seq 0 (length (split lineFeed text)) ∧
    length elements = S (length (List.filter (N.eqb lineFeed) text)).
Proof.
  intros Hne. unfold renderDocument. rewrite bool_decide_eq_false_2 by done.
  eexists. split; [done|].
  pose proof (renderLines_keys (split lineFeed text) 0) as Hkeys.
  split; [done|].
  apply (f_equal length) in Hkeys.
  rewrite length_fmap, length_seq, split_length in Hkeys. done.
Qed.

End TextProperties.

(** ** The handlers of the page *)

Section TaskLemmas.

Context {A B : Type} (w : World).

Lemma perform_andThen (t : Task A) (f : A -> Task B) :
  perform w (andThen t f)
  = match (perform w t).2 with
    | inl a => ((perform w t).1 ++ (perform w (f a)).1, (perform w (f a)).2)
    | inr e => ((perform w t).1, inr e)
    end.
Proof.
  induction t as [a|e|a k IH|req k IH|url k IH]; simpl.
  - by destruct (perform w (f a)).
  - done.
  - rewrite IH. by destruct (perform w k).2.
  - rewrite IH. by destruct (perform w (k (answers w req))).2.
  - rewrite IH. by destruct (perform w (k (opens w url))).2.
Qed.

Lemma perform_catching (t : Task A) (handler : Exn -> Task A) :
  perform w (catching t handler)
  = match (perform w t).2 with
    | inl a => ((perform w t).1, inl a)
    | inr e => ((perform w t).1 ++ (perform w (handler e)).1,
                (perform w (handler e)).2)
    end.
Proof.
  induction t as [a|e|a k IH|req k IH|url k IH]; simpl.
  - done.
  - by destruct (perform w (handler e)).
  - rewrite IH. by destruct (perform w k).2.
  - rewrite IH. by destruct (perform w (k (answers w req))).2.
  - rewrite IH. by destruct (perform w (k (opens w url))).2.
Qed.

End TaskLemmas.

Lemma perform_finally {A : Type} (w : World) (t : Task A) (fin : Task unit) :
  perform w (finally t fin)
  = match (perform w fin).2 with
    | inl _ => ((perform w t).1 ++ (perform w fin).1, (perform w t).2)
    | inr e => ((perform w t).1 ++ (perform w fin).1, inr e)
    end.
Proof.
  induction t as [a|e|a k IH|req k IH|url k IH]; simpl.
  - rewrite perform_andThen.
    destruct (perform w fin).2; simpl; by rewrite ?app_nil_r.
  - rewrite perform_andThen.
    destruct (perform w fin).2; simpl; by rewrite ?app_nil_r.
  - rewrite IH. by destruct (perform w fin).2.
  - rewrite IH. by destruct (perform w fin).2.
  - rewrite IH. by destruct (perform w fin).2.
Qed.

Section HandlerProperties.

Variable API_BASE_URL : jsstring.
Variable w : World.

Local Abbreviation generateRequest input :=
  (mkPageRequest POST (GENERATE_ARCHITECTURE API_BASE_URL)
                 [(lit "input", input)]).

(** The existence check returns normally, sends at most one request and
    writes nothing but [architectureExists]. *)
Lemma checkArchitectureExists_run (designDoc : jsstring) :
  ∃ steps,
    perform w (checkArchitectureExists API_BASE_URL designDoc)
    = (steps, inl tt) ∧
    (length (askedOf steps) ≤ 1)%nat ∧
    diagramUpdatesOf steps = [] ∧
    ∀ d, let d' := foldl act d (actionsOf steps) in
      d_isProcessing d' = d_isProcessing d ∧
      d_hasResults d' = d_hasResults d ∧
      d_error d' = d_error d ∧
      d_processingMessage d' = d_processingMessage d ∧
      d_designDocument d' = d_designDocument d ∧
      d_diagramUrl d' = d_diagramUrl d.
Proof.
  unfold checkArchitectureExists, request, pageJson.
  destruct (_ || _); simpl.
  { eexists. split; [done|]. simpl. auto 10. }
  destruct (answers w _) as [reason|[st stText bd blob]]; simpl.
  { eexists. split; [done|]. simpl. auto 10. }
  unfold pr_ok. simpl. destruct (inRange 200 299 st); simpl.
  - destruct bd; simpl; eexists; (split; [done|]); simpl; auto 10.
  - eexists. split; [done|]. simpl. auto 10.
Qed.

(** X6: the existence check never throws and never reports a failed check
    as "not saved". A blank document sends nothing and gives [null]; any other
    document sends one request, and the result is [false] only when a
    success response says so: a rejected request, an error status or an
    unreadable body all give [null]. *)
Theorem checkArchitectureExists_settles (designDoc : jsstring)
  (d : Dashboard) :
  let task := checkArchitectureExists API_BASE_URL designDoc in
  let req := mkPageRequest POST (CHECK_ARCHITECTURE_EXISTS API_BASE_URL)
                           [(lit "design_document", designDoc)] in
  (perform w task).2 = inl tt ∧
  askedOf (perform w task).1
  = (if bool_decide (trim designDoc = []) then [] else [req]) ∧
  d_architectureExists (after w task d)
  = if bool_decide (trim designDoc = []) then AeNull
    else match generated w req with
         | Some result =>
           if j_exists result
           then match j_architecture result with
                | Some architecture => AeObject architecture
                | None => AeUndefined
                end
           else AeFalse
         | None => AeNull
         end.
Proof.
  intros task req. subst task req.
  unfold after, generated, checkArchitectureExists, request, pageJson.
  destruct (decide (trim designDoc = [])) as [Hblank|Hdoc].
  - rewrite (bool_decide_eq_true_2 (trim designDoc = [])) by done.
    by rewrite orb_true_r.
  - rewrite (bool_decide_eq_false_2 (trim designDoc = [])) by done.
    rewrite bool_decide_eq_false_2 by (by intros ->). simpl.
    destruct (answers w _) as [reason|[st stText bd blob]]; simpl; [done|].
    unfold pr_ok. simpl. destruct (inRange 200 299 st); simpl; [|done].
    destruct bd as [| |result]; simpl; [done..|].
    by destruct (j_exists result), (j_architecture result).
Qed.

Local Opaque checkArchitectureExists.

Lemma interleave_quiet (steps : list Step) :
  ∀ d, interleave steps [] d = foldl act d (actionsOf steps).
Proof.
  induction steps as [|st steps IH]; intros d; [done|].
  destruct st as [req|url|[]]; simpl; by rewrite ?IH.
Qed.

Lemma interleave_last (steps : list Step) (a : Action) :
  a ≠ AwaitsBody →
  ∀ others d,
    interleave (steps ++ [Took a]) others d = act (interleave steps others d) a.
Proof.
  intros Ha. induction steps as [|st steps IH]; intros others d.
  - by destruct a.
  - destruct st as [req|url|[]]; simpl; by rewrite IH.
Qed.

Lemma resolveAmid_quiet (steps : list Step) :
  ∀ ov, resolveAmid API_BASE_URL steps [] ov
        = foldl (fun ov reference =>
                   ov ≫= setDiagramUrl API_BASE_URL reference)
                ov (diagramUpdatesOf steps).
Proof.
  induction steps as [|st steps IH]; intros ov; [done|].
  destruct st as [req|url|[]]; simpl; by rewrite ?IH.
Qed.

(** What [handleSubmit] does before it sends the request. *)
Local Abbreviation submitPrelude :=
  [Took PreventDefault; Took (SetIsProcessing true); Took (SetHasResults false);
   Took (SetDesignDocument []); Took (SetDiagramUrl []); Took (SetError []);
   Took (SetArchitectureExists AeNull);
   Took (SetProcessingMessage analyzingMessage);
   Took (SetProcessingMessage generatingMessage)].

Lemma handleSubmit_blank (input : jsstring) :
  trim input = [] →
  perform w (handleSubmit API_BASE_URL input) = ([Took PreventDefault], inl tt).
Proof. intros Hblank. unfold handleSubmit. by rewrite bool_decide_eq_true_2. Qed.

Lemma orElse_nonempty (a b : jsstring) : b ≠ [] → orElse a b ≠ [].
Proof. by destruct a. Qed.

(** A failed generation: the catch block runs after the last suspension. *)
Lemma handleSubmit_failure (input : jsstring) :
  trim input ≠ [] →
  generated w (generateRequest input) = None →
  ∃ mid error shown,
    perform w (handleSubmit API_BASE_URL input)
    = (submitPrelude ++ Asked (generateRequest input) :: mid ++
       [Took (LogError (lit "Error generating architecture:") error);
        Took (SetError shown); Took (SetProcessingMessage []);
        Took (SetIsProcessing false)], inl tt) ∧
    shown ≠ [] ∧
    (mid = [] ∨ mid = [Took AwaitsBody] ∨
     mid = [Took (SetProcessingMessage creatingMessage); Took AwaitsBody]).
Proof.
  intros Hinput. unfold generated, handleSubmit, request, pageJson,
    pageJsonOrEmpty.
  rewrite bool_decide_eq_false_2 by done. simpl.
  assert (∀ a : jsstring, lit "HTTP " ++ a ≠ []) as Hhttp
    by (intros a; by vm_compute).
  assert (lit "Something went wrong. Please try again." ≠ []) as Hwrong
    by (by vm_compute).
  assert (lit "Unexpected token in JSON" ≠ []) as Htoken by (by vm_compute).
  assert (lit "Cannot read properties of null" ≠ []) as Hnull
    by (by vm_compute).
  destruct (answers w _) as [reason|[st stText bd blob]]; simpl.
  { intros _. exists [], reason, (orElse (message reason)
      (lit "Something went wrong. Please try again.")).
    split; [done|]. split; [by apply orElse_nonempty | by left]. }
  unfold pr_ok. simpl. destruct (inRange 200 299 st); simpl.
  - destruct bd; [| |done]; intros _;
      eexists [Took (SetProcessingMessage creatingMessage); Took AwaitsBody],
              _, _;
      (split; [reflexivity|]); (split; [|by right; right]);
      by apply orElse_nonempty.
  - intros _. destruct bd; simpl;
      eexists [Took AwaitsBody], _, _;
      (split; [reflexivity|]); (split; [|by right; left]);
      repeat (apply orElse_nonempty); try apply Hhttp; done.
Qed.

(** A successful generation: the results are written after the body has
    been read, and the existence check follows. *)
Lemma handleSubmit_success (input : jsstring) (data : PageJson) :
  trim input ≠ [] →
  generated w (generateRequest input) = Some data →
  ∃ checkSteps,
    perform w (handleSubmit API_BASE_URL input)
    = (submitPrelude ++
       Asked (generateRequest input) ::
       Took (SetProcessingMessage creatingMessage) :: Took AwaitsBody ::
       Took (SetDesignDocument
               (orElse (default [] (j_design_document data))
                       (lit "No design document generated"))) ::
       Took (SetDiagramUrl (default [] (j_diagram_url data))) ::
       Took (SetHasResults true) :: Took (SetProcessingMessage []) ::
       checkSteps ++ [Took (SetIsProcessing false)], inl tt) ∧
    (length (askedOf checkSteps) ≤ 1)%nat ∧
    (j_design_document data = None → checkSteps = []) ∧
    diagramUpdatesOf checkSteps = [] ∧
    ∀ d, let d' := foldl act d (actionsOf checkSteps) in
      d_isProcessing d' = d_isProcessing d ∧
      d_hasResults d' = d_hasResults d ∧
      d_error d' = d_error d ∧
      d_processingMessage d' = d_processingMessage d ∧
      d_designDocument d' = d_designDocument d ∧
      d_diagramUrl d' = d_diagramUrl d.
Proof.
  intros Hinput. unfold generated, handleSubmit, request, pageJson.
  rewrite bool_decide_eq_false_2 by done. simpl.
  destruct (answers w _) as [reason|[st stText bd blob]]; [done|].
  unfold pr_ok. simpl. destruct (inRange 200 299 st); [|done]. simpl.
  destruct bd as [| |data']; [done..|]. intros [= ->]. simpl.
  set (check := match j_design_document data with
                | Some (c :: designDoc) =>
                  checkArchitectureExists API_BASE_URL (c :: designDoc)
                | _ => Done tt
                end).
  assert (∃ checkSteps,
            perform w check = (checkSteps, inl tt) ∧
            (length (askedOf checkSteps) ≤ 1)%nat ∧
            (j_design_document data = None → checkSteps = []) ∧
            diagramUpdatesOf checkSteps = [] ∧
            ∀ d, let d' := foldl act d (actionsOf checkSteps) in
              d_isProcessing d' = d_isProcessing d ∧
              d_hasResults d' = d_hasResults d ∧
              d_error d' = d_error d ∧
              d_processingMessage d' = d_processingMessage d ∧
              d_designDocument d' = d_designDocument d ∧
              d_diagramUrl d' = d_diagramUrl d)
    as (checkSteps & Hcheck & Hasked & Hnone & Hupdates & Hkeeps).
  { subst check. destruct (j_design_document data) as [[|c designDoc]|].
    - exists []. simpl. auto 10.
    - destruct (checkArchitectureExists_run (c :: designDoc))
        as (steps & Hrun & Hlen & Hupd & Hkeep).
      exists steps. split; [done|]. split; [done|]. split; [done|]. by split.
    - exists []. simpl. auto 10. }
  rewrite perform_finally, perform_catching, Hcheck. simpl.
  exists checkSteps. split; [done|]. auto.
Qed.

(** X7: [handleSubmit] always comes to rest, whatever other callbacks
    write while it waits. It never throws, and a blank input sends nothing
    and changes nothing. For any other input the page ends no longer
    processing. When the generation fails, a non-empty error is shown and
    the progress message is cleared, whatever was written in the meantime;
    document, diagram and results are empty if nothing else wrote them.
    When it succeeds, results, document, diagram and a cleared progress
    message are what the response says, whatever was written before the body
    was read; the error is empty if nothing else wrote it. *)
Theorem handleSubmit_settles (input : jsstring) (d : Dashboard)
  (others : list (list Action)) (duringFetch duringBody : list Action) :
  let task := handleSubmit API_BASE_URL input in
  (perform w task).2 = inl tt ∧
  (trim input = [] →
   askedOf (perform w task).1 = [] ∧ amid w task others d = d) ∧
  (trim input ≠ [] →
   d_isProcessing (amid w task others d) = false ∧
   match generated w (generateRequest input) with
   | Some data =>
     (let d' := amid w task [duringFetch; duringBody] d in
      d_hasResults d' = true ∧ d_processingMessage d' = [] ∧
      d_designDocument d'
      = orElse (default [] (j_design_document data))
               (lit "No design document generated") ∧
      d_diagramUrl d' = default [] (j_diagram_url data)) ∧
     d_error (amid w task [] d) = []
   | None =>
     (let d' := amid w task others d in
      d_error d' ≠ [] ∧ d_processingMessage d' = []) ∧
     (let d' := amid w task [] d in
      d_hasResults d' = false ∧ d_designDocument d' = [] ∧
      d_diagramUrl d' = [])
   end).
Proof.
  intros task. subst task. unfold amid.
  destruct (decide (trim input = [])) as [Hblank|Hinput].
  { rewrite (handleSubmit_blank input Hblank).
    split; [reflexivity|]. split; [by intros _|]. by intros Hfull. }
  destruct (generated w (generateRequest input)) as [data|] eqn:Hgen.
  - destruct (handleSubmit_success input data Hinput Hgen)
      as (checkSteps & -> & _ & _ & _ & Hkeeps).
    assert (∀ others d0,
              interleave (checkSteps ++ [Took (SetIsProcessing false)])
                         others d0
              = act (interleave checkSteps others d0) (SetIsProcessing false))
      as Hlast by (intros; by apply interleave_last).
    split; [reflexivity|].
    split; [intros Hblank; exfalso; exact (Hinput Hblank)|]. intros _.
    cbn [fst app interleave hd tail foldl].
    rewrite !Hlast, !interleave_quiet.
    split; [reflexivity|]. split.
    + match goal with |- context [foldl act ?d0 (actionsOf checkSteps)] =>
        set (reached := d0); destruct (Hkeeps reached) as (_ & H2 & _ & H4 & H5 & H6)
      end.
      cbv zeta in *.
      split; [transitivity (d_hasResults reached); [exact H2 | reflexivity]|].
      split; [transitivity (d_processingMessage reached);
              [exact H4 | reflexivity]|].
      split; [transitivity (d_designDocument reached);
              [exact H5 | reflexivity]|].
      transitivity (d_diagramUrl reached); [exact H6 | reflexivity].
    + match goal with |- context [foldl act ?d0 (actionsOf checkSteps)] =>
        set (reached := d0); destruct (Hkeeps reached) as (_ & _ & H3 & _)
      end.
      cbv zeta in *.
      transitivity (d_error reached); [exact H3 | reflexivity].
  - destruct (handleSubmit_failure input Hinput Hgen)
      as (mid & error & shown & -> & Hshown & Hmid).
    split; [reflexivity|].
    split; [intros Hblank; exfalso; exact (Hinput Hblank)|]. intros _.
    destruct Hmid as [->|[->| ->]];
      cbn [fst app interleave hd tail foldl];
      (split; [reflexivity|]);
      (split; [split; [exact Hshown | reflexivity]|]);
      (split; [reflexivity|]); split; reflexivity.
Qed.

Lemma clear_then_set (reference : jsstring) (v : DiagramView) :
  reference ≠ [] →
  setDiagramUrl API_BASE_URL [] v ≫= setDiagramUrl API_BASE_URL reference
  = setDiagramUrl API_BASE_URL reference mountedView.
Proof.
  intros Hne. destruct (decide (diagramUrl v = [])) as [Hempty|Hset].
  - assert (setDiagramUrl API_BASE_URL [] v = Some v) as ->.
    { unfold setDiagramUrl. by rewrite Hempty, bool_decide_eq_true_2. }
    simpl. unfold setDiagramUrl, resolveEffect. simpl. rewrite Hempty.
    rewrite !(bool_decide_eq_false_2 (reference = [])) by done. simpl.
    by rewrite ?bool_decide_eq_true_2 by done.
  - assert (setDiagramUrl API_BASE_URL [] v = Some mountedView) as ->; [|done].
    unfold setDiagramUrl, resolveEffect. simpl.
    rewrite (bool_decide_eq_false_2 ([] = diagramUrl v)) by done.
    rewrite (bool_decide_eq_false_2 (diagramUrl v = [])) by done. simpl.
    by rewrite ?bool_decide_eq_true_2 by done.
Qed.

Lemma replace_keeps_dom (reference : jsstring) (v : DiagramView) :
  diagramUrl v ≠ [] → reference ≠ [] → isWellFormed reference = true →
  ∃ v',
    setDiagramUrl API_BASE_URL reference v = Some v' ∧
    imgHidden v' = imgHidden v ∧ placeholderShown v' = placeholderShown v ∧
    (reference ≠ diagramUrl v →
     diagramTriedProxy v' = false ∧ issued v' = [resolvedDiagramUrl v'] ∧
     firstResolvedUrl API_BASE_URL reference = Some (resolvedDiagramUrl v')).
Proof.
  intros Hset Hne Hwf.
  destruct (decide (reference = diagramUrl v)) as [Hsame|Hnew].
  { exists v. unfold setDiagramUrl. by rewrite bool_decide_eq_true_2. }
  destruct (setDiagramUrl_succeeds API_BASE_URL reference v Hwf) as [v' Hv'].
  exists v'. split; [done|].
  pose proof (setDiagramUrl_resolved API_BASE_URL reference v
                (not_eq_sym Hnew)) as Hfirst.
  destruct (setDiagramUrl_fresh API_BASE_URL reference v v' Hne
              (not_eq_sym Hnew) Hv') as (_ & Htried & Hissued).
  rewrite Hv' in Hfirst. simpl in Hfirst.
  revert Hv'. unfold setDiagramUrl, resolveEffect. simpl.
  rewrite (bool_decide_eq_false_2 (reference = diagramUrl v)) by done.
  rewrite !(bool_decide_eq_false_2 (reference = [])) by done.
  rewrite (bool_decide_eq_false_2 (diagramUrl v = [])) by done. simpl.
  destruct (_ && _); [destruct (encodeURIComponent reference); [|done]|];
    simpl; intros [= <-]; by simpl.
Qed.

Lemma set_from_empty (reference : jsstring) (v : DiagramView) :
  diagramUrl v = [] → reference ≠ [] →
  setDiagramUrl API_BASE_URL reference v
  = setDiagramUrl API_BASE_URL reference mountedView.
Proof.
  intros Hempty Hne. unfold setDiagramUrl, resolveEffect. simpl. rewrite Hempty.
  rewrite !(bool_decide_eq_false_2 (reference = [])) by done. simpl.
  by rewrite ?bool_decide_eq_true_2 by done.
Qed.

Lemma clear_empties (v : DiagramView) :
  ∃ v1, setDiagramUrl API_BASE_URL [] v = Some v1 ∧ diagramUrl v1 = [].
Proof.
  unfold setDiagramUrl, resolveEffect. simpl.
  case_bool_decide as Hempty; [by exists v|].
  eexists. split; [reflexivity|]. done.
Qed.

(** X8: generating again restarts the resolver from scratch when the
    reference is still empty at the moment the response has been read, as it
    is when nothing touches the diagram area while [handleSubmit] waits:
    whatever the area went through before, exhausted or not, it is then
    exactly what a freshly mounted page shows for the new reference: first
    URL, no retry used, image visible, placeholder hidden. When another
    callback has set a different reference in the meantime, the new
    reference replaces it directly and the image and the placeholder keep
    the display they had at that moment. *)
Theorem handleSubmit_restarts_resolver
  (input reference : jsstring) (data : PageJson) (v : DiagramView)
  (duringFetch duringBody : list ViewEvent) :
  trim input ≠ [] →
  generated w (generateRequest input) = Some data →
  j_diagram_url data = Some reference →
  reference ≠ [] → isWellFormed reference = true →
  let steps := (perform w (handleSubmit API_BASE_URL input)).1 in
  let arriving :=
    foldl (viewStep API_BASE_URL) (setDiagramUrl API_BASE_URL [] v)
          (duringFetch ++ duringBody) in
  let final :=
    resolveAmid API_BASE_URL steps [duringFetch; duringBody] (Some v) in
  final = arriving ≫= setDiagramUrl API_BASE_URL reference ∧
  resolveAmid API_BASE_URL steps [] (Some v)
  = setDiagramUrl API_BASE_URL reference mountedView ∧
  (∃ v0,
     setDiagramUrl API_BASE_URL reference mountedView = Some v0 ∧
     firstResolvedUrl API_BASE_URL reference = Some (resolvedDiagramUrl v0) ∧
     issued v0 = [resolvedDiagramUrl v0] ∧
     diagramTriedProxy v0 = false ∧ imgHidden v0 = false ∧
     placeholderShown v0 = false) ∧
  (∀ v1, arriving = Some v1 → diagramUrl v1 = [] →
     final = setDiagramUrl API_BASE_URL reference mountedView) ∧
  (∀ v1, arriving = Some v1 → diagramUrl v1 ≠ [] → diagramUrl v1 ≠ reference →
     ∃ v',
       final = Some v' ∧
       issued v' = [resolvedDiagramUrl v'] ∧ diagramTriedProxy v' = false ∧
       imgHidden v' = imgHidden v1 ∧ placeholderShown v' = placeholderShown v1).
Proof.
  intros Hinput Hgen Hurl Hne Hwf steps arriving final.
  subst steps arriving final.
  destruct (handleSubmit_success input data Hinput Hgen)
    as (checkSteps & -> & _ & _ & Hupdates & _).
  assert (diagramUpdatesOf (checkSteps ++ [Took (SetIsProcessing false)]) = [])
    as Hrest.
  { unfold diagramUpdatesOf in *. by rewrite omap_app, Hupdates. }
  simpl. rewrite !resolveAmid_quiet, Hrest, Hurl. simpl.
  rewrite foldl_app.
  set (arriving := foldl (viewStep API_BASE_URL)
                     (foldl (viewStep API_BASE_URL)
                        (setDiagramUrl API_BASE_URL [] v) duringFetch)
                     duringBody).
  split; [done|]. split; [by apply clear_then_set|]. split; [|split].
  - destruct (setDiagramUrl_succeeds API_BASE_URL reference mountedView Hwf)
      as [v0 Hv0].
    exists v0. split; [done|].
    destruct (setDiagramUrl_fresh API_BASE_URL reference mountedView v0 Hne
                (not_eq_sym Hne) Hv0) as (_ & Htried & Hissued).
    unfold firstResolvedUrl. rewrite Hv0. simpl.
    split; [done|]. split; [done|]. split; [done|].
    revert Hv0. unfold setDiagramUrl, resolveEffect. simpl.
    rewrite !(bool_decide_eq_false_2 (reference = [])) by done. simpl.
    destruct (_ && _); [destruct (encodeURIComponent reference); [|done]|];
      simpl; intros [= <-]; by simpl.
  - intros v1 -> Hempty. simpl. by apply set_from_empty.
  - intros v1 -> Hset Hnew. simpl.
    destruct (replace_keeps_dom reference v1 Hset Hne Hwf)
      as (v' & Hv' & Hhidden & Hshown & Hfresh).
    destruct (Hfresh (not_eq_sym Hnew)) as (Htried & Hissued & _).
    exists v'. auto 10.
Qed.

Lemma handleLoadArchitecture_item (architecture : Architecture) :
  needsFetch (Item architecture) = None →
  perform w (handleLoadArchitecture API_BASE_URL (Item architecture))
  = ([Took (SetDesignDocument (default [] (ar_design_document architecture)));
      Took (SetDiagramUrl (default [] (ar_diagram_url architecture)));
      Took (SetInput []); Took (SetHasResults true); Took (SetError []);
      Took (SetShowSavedDropdown false);
      Took (SetArchitectureExists (AeObject architecture))], inl tt).
Proof.
  unfold needsFetch, handleLoadArchitecture. by destruct (_ && _).
Qed.

(** X9: loading a saved architecture does not restart the diagram area the
    way generating does. An item that carries its document is shown without
    any request, and the new reference replaces the old one directly: the
    image keeps the visibility it had, so after an exhausted diagram the
    newly resolved image stays hidden behind the placeholder although a
    first URL was issued for it. *)
Theorem handleLoadArchitecture_keeps_image_hidden
  (architecture : Architecture) (reference : jsstring) (v : DiagramView) :
  needsFetch (Item architecture) = None →
  ar_diagram_url architecture = Some reference →
  reference ≠ [] → isWellFormed reference = true →
  diagramUrl v ≠ [] → reference ≠ diagramUrl v →
  let steps :=
    (perform w (handleLoadArchitecture API_BASE_URL (Item architecture))).1 in
  askedOf steps = [] ∧
  ∃ v',
    resolveAll API_BASE_URL (diagramUpdatesOf steps) v = Some v' ∧
    firstResolvedUrl API_BASE_URL reference = Some (resolvedDiagramUrl v') ∧
    issued v' = [resolvedDiagramUrl v'] ∧ diagramTriedProxy v' = false ∧
    imgHidden v' = imgHidden v ∧ placeholderShown v' = placeholderShown v.
Proof.
  intros Hitem Hurl Hne Hwf Hset Hnew steps. subst steps.
  rewrite (handleLoadArchitecture_item architecture Hitem). simpl.
  split; [done|]. rewrite Hurl. unfold resolveAll. simpl.
  destruct (replace_keeps_dom reference v Hset Hne Hwf)
    as (v' & Hv' & Hhidden & Hshown & Hrest).
  destruct (Hrest Hnew) as (Htried & Hissued & Hfirst).
  exists v'. auto 10.
Qed.

(** X10: [handleLoadArchitecture] never throws. Without a fetch the item is
    shown as it is. With a fetch, a success response brings the fetched
    architecture onto the page; any failure only sets an error that starts
    with ["Failed to load architecture: "] and leaves the document, the
    diagram and everything else on the page untouched. *)
Theorem handleLoadArchitecture_settles (argument : LoadArgument)
  (d : Dashboard) :
  let task := handleLoadArchitecture API_BASE_URL argument in
  (perform w task).2 = inl tt ∧
  match needsFetch argument with
  | None =>
    askedOf (perform w task).1 = [] ∧
    ∀ architecture, argument = Item architecture →
      after w task d = loadedInto d architecture
  | Some id =>
    let req := mkPageRequest GET (LOAD_ARCHITECTURE API_BASE_URL id) [] in
    askedOf (perform w task).1 = [req] ∧
    match generated w req with
    | Some data =>
      after w task d
      = loadedInto d (mkArchitecture (j_id data) (j_design_document data)
                                     (j_diagram_url data))
    | None =>
      ∃ reason,
        after w task d
        = act d (SetError (lit "Failed to load architecture: " ++ reason))
    end
  end.
Proof.
  intros task. subst task. unfold after.
  destruct (needsFetch argument) as [id|] eqn:Hfetch.
  - assert (perform w (handleLoadArchitecture API_BASE_URL argument)
            = perform w (handleLoadArchitecture API_BASE_URL (ById id)))
      as ->.
    { destruct argument as [id'|architecture]; simpl in Hfetch.
      - by injection Hfetch as ->.
      - unfold handleLoadArchitecture.
        destruct (_ && _); [|done]. by injection Hfetch as <-. }
    unfold generated, handleLoadArchitecture, request, pageJson. simpl.
    destruct (answers w _) as [reason|[st stText bd blob]]; simpl.
    { repeat split; try done. by eexists. }
    unfold pr_ok. simpl. destruct (inRange 200 299 st); simpl.
    + destruct bd; simpl; repeat split; try done; by eexists.
    + repeat split; try done. by eexists.
  - destruct argument as [id'|architecture]; [done|].
    rewrite (handleLoadArchitecture_item architecture Hfetch). simpl.
    repeat split; try done. by intros ? [= <-].
Qed.

Local Abbreviation popupBlockedMessage :=
  (lit "Export failed. Right-click on the diagram and select " ++
   [34] ++ lit "Save image as..." ++ [34]).

(** X11: exporting a diagram that is a relative path never fails and never
    asks the network: one download link to the export endpoint is clicked,
    with the sanitized file name unescaped in its query, success is
    reported and the page is no longer exporting. *)
Theorem exportDiagramPNG_relative (diagramUrl designDocument : jsstring)
  (d : Dashboard) :
  diagramUrl ≠ [] → startsWith diagramUrl (lit "https://") = false →
  let task := exportDiagramPNG API_BASE_URL diagramUrl designDocument in
  let filename := diagramFileName designDocument in
  (perform w task).2 = inl tt ∧
  askedOf (perform w task).1 = [] ∧ openedOf (perform w task).1 = [] ∧
  downloadsOf (perform w task).1
  = [(LinkTo (API_BASE_URL ++ lit "/api/export/diagram" ++ diagramUrl ++
              lit "?filename=" ++ filename), filename)] ∧
  d_isExporting (after w task d) = false ∧
  d_exportStatus (after w task d)
  = Some (StatusSuccess, lit "Diagram exported as " ++ filename).
Proof.
  intros Hne Hrelative task filename. subst task filename.
  unfold after, exportDiagramPNG.
  rewrite bool_decide_eq_false_2 by done. rewrite Hrelative.
  rewrite EXPORT_DIAGRAM_diagramFileName. by simpl.
Qed.

(** X12: exporting a diagram whose reference starts with ['https://']
    fetches the reference itself, not the proxy. It succeeds exactly when
    the response has a success status and its blob can be read. Otherwise
    nothing is downloaded and the fallback opens the base URL followed by
    the whole absolute reference; the page ends not exporting and with an
    error status in either case. *)
Theorem exportDiagramPNG_absolute (diagramUrl designDocument : jsstring)
  (d : Dashboard) :
  startsWith diagramUrl (lit "https://") = true →
  let task := exportDiagramPNG API_BASE_URL diagramUrl designDocument in
  let filename := diagramFileName designDocument in
  let req := mkPageRequest GET diagramUrl [] in
  (perform w task).2 = inl tt ∧
  askedOf (perform w task).1 = [req] ∧
  d_isExporting (after w task d) = false ∧
  if fetched w req then
    downloadsOf (perform w task).1 = [(BlobOf diagramUrl, filename)] ∧
    openedOf (perform w task).1 = [] ∧
    d_exportStatus (after w task d)
    = Some (StatusSuccess, lit "Diagram exported as " ++ filename)
  else
    downloadsOf (perform w task).1 = [] ∧
    openedOf (perform w task).1 = [API_BASE_URL ++ diagramUrl] ∧
    d_exportStatus (after w task d)
    = Some (StatusError,
            if opens w (API_BASE_URL ++ diagramUrl)
            then lit "Image opened in new tab. Right-click to save manually."
            else popupBlockedMessage).
Proof.
  intros Habsolute task filename req. subst task filename req.
  assert (diagramUrl ≠ []) as Hne by (intros ->; discriminate Habsolute).
  unfold after, fetched, exportDiagramPNG, request, DIAGRAM_URL.
  rewrite bool_decide_eq_false_2 by done. rewrite Habsolute. simpl.
  destruct (answers w _) as [reason|[st stText bd blob]]; simpl.
  { by destruct (opens w _). }
  unfold pr_ok. simpl. destruct (inRange 200 299 st); simpl.
  - destruct blob; simpl; [done|]. by destruct (opens w _).
  - by destruct (opens w _).
Qed.

End HandlerProperties.

(** ** What the panel shows, and how often it publishes *)

Section PanelProperties.

Variable API_BASE_URL : jsstring.
Variable toLowerCase : jsstring -> jsstring.
Variable net : Request -> FetchOutcome.

Local Abbreviation detect := (detectComponents toLowerCase).
Local Abbreviation vreq := (validationRequest API_BASE_URL toLowerCase).
Local Abbreviation sreq := (suggestionRequest API_BASE_URL).
Local Abbreviation cycle := (validateDescription API_BASE_URL toLowerCase).
Local Abbreviation stepsFrom := (steps API_BASE_URL toLowerCase).

Lemma objectValues_length {V : Type} (o : gmap jsstring V) :
  length (objectValues o) = size o.
Proof. unfold objectValues. by rewrite length_fmap, length_map_to_list. Qed.

(** X13: the two counts of the summary line add up to the number of
    validation results, and the invalid count is positive exactly when the
    [hasErrors] computed from the same results is true. *)
Theorem panel_summary_counts (description : jsstring) (ps : PanelState)
  (validating : bool) (rows : list ComponentRow) (shown : list Suggestion)
  (validCount invalidCount : nat) :
  renderPanel description ps
  = Validation validating rows shown (Some (validCount, invalidCount)) →
  (validCount + invalidCount = size (ps_validationResults ps))%nat ∧
  (hasErrorsOf (ps_validationResults ps) = true ↔ (0 < invalidCount)%nat).
Proof.
  unfold renderPanel. destruct (_ || _); [done|].
  destruct (0 <? size _)%nat; [|done]. intros [= _ _ _ <- <-]. split.
  - by rewrite List.filter_length, objectValues_length.
  - unfold hasErrorsOf. generalize (objectValues (ps_validationResults ps)).
    intros l. induction l as [|r l IH]; simpl; [split; [done | lia]|].
    destruct (valid r); simpl; [done | split; [lia | done]].
Qed.








Lemma applyEffect_silent (c : nat) (eff : Effect) (pg : Page) :
  (∀ st, eff ≠ OnValidationChange st) →
  publications (applyEffect c eff pg) = publications pg.
Proof. intros Hquiet. destruct eff; try done. by destruct (Hquiet st). Qed.

Lemma advance_silent (c : nat) (p : Prog unit) :
  Silent p → ∀ pg,
    inflight (advance c p pg) = inflight pg ∧
    started (advance c p pg) = started pg ∧
    publications (advance c p pg) = publications pg.
Proof.
  induction 1 as [a|e|eff k Hquiet _ IH]; intros pg; [done..|].
  change (advance c (Perform eff k) pg)
    with (advance c k (applyEffect c eff pg)).
  destruct (IH (applyEffect c eff pg)) as (-> & -> & ->).
  destruct (applyEffect_fixed c eff pg) as (-> & -> & _).
  by rewrite applyEffect_silent.
Qed.

Lemma advance_Perform (c : nat) (eff : Effect) (k : Prog unit) (pg : Page) :
  advance c (Perform eff k) pg = advance c k (applyEffect c eff pg).
Proof. reflexivity. Qed.

(** A cycle that runs on either ends, with at most one more publication, or
    waits again, with none. *)
Lemma advance_once (c : nat) (p : Prog unit) :
  PublishesOnce p → ∀ pg,
    started (advance c p pg) = started pg ∧
    ((inflight (advance c p pg) = inflight pg ∧
      (length (publications (advance c p pg))
       ≤ S (length (publications pg)))%nat) ∨
     (∃ pending,
        inflight (advance c p pg) = <[c := pending]> (inflight pg) ∧
        (∀ o, PublishesOnce (pd_resume pending o)) ∧
        publications (advance c p pg) = publications pg)).
Proof.
  induction 1 as [p Hsilent|st k Hsilent|eff k Hquiet _ IH|req k Hk IH];
    intros pg.
  - destruct (advance_silent c p Hsilent pg) as (-> & -> & ->).
    split; [done|]. left. split; [done | lia].
  - rewrite advance_Perform.
    destruct (advance_silent c k Hsilent
                (applyEffect c (OnValidationChange st) pg))
      as (-> & -> & ->).
    split; [done|]. left. split; [done|]. simpl. rewrite length_app. simpl. lia.
  - rewrite advance_Perform.
    destruct (IH (applyEffect c eff pg)) as (-> & Hcases).
    destruct (applyEffect_fixed c eff pg) as (Hi & -> & _).
    split; [done|]. rewrite Hi, (applyEffect_silent c eff pg Hquiet) in Hcases.
    done.
  - simpl. split; [done|]. right. by eexists.
Qed.

Ltac publishes_once :=
  repeat first
    [ progress simpl
    | match goal with
      | |- PublishesOnce (Await _ _) => apply once_await; intros ?
      | |- PublishesOnce (Perform (OnValidationChange _) _) =>
        apply once_publish
      | |- PublishesOnce (Perform _ _) =>
        apply once_perform; [intros ?; discriminate|]
      | |- PublishesOnce (Ret _) => apply once_silent, silent_ret
      | |- PublishesOnce (Throw _) => apply once_silent, silent_throw
      | |- Silent (Perform _ _) =>
        apply silent_perform; [intros ?; discriminate|]
      | |- Silent (Ret _) => apply silent_ret
      | |- Silent (Throw _) => apply silent_throw
      end
    | case_match ].

Lemma validateDescription_publishes_once (text : jsstring)
  (onValidationChange : bool) :
  PublishesOnce (cycle text onValidationChange).
Proof.
  unfold validateDescription, validateTextComponents, validateAzureComponents,
    getArchitectureSuggestions, fetch, json, ok.
  publishes_once.
Qed.

Lemma step_invariant (pg : Page) (ev : PageEvent) :
  pageInvariant pg → pageInvariant (stepsFrom [ev] pg).
Proof.
  intros [Hpending Hcount]. unfold steps. simpl.
  destruct ev as [text| |c o]; simpl.
  - by case_bool_decide.
  - destruct (debounceTimer pg) as [description|]; [|done].
    assert (inflight pg !! started pg = None) as Hfresh.
    { destruct (inflight pg !! started pg) as [pending|] eqn:Hlookup; [|done].
      destruct (Hpending _ _ Hlookup) as [Hlt _]. lia. }
    match goal with |- pageInvariant (advance _ _ ?pg0) => set (pg1 := pg0) end.
    destruct (advance_once (started pg) _
                (validateDescription_publishes_once description true) pg1)
      as (Hstarted & [[Hinflight Hpubs] | (pending & Hinflight & Honce & Hpubs)]).
    + split.
      * intros c pending. rewrite Hinflight, Hstarted. simpl.
        intros Hlookup. destruct (Hpending _ _ Hlookup). split; [lia | done].
      * rewrite Hinflight, Hstarted. simpl in *. lia.
    + split.
      * intros c pending'. rewrite Hinflight, Hstarted. simpl.
        destruct (decide (c = started pg)) as [->|Hother].
        -- rewrite lookup_insert_eq. intros [= <-]. split; [lia | done].
        -- rewrite lookup_insert_ne by done. intros Hlookup.
           destruct (Hpending _ _ Hlookup). split; [lia | done].
      * rewrite Hinflight, Hstarted, Hpubs. simpl.
        rewrite map_size_insert_None by done. lia.
  - destruct (inflight pg !! c) as [pending|] eqn:Hlookup; [|done].
    destruct (Hpending _ _ Hlookup) as [Hlt Honce].
    match goal with |- pageInvariant (advance _ _ ?pg0) => set (pg1 := pg0) end.
    assert (size (inflight pg) = S (size (delete c (inflight pg)))) as Hsize.
    { rewrite <- (insert_delete_id (inflight pg) c pending Hlookup) at 1.
      by rewrite map_size_insert_None by apply lookup_delete_eq. }
    destruct (advance_once c _ (Honce o) pg1)
      as (Hstarted & [[Hinflight Hpubs] | (pending' & Hinflight & Honce' & Hpubs)]).
    + split.
      * intros c' pending'. rewrite Hinflight, Hstarted. simpl.
        intros Hlookup'.
        destruct (decide (c' = c)) as [->|Hother];
          [by rewrite lookup_delete_eq in Hlookup'|].
        rewrite lookup_delete_ne in Hlookup' by done.
        by destruct (Hpending _ _ Hlookup').
      * rewrite Hinflight, Hstarted. simpl in *. lia.
    + split.
      * intros c' pending''. rewrite Hinflight, Hstarted. simpl.
        destruct (decide (c' = c)) as [->|Hother].
        -- rewrite lookup_insert_eq. by intros [= <-].
        -- rewrite lookup_insert_ne, lookup_delete_ne by done. intros Hlookup'.
           by destruct (Hpending _ _ Hlookup').
      * rewrite Hinflight, Hstarted, Hpubs. simpl.
        rewrite map_size_insert_None by apply lookup_delete_eq. lia.
Qed.

Lemma steps_invariant (evs : list PageEvent) :
  ∀ pg, pageInvariant pg → pageInvariant (stepsFrom evs pg).
Proof.
  induction evs as [|ev evs IH]; intros pg Hinv; [done|].
  change (stepsFrom (ev :: evs) pg) with (stepsFrom evs (stepsFrom [ev] pg)).
  by apply IH, step_invariant.
Qed.

Lemma advance_fixed (c : nat) (p : Prog unit) :
  ∀ pg, started (advance c p pg) = started pg ∧
        debounceTimer (advance c p pg) = debounceTimer pg.
Proof.
  induction p as [a|e|eff k IH|req k IH]; intros pg; [done..| |done].
  change (advance c (Perform eff k) pg)
    with (advance c k (applyEffect c eff pg)).
  destruct (IH (applyEffect c eff pg)) as [-> ->].
  by destruct (applyEffect_fixed c eff pg) as (_ & -> & _ & -> & _).
Qed.

Lemma step_started (pg : Page) (ev : PageEvent) :
  (started (stepsFrom [ev] pg)
   ≤ started pg + (if isTimerFires ev then 1 else 0))%nat ∧
  (started (stepsFrom [ev] pg) + pendingTimer (stepsFrom [ev] pg)
   ≤ started pg + pendingTimer pg + (if isEdit ev then 1 else 0))%nat.
Proof.
  unfold steps, pendingTimer. simpl. destruct ev as [text| |c o]; simpl.
  - case_bool_decide; simpl; [lia|]. destruct (debounceTimer pg); lia.
  - destruct (debounceTimer pg) as [description|] eqn:Htimer; simpl;
      [|rewrite Htimer; lia].
    match goal with |- context [advance ?c ?p ?pg0] =>
      destruct (advance_fixed c p pg0) as [-> ->]
    end.
    simpl. lia.
  - destruct (inflight pg !! c) as [pending|]; simpl; [|lia].
    match goal with |- context [advance ?c ?p ?pg0] =>
      destruct (advance_fixed c p pg0) as [-> ->]
    end.
    simpl. lia.
Qed.

Lemma steps_started (evs : list PageEvent) :
  ∀ pg,
    (started (stepsFrom evs pg)
     ≤ started pg + length (List.filter isTimerFires evs))%nat ∧
    (started (stepsFrom evs pg) + pendingTimer (stepsFrom evs pg)
     ≤ started pg + pendingTimer pg + length (List.filter isEdit evs))%nat.
Proof.
  induction evs as [|ev evs IH]; intros pg; [simpl; lia|].
  change (stepsFrom (ev :: evs) pg) with (stepsFrom evs (stepsFrom [ev] pg)).
  destruct (IH (stepsFrom [ev] pg)) as [IH1 IH2].
  destruct (step_started pg ev) as [H1 H2].
  set (pg1 := stepsFrom [ev] pg) in *. set (pg2 := stepsFrom evs pg1) in *.
  cbn [List.filter].
  destruct (isTimerFires ev), (isEdit ev); cbn [length]; lia.
Qed.

(** X15: however the edits, timer firings and responses interleave, the
    page has published at most once per timer firing, hence at most once
    per quiet period and at most once more than there were edits; the number
    of keystrokes between two firings plays no part. *)
Theorem publications_bounded_by_firings (evs : list PageEvent) :
  let pg := stepsFrom evs mountedPage in
  (length (publications pg) ≤ started pg)%nat ∧
  (started pg ≤ length (List.filter isTimerFires evs))%nat ∧
  (started pg ≤ 1 + length (List.filter isEdit evs))%nat.
Proof.
  intros pg. subst pg.
  assert (pageInvariant mountedPage) as Hinv.
  { split; [|simpl; rewrite map_size_empty; lia].
    intros c pending. simpl. by rewrite lookup_empty. }
  destruct (steps_invariant evs mountedPage Hinv) as [_ Hcount].
  destruct (steps_started evs mountedPage) as [Hfirings Hedits].
  unfold pendingTimer in Hedits. simpl in *.
  split; [lia|]. split; [lia|].
  destruct (debounceTimer (stepsFrom evs mountedPage)); lia.
Qed.

End PanelProperties.

(** ** The properties on concrete inputs *)

Transparent lit numberToString.

Module Checked.

Import Sample.

(** Closed facts are settled by evaluation. *)
Ltac evaluated := vm_compute; first [reflexivity | discriminate | lia].

Lemma first_resolved_url_on_samples :
  storageReference ≠ [] ∧
  firstResolvedUrl configuredBase storageReference
  = Some (lit "https://backend.example/api/proxy/diagram?url=https%3A%2F%2Fstore.blob.core.windows.net%2Fdiagrams%2Fx.png") ∧
  firstResolvedUrl configuredBase relativeReference
  = Some (lit "https://backend.example/static/diagrams/x.png").
Proof.
  assert (storageReference ≠ []) as Hne1 by evaluated.
  assert (relativeReference ≠ []) as Hne2 by evaluated.
  assert (isAzureStorageUrl storageReference = true) as Hcls1 by evaluated.
  assert (isAzureStorageUrl relativeReference = false) as Hcls2 by evaluated.
  assert (encodeURIComponent storageReference
          = Some (lit "https%3A%2F%2Fstore.blob.core.windows.net%2Fdiagrams%2Fx.png"))
    as Henc by evaluated.
  split; [exact Hne1|]. split.
  - destruct (first_resolved_url_by_classification configuredBase
                storageReference Hne1) as (_ & Hstorage & _).
    rewrite (Hstorage Hcls1 _ Henc). evaluated.
  - destruct (first_resolved_url_by_classification configuredBase
                relativeReference Hne2) as (_ & _ & Hrelative & _).
    rewrite (Hrelative Hcls2). evaluated.
Defined.

(** The claim of C10 read with "host": a reference whose host holds no
    ['.blob.core.windows.net'] is proxied all the same when its path does. *)
Lemma path_with_storage_text_is_proxied :
  startsWith pathOnlyReference (lit "https://") = true ∧
  urlAuthority pathOnlyReference = Some (lit "example.com") ∧
  includes (lit "example.com") (lit ".blob.core.windows.net") = false ∧
  firstResolvedUrl configuredBase pathOnlyReference
  = Some (lit "https://backend.example/api/proxy/diagram?url=https%3A%2F%2Fexample.com%2Ffiles%2Fa.blob.core.windows.net.png") ∧
  firstResolvedUrl configuredBase pathOnlyReference
  ≠ Some (backendUrl configuredBase ++ pathOnlyReference).
Proof. repeat split; evaluated. Qed.

Lemma proxied_iff_on_samples :
  pathOnlyReference ≠ [] ∧
  isAzureStorageUrl pathOnlyReference = true ∧
  firstResolvedUrl configuredBase otherHostReference
  = Some (lit "https://backend.examplehttps://example.com/diagrams/x.png") ∧
  isWellFormed SamplePage.illFormedRelative = false ∧
  firstResolvedUrl configuredBase SamplePage.illFormedRelative
  = Some (lit "https://backend.example" ++ SamplePage.illFormedRelative) ∧
  firstResolvedUrl configuredBase SamplePage.illFormedStorage = None.
Proof.
  assert (pathOnlyReference ≠ []) as Hne1 by evaluated.
  assert (otherHostReference ≠ []) as Hne2 by evaluated.
  assert (SamplePage.illFormedRelative ≠ []) as Hne3 by evaluated.
  assert (SamplePage.illFormedStorage ≠ []) as Hne4 by evaluated.
  assert (isAzureStorageUrl otherHostReference = false) as Hcls2 by evaluated.
  assert (isAzureStorageUrl SamplePage.illFormedRelative = false) as Hcls3
    by evaluated.
  assert (isAzureStorageUrl SamplePage.illFormedStorage = true) as Hcls4
    by evaluated.
  assert (isWellFormed SamplePage.illFormedRelative = false) as Hill3
    by evaluated.
  assert (isWellFormed SamplePage.illFormedStorage = false) as Hill4
    by evaluated.
  split; [exact Hne1|].
  destruct (proxied_iff_https_and_blob_anywhere configuredBase
              pathOnlyReference Hne1) as (Hiff & _).
  split; [|split; [|split; [exact Hill3|split]]].
  - apply Hiff. split.
    + exists (lit "example.com/files/a.blob.core.windows.net.png"). evaluated.
    + exists (lit "https://example.com/files/a"), (lit ".png"). evaluated.
  - destruct (proxied_iff_https_and_blob_anywhere configuredBase
                otherHostReference Hne2) as (_ & Hrelative & _).
    rewrite (Hrelative Hcls2). evaluated.
  - destruct (proxied_iff_https_and_blob_anywhere configuredBase
                SamplePage.illFormedRelative Hne3) as (_ & Hrelative & _).
    rewrite (Hrelative Hcls3). evaluated.
  - destruct (proxied_iff_https_and_blob_anywhere configuredBase
                SamplePage.illFormedStorage Hne4) as (_ & _ & _ & _ & _ & Hnone).
    exact (Hnone Hcls4 Hill4).
Defined.

(** C3 on the code: with the default (empty) base URL and an absolute URL
    that is not a storage URL, the first failure issues the very URL that
    has just failed. The handler tests only ['https://'], while the effect
    and the handler's own comment speak of a storage URL. *)
Theorem fallback_repeats_failed_url :
  isAzureStorageUrl otherHostReference = false ∧
  ∃ v0 v1,
    setDiagramUrl defaultBase otherHostReference mountedView = Some v0 ∧
    onError defaultBase v0 = Some v1 ∧
    resolvedDiagramUrl v0 = otherHostReference ∧
    resolvedDiagramUrl v1 = resolvedDiagramUrl v0 ∧
    diagramTriedProxy v1 = true ∧
    issued v1 = [otherHostReference; otherHostReference].
Proof.
  split; [evaluated|]. do 2 eexists.
  split; [vm_compute; reflexivity|]. repeat split; evaluated.
Qed.

(** The claim of C6 on the code: a relative reference with an unpaired
    surrogate fails five times; the handler throws each time, the only URL
    issued is the first one, and the reference is never exhausted: the image
    stays visible and no placeholder is shown. *)
Lemma ill_formed_reference_never_exhausts :
  let v0 :=
    default mountedView
      (setDiagramUrl configuredBase SamplePage.illFormedRelative mountedView) in
  let v5 := Nat.iter 5 (loadFails configuredBase) v0 in
  SamplePage.illFormedRelative ≠ [] ∧
  diagramUrl v0 = SamplePage.illFormedRelative ∧
  onError configuredBase v0 = None ∧
  issued v5 = [lit "https://backend.example" ++ SamplePage.illFormedRelative] ∧
  diagramTriedProxy v5 = false ∧ exhausted v5 = false ∧
  imgHidden v5 = false ∧ placeholderShown v5 = false.
Proof. repeat split; evaluated. Qed.

Lemma second_failure_on_sample :
  storageReference ≠ [] ∧ isWellFormed storageReference = true ∧
  diagramUrl mountedView ≠ storageReference ∧
  (∃ v0, setDiagramUrl configuredBase storageReference mountedView = Some v0 ∧
     issued (Nat.iter 5 (loadFails configuredBase) v0)
     = [lit "https://backend.example/api/proxy/diagram?url=https%3A%2F%2Fstore.blob.core.windows.net%2Fdiagrams%2Fx.png";
        storageReference] ∧
     exhausted (Nat.iter 5 (loadFails configuredBase) v0) = true) ∧
  (∃ v0,
     setDiagramUrl configuredBase SamplePage.illFormedOtherHost mountedView
     = Some v0 ∧
     exhausted (Nat.iter 2 (loadFails configuredBase) v0) = true) ∧
  (∃ v0,
     setDiagramUrl configuredBase SamplePage.illFormedRelative mountedView
     = Some v0 ∧
     exhausted (Nat.iter 5 (loadFails configuredBase) v0) = false) ∧
  setDiagramUrl configuredBase SamplePage.illFormedStorage mountedView = None.
Proof.
  assert (storageReference ≠ []) as Hne by evaluated.
  assert (isWellFormed storageReference = true) as Hwf by evaluated.
  assert (diagramUrl mountedView ≠ storageReference) as Hnew by evaluated.
  split; [exact Hne|]. split; [exact Hwf|]. split; [exact Hnew|].
  split; [|split; [|split]].
  - destruct (second_failure_exhausts configuredBase storageReference
                mountedView Hne Hnew) as (Hexhausts & _).
    destruct (Hexhausts (or_introl Hwf))
      as (v0 & fallbackUrl & Hv0 & Hissued & Hlater).
    exists v0. split; [exact Hv0|].
    destruct (Hlater 3%nat) as (Hi & _ & Hex & _).
    split; [|exact Hex].
    change (2 + 3)%nat with 5%nat in Hi. rewrite Hi.
    vm_compute in Hv0. injection Hv0 as <-.
    vm_compute in Hissued. injection Hissued as <-. evaluated.
  - assert (SamplePage.illFormedOtherHost ≠ []) as Hne' by evaluated.
    assert (diagramUrl mountedView ≠ SamplePage.illFormedOtherHost) as Hnew'
      by evaluated.
    assert (startsWith SamplePage.illFormedOtherHost (lit "https://") = true)
      as Hhttps by evaluated.
    assert (isAzureStorageUrl SamplePage.illFormedOtherHost = false) as Hcls
      by evaluated.
    destruct (second_failure_exhausts configuredBase
                SamplePage.illFormedOtherHost mountedView Hne' Hnew')
      as (Hexhausts & _).
    destruct (Hexhausts (or_intror (conj Hhttps Hcls)))
      as (v0 & fallbackUrl & Hv0 & _ & Hlater).
    exists v0. split; [exact Hv0|].
    destruct (Hlater 0%nat) as (_ & _ & Hex & _). exact Hex.
  - assert (SamplePage.illFormedRelative ≠ []) as Hne' by evaluated.
    assert (diagramUrl mountedView ≠ SamplePage.illFormedRelative) as Hnew'
      by evaluated.
    assert (isWellFormed SamplePage.illFormedRelative = false) as Hill
      by evaluated.
    assert (startsWith SamplePage.illFormedRelative (lit "https://") = false)
      as Hhttps by evaluated.
    destruct (second_failure_exhausts configuredBase
                SamplePage.illFormedRelative mountedView Hne' Hnew')
      as (_ & Hthrows & _).
    destruct (Hthrows Hill Hhttps) as (v0 & Hv0 & _ & Hlater).
    exists v0. split; [exact Hv0|].
    destruct (Hlater 5%nat) as (_ & _ & _ & Hex & _). exact Hex.
  - assert (SamplePage.illFormedStorage ≠ []) as Hne' by evaluated.
    assert (diagramUrl mountedView ≠ SamplePage.illFormedStorage) as Hnew'
      by evaluated.
    assert (isWellFormed SamplePage.illFormedStorage = false) as Hill
      by evaluated.
    assert (isAzureStorageUrl SamplePage.illFormedStorage = true) as Hcls
      by evaluated.
    destruct (second_failure_exhausts configuredBase
                SamplePage.illFormedStorage mountedView Hne' Hnew')
      as (_ & _ & Hnone).
    exact (Hnone Hill Hcls).
Defined.

Lemma short_text_on_sample :
  (length (lit "Use AKS") < 10)%nat ∧
  run (answering sixSuggestions)
      (validateDescription configuredBase asciiToLowerCase (lit "Use AKS") true)
  = ([], inl tt).
Proof.
  assert (length (lit "Use AKS") < 10)%nat as Hshort by evaluated.
  split; [exact Hshort|].
  apply (short_text_stays_idle configuredBase asciiToLowerCase
           (answering sixSuggestions) (lit "Use AKS") true mountedPage Hshort).
Defined.

(** The claim of C4 on the code: the suggestion call returns six entries and
    the published state carries all six. *)
Lemma published_suggestions_exceed_five :
  ∃ st,
    publishedOf
      (run (answering sixSuggestions)
           (validateDescription configuredBase asciiToLowerCase
                                scenarioText true)).1 = [st] ∧
    vs_suggestions st = sixSuggestions ∧
    length (vs_suggestions st) = 6%nat ∧
    ¬ (length (vs_suggestions st) ≤ 5)%nat.
Proof.
  eexists. split; [vm_compute; reflexivity|].
  repeat split; evaluated.
Qed.

Lemma published_suggestions_on_sample :
  (10 ≤ length scenarioText)%nat ∧
  ∃ tr,
    run (answering sixSuggestions)
        (validateDescription configuredBase asciiToLowerCase scenarioText true)
    = (tr, inl tt) ∧
    vs_suggestions <$> publishedOf tr = [sixSuggestions] ∧
    displayedSuggestionsOf tr = [take 5 sixSuggestions].
Proof.
  assert (10 ≤ length scenarioText)%nat as Hlong by evaluated.
  split; [exact Hlong|].
  destruct (published_suggestions_are_whole_list configuredBase
              asciiToLowerCase (answering sixSuggestions) scenarioText Hlong)
    as (tr & Hrun & Hpub & Hshown & _).
  exists tr. split; [exact Hrun|]. split; [exact Hpub | exact Hshown].
Defined.

Lemma hasErrors_on_sample :
  ∃ st,
    In st (publishedOf
             (run (answering sixSuggestions)
                  (validateDescription configuredBase asciiToLowerCase
                                       scenarioText true)).1) ∧
    vs_validationResults st !! lit "CosmosDb"
    = Some {| valid := false; canonical := lit "CosmosDb";
              submodule := lit "azure" |} ∧
    vs_hasErrors st = true.
Proof.
  eexists. split; [|split].
  - left. vm_compute. reflexivity.
  - evaluated.
  - match goal with |- vs_hasErrors ?st = true =>
      assert (In st (publishedOf
                (run (answering sixSuggestions)
                     (validateDescription configuredBase asciiToLowerCase
                                          scenarioText true)).1)) as Hin
        by (left; vm_compute; reflexivity);
      destruct (hasErrors_is_some_invalid configuredBase asciiToLowerCase
                  (answering sixSuggestions) scenarioText true st Hin)
        as (_ & Hiff & _)
    end.
    apply Hiff. exists (lit "CosmosDb"). eexists. split; evaluated.
Defined.

Lemma call_failure_on_sample :
  (10 ≤ length scenarioText)%nat ∧
  callFailed
    (validationDown sixSuggestions
       (validationRequest configuredBase asciiToLowerCase scenarioText))
  = true ∧
  ∃ tr st,
    run (validationDown sixSuggestions)
        (validateDescription configuredBase asciiToLowerCase scenarioText true)
    = (tr, inl tt) ∧
    publishedOf tr = [st] ∧
    vs_validationResults st = ∅ ∧ vs_suggestions st = sixSuggestions.
Proof.
  assert (10 ≤ length scenarioText)%nat as Hlong by evaluated.
  assert (callFailed
            (validationDown sixSuggestions
               (validationRequest configuredBase asciiToLowerCase scenarioText))
          = true) as Hdown by evaluated.
  split; [exact Hlong|]. split; [exact Hdown|].
  destruct (call_failures_degrade_independently configuredBase
              asciiToLowerCase (validationDown sixSuggestions) scenarioText
              Hlong)
    as (tr & st & Hrun & Hpub & _ & Hsug & Hvalidation & _).
  exists tr, st. split; [exact Hrun|]. split; [exact Hpub|]. split.
  - apply Hvalidation; [evaluated | exact Hdown].
  - rewrite Hsug. evaluated.
Defined.

Lemma asciiToLowerCase_ascii (s : jsstring) :
  isAscii s = true → asciiToLowerCase s = List.map asciiLowerUnit s.
Proof. reflexivity. Defined.

Lemma detection_on_scenario :
  (∀ s, isAscii s = true → asciiToLowerCase s = List.map asciiLowerUnit s) ∧
  detectComponents asciiToLowerCase scenarioText
  = [lit "AppServices"; lit "CosmosDb"; lit "CacheForRedis"] ∧
  requestsOf
    (run (answering sixSuggestions)
         (validateDescription configuredBase asciiToLowerCase
                              scenarioText true)).1
  = [mkRequest (lit "https://backend.example/api/validate-components")
       (ComponentNames [lit "AppServices"; lit "CosmosDb"; lit "CacheForRedis"]);
     mkRequest (lit "https://backend.example/api/suggest-architecture")
       (Description scenarioText
          [lit "frontend"; lit "backend"; lit "database"; lit "cache"])].
Proof.
  split; [exact asciiToLowerCase_ascii|].
  destruct (detection_is_dictionary_filter_and_one_batch configuredBase
              asciiToLowerCase (answering sixSuggestions) scenarioText
              asciiToLowerCase_ascii)
    as (_ & _ & _ & _ & Hdetected & Hrequests).
  split; [exact Hdetected | exact Hrequests].
Defined.

(** The claim of C2 on the code: two cycles are in flight, the newer one
    settles first and the older one last; the older cycle's results arrive
    stale and replace the newer cycle's state. *)
Lemma stale_cycle_overwrites_newer_state :
  input olderSettlesLast = newerText ∧
  (fun pb => (pb_cycle pb, pb_newest pb)) <$> publications olderSettlesLast
  = [(1, 1); (0, 1)]%nat ∧
  vs_suggestions (validationState olderSettlesLast) = [suggest "AppServices"] ∧
  dom (vs_validationResults (validationState olderSettlesLast))
  = {[ lit "AppServices" ]} ∧
  onlyNewestPublished olderSettlesLast = false.
Proof. repeat split; evaluated. Qed.

Lemma olderPending_inflight :
  inflight twoCyclesStarted !! 0%nat = Some olderPending.
Proof.
  unfold olderPending.
  destruct (inflight twoCyclesStarted !! 0%nat) as [pending|] eqn:Hlookup;
    [reflexivity|].
  assert (match inflight twoCyclesStarted !! 0%nat with
          | Some _ => true
          | None => false
          end = true) as Hsome by evaluated.
  rewrite Hlookup in Hsome. discriminate Hsome.
Defined.

Lemma olderPending_still_inflight :
  inflight SamplePage.timerPending !! 0%nat = Some olderPending.
Proof.
  assert (bool_decide (SamplePage.thirdText = input twoCyclesStarted) = false)
    as Hedit by evaluated.
  unfold SamplePage.timerPending, step. rewrite Hedit.
  exact olderPending_inflight.
Defined.

Lemma debounce_on_sample :
  debounceTimer SamplePage.timerPending = Some SamplePage.thirdText ∧
  SamplePage.fourthText ≠ input SamplePage.timerPending ∧
  inflight SamplePage.timerPending !! 0%nat = Some olderPending ∧
  (0 < started SamplePage.timerPending)%nat ∧
  debounceTimer
    (step configuredBase asciiToLowerCase SamplePage.timerPending
          (Edit SamplePage.fourthText))
  = Some SamplePage.fourthText ∧
  step configuredBase asciiToLowerCase
       (withTimer None SamplePage.timerPending) (Edit SamplePage.fourthText)
  = step configuredBase asciiToLowerCase SamplePage.timerPending
         (Edit SamplePage.fourthText) ∧
  inflight
    (step configuredBase asciiToLowerCase
       (step configuredBase asciiToLowerCase SamplePage.timerPending
             (Edit SamplePage.fourthText))
       TimerFires) !! 0%nat
  = Some olderPending ∧
  vs_suggestions
    (validationState
       (settleAll configuredBase asciiToLowerCase
          (answering [suggest "AppServices"]) 0 2 SamplePage.timerPending))
  = [suggest "AppServices"] ∧
  ps_detectedComponents
    (panel
       (settleAll configuredBase asciiToLowerCase
          (answering [suggest "AppServices"]) 0 2 SamplePage.timerPending))
  = [lit "AppServices"].
Proof.
  assert (SamplePage.fourthText ≠ input SamplePage.timerPending)
    as Hedit by evaluated.
  assert (0 < started SamplePage.timerPending)%nat as Hstarted by evaluated.
  split; [evaluated|]. split; [exact Hedit|].
  split; [exact olderPending_still_inflight|]. split; [exact Hstarted|].
  destruct (debounce_cancels_only_pending_timers configuredBase
              asciiToLowerCase (answering [suggest "AppServices"])
              SamplePage.timerPending)
    as (Hcancel & Hwaits & Hsettles).
  destruct (Hcancel SamplePage.fourthText Hedit)
    as (Htimer & _ & _ & _ & _ & _ & _ & Hsame).
  destruct (Hwaits SamplePage.fourthText 0%nat olderPending Hedit
              olderPending_still_inflight Hstarted) as [_ Hstill].
  destruct (Hsettles 0%nat olderPending 2%nat olderPending_still_inflight)
    as (_ & Hstate & Hpanel & _); [evaluated|].
  split; [exact Htimer|]. split; [exact (Hsame None)|].
  split; [exact Hstill|]. split.
  - rewrite Hstate. evaluated.
  - rewrite Hpanel. evaluated.
Defined.

End Checked.

(** ** The properties of the page on concrete inputs *)

Module CheckedPage.

Import Sample SamplePage.

Ltac computed := vm_compute; first [reflexivity | discriminate | lia].

(** Closed [Forall] facts over evaluated lists. *)
Ltac each := vm_compute; repeat first [discriminate | constructor].


Lemma title_of_first_heading_on_sample :
  generateTitle
    (join lineFeed (linesBefore ++ (lit "## " ++ headingText) :: linesAfter))
  = lit "Payment platform".
Proof.
  assert (Forall (Forall (fun c => c ≠ lineFeed))
            (linesBefore ++ (lit "## " ++ headingText) :: linesAfter))
    as Hlines by each.
  assert (Forall (fun line => isHeadingLine line = false) linesBefore)
    as Hbefore by each.
  rewrite (generateTitle_first_heading linesBefore linesAfter (lit "## ")
             headingText (or_intror eq_refl) Hlines Hbefore).
  computed.
Defined.

Lemma rendered_document_on_sample :
  shopDocument ≠ [] ∧
  ∃ elements,
    renderDocument shopDocument = Prose elements ∧
    keyOf <$> elements = [0; 1; 2]%nat ∧ length elements = 3%nat.
Proof.
  assert (shopDocument ≠ []) as Hne by computed.
  split; [exact Hne|].
  destruct (renderDocument_one_element_per_line shopDocument Hne)
    as (elements & Hrendered & Hkeys & Hlength).
  exists elements. split; [exact Hrendered|]. split.
  - rewrite Hkeys. computed.
  - rewrite Hlength. computed.
Defined.

Lemma submit_amid_load_on_sample :
  trim submittedInput ≠ [] ∧
  d_isProcessing
    (amid offline (handleSubmit configuredBase submittedInput)
          [loadingWrites] freshDashboard) = false ∧
  d_error
    (amid offline (handleSubmit configuredBase submittedInput)
          [loadingWrites] freshDashboard) ≠ [] ∧
  d_hasResults
    (amid offline (handleSubmit configuredBase submittedInput)
          [loadingWrites] freshDashboard) = true ∧
  d_hasResults
    (amid offline (handleSubmit configuredBase submittedInput)
          [] freshDashboard) = false.
Proof.
  assert (trim submittedInput ≠ []) as Hinput by computed.
  assert (generated offline
            (mkPageRequest POST (GENERATE_ARCHITECTURE configuredBase)
                           [(lit "input", submittedInput)])
          = None) as Hgen by computed.
  split; [exact Hinput|].
  destruct (handleSubmit_settles configuredBase offline submittedInput
              freshDashboard [loadingWrites] [] [])
    as (_ & _ & Hsettles).
  destruct (Hsettles Hinput) as [Hprocessing Hrest].
  rewrite Hgen in Hrest. destruct Hrest as [[Herror _] (Hresults & _)].
  split; [exact Hprocessing|]. split; [exact Herror|].
  split; [computed | exact Hresults].
Defined.

Lemma submit_restarts_exhausted_view :
  exhausted exhaustedView = true ∧
  (∃ v0,
     resolveAmid configuredBase
       (perform backend (handleSubmit configuredBase submittedInput)).1 []
       (Some exhaustedView)
     = Some v0 ∧
     issued v0
     = [lit "https://backend.example/api/proxy/diagram?url=https%3A%2F%2Fstore.blob.core.windows.net%2Fdiagrams%2Fx.png"] ∧
     exhausted v0 = false ∧ imgHidden v0 = false) ∧
  (∃ v',
     resolveAmid configuredBase
       (perform backend (handleSubmit configuredBase submittedInput)).1
       [failingTwice; []] (Some exhaustedView)
     = Some v' ∧
     diagramTriedProxy v' = false ∧ imgHidden v' = true ∧
     placeholderShown v' = true).
Proof.
  assert (trim submittedInput ≠ []) as Hinput by computed.
  assert (generated backend
            (mkPageRequest POST (GENERATE_ARCHITECTURE configuredBase)
                           [(lit "input", submittedInput)])
          = Some generatedData) as Hgen by computed.
  assert (j_diagram_url generatedData = Some storageReference) as Hurl
    by computed.
  assert (storageReference ≠ []) as Hne by computed.
  assert (isWellFormed storageReference = true) as Hwf by computed.
  assert (foldl (viewStep configuredBase)
                (setDiagramUrl configuredBase [] exhaustedView)
                (failingTwice ++ [])
          = Some exhaustedView) as Harriving by computed.
  assert (diagramUrl exhaustedView ≠ []) as Hset by computed.
  assert (diagramUrl exhaustedView ≠ storageReference) as Hother by computed.
  split; [computed|].
  destruct (handleSubmit_restarts_resolver configuredBase backend
              submittedInput storageReference generatedData exhaustedView
              failingTwice [] Hinput Hgen Hurl Hne Hwf)
    as (_ & Hquiet & (v0 & Hv0 & _ & _ & Htried & Hhidden & _) & _ & Hkept).
  split.
  - exists v0. split; [by rewrite Hquiet|].
    split; [|split; [|exact Hhidden]].
    + vm_compute in Hv0. injection Hv0 as <-. computed.
    + unfold exhausted. rewrite Htried. reflexivity.
  - destruct (Hkept exhaustedView Harriving Hset Hother)
      as (v' & Hfinal & _ & Htried' & Hhidden' & Hshown').
    exists v'. split; [exact Hfinal|]. split; [exact Htried'|]. split.
    + rewrite Hhidden'. computed.
    + rewrite Hshown'. computed.
Defined.

Lemma load_after_exhaustion_stays_hidden :
  exhausted exhaustedView = true ∧
  ∃ v',
    resolveAll configuredBase
      (diagramUpdatesOf
         (perform offline
            (handleLoadArchitecture configuredBase (Item savedItem))).1)
      exhaustedView
    = Some v' ∧
    diagramUrl v' = storageReference ∧ diagramTriedProxy v' = false ∧
    imgHidden v' = true ∧ placeholderShown v' = true.
Proof.
  assert (needsFetch (Item savedItem) = None) as Hitem by computed.
  assert (ar_diagram_url savedItem = Some storageReference) as Hurl
    by computed.
  assert (storageReference ≠ []) as Hne by computed.
  assert (isWellFormed storageReference = true) as Hwf by computed.
  assert (diagramUrl exhaustedView ≠ []) as Hset by computed.
  assert (storageReference ≠ diagramUrl exhaustedView) as Hnew by computed.
  split; [computed|].
  destruct (handleLoadArchitecture_keeps_image_hidden configuredBase offline
              savedItem storageReference exhaustedView
              Hitem Hurl Hne Hwf Hset Hnew)
    as (_ & v' & Hall & _ & _ & Htried & Hhidden & Hshown).
  exists v'. split; [exact Hall|]. split.
  - vm_compute in Hall. injection Hall as <-. computed.
  - split; [exact Htried|]. split.
    + rewrite Hhidden. computed.
    + rewrite Hshown. computed.
Defined.

Lemma export_relative_on_sample :
  downloadsOf
    (perform offline
       (exportDiagramPNG configuredBase relativeReference shopDocument)).1
  = [(LinkTo (lit "https://backend.example/api/export/diagram/static/diagrams/x.png?filename=Shop.png"),
      lit "Shop.png")] ∧
  d_exportStatus
    (after offline
       (exportDiagramPNG configuredBase relativeReference shopDocument)
       freshDashboard)
  = Some (StatusSuccess, lit "Diagram exported as Shop.png").
Proof.
  assert (relativeReference ≠ []) as Hne by computed.
  assert (startsWith relativeReference (lit "https://") = false) as Hrelative
    by computed.
  destruct (exportDiagramPNG_relative configuredBase offline relativeReference
              shopDocument freshDashboard Hne Hrelative)
    as (_ & _ & _ & Hdownloads & _ & Hstatus).
  split.
  - rewrite Hdownloads. computed.
  - rewrite Hstatus. computed.
Defined.

Lemma export_absolute_on_sample :
  fetched offline (mkPageRequest GET storageReference []) = false ∧
  downloadsOf
    (perform offline
       (exportDiagramPNG configuredBase storageReference shopDocument)).1
  = [] ∧
  openedOf
    (perform offline
       (exportDiagramPNG configuredBase storageReference shopDocument)).1
  = [lit "https://backend.examplehttps://store.blob.core.windows.net/diagrams/x.png"] ∧
  d_isExporting
    (after offline
       (exportDiagramPNG configuredBase storageReference shopDocument)
       freshDashboard)
  = false.
Proof.
  assert (startsWith storageReference (lit "https://") = true) as Habsolute
    by computed.
  assert (fetched offline (mkPageRequest GET storageReference []) = false)
    as Hfetched by computed.
  split; [exact Hfetched|].
  pose proof (exportDiagramPNG_absolute configuredBase offline
                storageReference shopDocument freshDashboard Habsolute)
    as Hexport.
  cbv zeta in Hexport. rewrite Hfetched in Hexport.
  destruct Hexport as (_ & _ & Hexporting & Hdownloads & Hopened & _).
  split; [exact Hdownloads|]. split; [|exact Hexporting].
  rewrite Hopened. computed.
Defined.

Lemma panel_summary_on_sample :
  (1 + 1 = size (ps_validationResults validatedPanel))%nat ∧
  (hasErrorsOf (ps_validationResults validatedPanel) = true ↔ (0 < 1)%nat).
Proof.
  eapply (panel_summary_counts scenarioText validatedPanel).
  vm_compute. reflexivity.
Defined.


End CheckedPage.
